(** * s3-vault-proxy: forwarding core, key gateway and metadata overlay

    A shallow embedding of the Go sources of the gateway:

    - [gostrings]  the functions of Go's [strings] and [strconv] packages the
                   gateway calls, on byte strings;
    - [vault]      [ARNToVaultKey] of the key gateway;
    - [http]       [net/http]'s [Header] map and request/response records;
    - [s3]         the forwarding core: [copyHeaders], [isHopByHopHeader] and
                   the request-building part of [ForwardRequest];
    - [metadata]   the sidecar service: [Store], [Get], [Exists],
                   [FilterMetadataObjects];
    - [handlers]   the seven S3 handlers and their helpers;
    - [server]     the wiring of handler, metadata service and S3 client;
    - [config]     [LoadConfig], [Validate] and the environment readers;
    - [vaultclient] the Vault client: token handling, [Encrypt], [Decrypt],
                   [HealthCheck];
    - [health]     the health endpoints.

    [s3_first] and [s3_second] hold what the two earlier copies of the S3
    client kept in the repository do differently.  [reference] words the
    properties as the specification does, [demo], [samples] and
    [vaultsamples] hold concrete requests, backends and hosts.

    Go strings and byte slices are [string]s (sequences of bytes).  A Go map
    is a [gmap]; a [range] over it visits the entries in an order the
    language leaves open: the [Runtime] decides it, and every theorem holds
    for every [Runtime].  The functions behind an interface of the gateway
    (the S3 client, the Vault client, the metadata service, the HTTP client)
    are calls of a [Prog], answered by a [World]. *)

From Stdlib Require Import ZArith Ascii String List Lia.
From stdpp Require Import gmap strings list fin_maps.

Local Open Scope Z_scope.

(* ===================================================================== *)
(** ** Go's [strings] and [strconv] *)
(* ===================================================================== *)

Module gostrings.

Definition byteVal (c : ascii) : Z := Z.of_nat (nat_of_ascii c).

Definition isUpper (c : ascii) : bool := (65 <=? byteVal c) && (byteVal c <=? 90).
Definition isLower (c : ascii) : bool := (97 <=? byteVal c) && (byteVal c <=? 122).
Definition isDigit (c : ascii) : bool := (48 <=? byteVal c) && (byteVal c <=? 57).

(** [utf8.RuneSelf]: bytes below it are single-byte runes. *)
Definition RuneSelf : Z := 128.

(** [strings.HasPrefix]. *)
Fixpoint HasPrefix (s prefix : string) {struct prefix} : bool :=
  match prefix, s with
  | EmptyString, _ => true
  | String p prefix', String c s' => Ascii.eqb c p && HasPrefix s' prefix'
  | String _ _, EmptyString => false
  end.

(** [strings.HasSuffix]:
    [len(s) >= len(suffix) && s[len(s)-len(suffix):] == suffix]. *)
Definition HasSuffix (s suffix : string) : bool :=
  (String.length suffix <=? String.length s)%nat &&
  String.eqb (substring (String.length s - String.length suffix)
                        (String.length suffix) s) suffix.

(** [strings.Split] for a separator of one byte, which is how the gateway
    calls it ([":"] and ["/"]).  An input without the separator, the empty
    string included, comes back as the single part. *)
Fixpoint Split (s : string) (sep : ascii) : list string :=
  match s with
  | EmptyString => [EmptyString]
  | String c s' =>
      if Ascii.eqb c sep then EmptyString :: Split s' sep
      else match Split s' sep with
           | p :: ps => String c p :: ps
           | [] => [String c EmptyString]
           end
  end.

(** [strings.Contains]. *)
Fixpoint Contains (s substr : string) : bool :=
  HasPrefix s substr ||
  match s with
  | EmptyString => false
  | String _ s' => Contains s' substr
  end.

(** [strings.Replace(s, old, new, 1)]: the first occurrence of [old] is
    replaced. *)
Fixpoint Replace1 (s old new : string) : string :=
  if HasPrefix s old then
    new +:+ substring (String.length old) (String.length s - String.length old) s
  else
    match s with
    | EmptyString => EmptyString
    | String c s' => String c (Replace1 s' old new)
    end.

(** The ASCII step of [strings.EqualFold]: equal bytes, or an upper-case
    letter and its lower-case form. *)
Definition foldEqASCII (sr tr : ascii) : bool :=
  Ascii.eqb sr tr ||
  (let lo := if byteVal tr <? byteVal sr then tr else sr in
   let hi := if byteVal tr <? byteVal sr then sr else tr in
   isUpper lo && (byteVal hi =? byteVal lo + 32)).

(** [strings.EqualFold s t] where [t] is ASCII, as in every call of the
    gateway (the second argument is always a literal header name).  Runes of
    [s] are decoded from UTF-8.  Under Unicode simple case folding exactly two
    runes outside ASCII fold to an ASCII letter: U+212A KELVIN SIGN (bytes
    E2 84 AA) to [K]/[k] and U+017F LATIN SMALL LETTER LONG S (bytes C5 BF)
    to [S]/[s]; every other rune of two or more bytes, and every byte that
    is not valid UTF-8 (decoded as U+FFFD), differs from any ASCII byte. *)
Fixpoint EqualFold (s t : string) : bool :=
  match s, t with
  | EmptyString, EmptyString => true
  | String sr s', String tr t' =>
      if byteVal sr <? RuneSelf then foldEqASCII sr tr && EqualFold s' t'
      else
        match sr, s' with
        | "226"%char, String "132"%char (String "170"%char s'') =>
            (Ascii.eqb tr "K" || Ascii.eqb tr "k") && EqualFold s'' t'
        | "197"%char, String "191"%char s'' =>
            (Ascii.eqb tr "S" || Ascii.eqb tr "s") && EqualFold s'' t'
        | _, _ => false
        end
  | _, _ => false
  end.

(** The digits loop of [strconv.ParseUint] in base 10: [None] on a byte that
    is not a digit.  The accumulator is unbounded here; the range checks of
    [ParseInt] below reject what does not fit. *)
Fixpoint parseDigits (s : string) (acc : Z) : option Z :=
  match s with
  | EmptyString => Some acc
  | String c s' =>
      if isDigit c then parseDigits s' (acc * 10 + (byteVal c - 48)) else None
  end.

(** [strconv.ParseInt(s, 10, 64)]: an optional sign, at least one digit,
    and a value in the range of [int64]; [None] stands for a non-nil error. *)
Definition ParseInt (s : string) : option Z :=
  match s with
  | EmptyString => None
  | String c rest =>
      let neg := Ascii.eqb c "-" in
      let ds := if Ascii.eqb c "+" || Ascii.eqb c "-" then rest else s in
      match ds with
      | EmptyString => None
      | _ =>
          match parseDigits ds 0 with
          | None => None
          | Some un =>
              if neg then (if un <=? 2 ^ 63 then Some (- un) else None)
              else (if un <? 2 ^ 63 then Some un else None)
          end
      end
  end.

(** ASCII lower-casing of a name, used to say that two header names are the
    same "under any letter casing". *)
Definition lowerByte (c : ascii) : ascii :=
  if isUpper c then ascii_of_nat (nat_of_ascii c + 32) else c.

Fixpoint ToLowerASCII (s : string) : string :=
  match s with
  | EmptyString => EmptyString
  | String c s' => String (lowerByte c) (ToLowerASCII s')
  end.

(** A string of ASCII bytes only. *)
Fixpoint isASCII (s : string) : bool :=
  match s with
  | EmptyString => true
  | String c s' => (byteVal c <? RuneSelf) && isASCII s'
  end.

(** [c] does not occur in [s]. *)
Fixpoint free_of (c : ascii) (s : string) : bool :=
  match s with
  | EmptyString => true
  | String d s' => negb (Ascii.eqb d c) && free_of c s'
  end.

End gostrings.

(* ===================================================================== *)
(** ** Errors, results and interface calls *)
(* ===================================================================== *)

(** A Go [error] built by [fmt.Errorf]: the formatted message.  A wrapped
    cause ([%w]) contributes its own message to the text. *)
Inductive error : Type :=
| Errorf (msg : string).

Definition Error (e : error) : string :=
  match e with Errorf msg => msg end.

(** The pair [(value, error)] a Go function returns when the value is
    meaningful only without error. *)
Inductive result (A : Type) : Type :=
| Ok (a : A)
| Err (e : error).

Arguments Ok {A} a.
Arguments Err {A} e.

(** [%d] of an [int]. *)
Definition Itoa (n : Z) : string := pretty.pretty n.

(* ===================================================================== *)
(** ** [net/http] *)
(* ===================================================================== *)

Module http.

(** [http.Header] is [map[string][]string]. *)
Abbreviation Header := (gmap string (list string)).

(** [validHeaderFieldByte]: the token bytes of RFC 7230. *)
Definition validHeaderFieldByte (c : ascii) : bool :=
  gostrings.isUpper c || gostrings.isLower c || gostrings.isDigit c ||
  existsb (Ascii.eqb c)
    ["!"; "#"; "$"; "%"; "&"; "'"; "*"; "+"; "-"; "."; "^"; "_"; "`"; "|"; "~"]%char.

Fixpoint allValid (s : string) : bool :=
  match s with
  | EmptyString => true
  | String c s' => validHeaderFieldByte c && allValid s'
  end.

(** The rewriting loop of [textproto.canonicalMIMEHeaderKey]: upper-case the
    first letter and every letter after a hyphen, lower-case the others. *)
Fixpoint canonLoop (upper : bool) (s : string) : string :=
  match s with
  | EmptyString => EmptyString
  | String c s' =>
      let c' :=
        if upper && gostrings.isLower c
        then ascii_of_nat (nat_of_ascii c - 32)
        else if negb upper && gostrings.isUpper c
        then ascii_of_nat (nat_of_ascii c + 32)
        else c in
      String c' (canonLoop (Ascii.eqb c' "-") s')
  end.

(** [textproto.CanonicalMIMEHeaderKey]: a key holding a byte that is not a
    token byte is returned unchanged. *)
Definition CanonicalMIMEHeaderKey (s : string) : string :=
  if allValid s then canonLoop true s else s.

(** [Header.Get]: the first value under the canonical form of [key]. *)
Definition Get (h : Header) (key : string) : string :=
  match h !! CanonicalMIMEHeaderKey key with
  | Some (v :: _) => v
  | _ => EmptyString
  end.

(** [Header.Set]. *)
Definition Set_ (h : Header) (key value : string) : Header :=
  <[CanonicalMIMEHeaderKey key := [value]]> h.

(** [Header.Del]. *)
Definition Del (h : Header) (key : string) : Header :=
  delete (CanonicalMIMEHeaderKey key) h.

(** An [io.Reader] handed to [http.NewRequest].  [NewRequest] knows the
    length of a [*bytes.Reader] (and of [*bytes.Buffer], [*strings.Reader]);
    for any other reader the length stays 0. *)
Inductive Reader : Type :=
| BytesReader (b : string)
| StreamReader (b : string).

(** A response body: what [io.ReadAll] returns for it. *)
Record ReadCloser : Type := mkBody {
  data : string;
  readErr : option error
}.

Definition ReadAll (b : ReadCloser) : string * option error :=
  (data b, readErr b).

Record Request : Type := mkRequest {
  Method : string;
  URL : string;
  Host : string;
  Header_ : Header;
  ContentLength : Z;
  Body : option Reader
}.

Record Response : Type := mkResponse {
  StatusCode : Z;
  RespHeader : Header;
  RespBody : ReadCloser
}.

End http.

(* ===================================================================== *)
(** ** [pkg/types] *)
(* ===================================================================== *)

Module types.

Record Content : Type := mkContent {
  Key : string;
  LastModified : string;
  ETag : string;
  Size : Z;
  StorageClass : string
}.

Record ListBucketResult : Type := mkListBucketResult {
  Name : string;
  Prefix : string;
  MaxKeys : Z;
  IsTruncated : bool;
  Contents : list Content
}.

Record ErrorResponse : Type := mkErrorResponse {
  Code : string;
  Message : string
}.

Record ObjectMetadata : Type := mkObjectMetadata {
  MContentLength : Z;
  MContentType : string;
  METag : string;
  MLastModified : string;
  KMSKeyARN : string;
  CustomMeta : gmap string string
}.

End types.

(* ===================================================================== *)
(** ** What the Go runtime and the libraries decide *)
(* ===================================================================== *)

(** - [rangeOrder h]: the order in which a [range] over the map [h] visits
      its entries; any enumeration of the map is possible.
    - [newRequestHost method url]: the [Host] that [http.NewRequest] takes
      from the parsed URL, or the error it reports (bad method or URL).
    - [json_Unmarshal], [xml_Unmarshal]: the decoders of [encoding/json] and
      [encoding/xml] at the two record types the gateway decodes. *)
Class Runtime : Type := mkRuntime {
  rangeOrder : http.Header -> list (string * list string);
  rangeOrder_perm : forall h, rangeOrder h ≡ₚ map_to_list h;
  newRequestHost : string -> string -> result string;
  json_Unmarshal : string -> result types.ObjectMetadata;
  xml_Unmarshal : string -> result types.ListBucketResult
}.

(** [json.Marshal] at the record type the gateway encodes. *)
Class Encoder : Type := mkEncoder {
  json_Marshal : types.ObjectMetadata -> result string
}.

(** Calls through the interfaces of the gateway ([s3.Interface],
    [vault.Interface], [metadata.Interface]) and to the HTTP client. *)
Inductive Call : Type -> Type :=
| HTTP_Do (req : http.Request) : Call (result http.Response)
| S3_ForwardRequest (method path : string) (body : option http.Reader)
    (headers : http.Header) (queryString : option string)
  : Call (result http.Response)
| S3_HeadObject (bucket key : string) (headers : http.Header)
  : Call (result http.Response)
| Vault_Encrypt (data transitKey : string) : Call (string * option error)
| Vault_Decrypt (ciphertext transitKey : string) : Call (string * option error)
| Vault_ARNToVaultKey (arn : string) : Call (string * option error)
| Metadata_Store (bucket key : string) (m : types.ObjectMetadata)
    (headers : http.Header) : Call (option error)
| Metadata_Get (bucket key : string) (headers : http.Header)
  : Call (result types.ObjectMetadata)
| Metadata_Exists (bucket key : string) (headers : http.Header) : Call bool.

(** A function of the gateway: it returns, or makes a call and goes on with
    the answer. *)
Inductive Prog (A : Type) : Type :=
| Ret (a : A)
| Do {X : Type} (c : Call X) (k : X -> Prog A).

Arguments Ret {A} a.
Arguments Do {A X} c k.

Fixpoint bind {A B : Type} (p : Prog A) (f : A -> Prog B) : Prog B :=
  match p with
  | Ret a => f a
  | Do c k => Do c (fun x => bind (k x) f)
  end.

Notation "'do' x <- p ; q" := (bind p (fun x => q))
  (at level 10, x name, p at level 100, q at level 200).

Definition call {X : Type} (c : Call X) : Prog X := Do c Ret.

(** A call with its answer type hidden, for traces. *)
Inductive AnyCall : Type :=
| anyCall {X : Type} (c : Call X).

(** Whatever stands behind the interfaces: it answers each call from its
    state [W] (the backend, the secret service) and moves to a new state. *)
Definition World (W : Type) : Type := forall X : Type, Call X -> W -> X * W.

(** Running a function against a world: its result, the final state of the
    world and the calls it made, in order. *)
Fixpoint exec {W A : Type} (o : World W) (p : Prog A) (w : W)
  : A * W * list AnyCall :=
  match p with
  | Ret a => (a, w, [])
  | Do c k =>
      let '(x, w') := o _ c w in
      let '(a, w'', tr) := exec o (k x) w' in
      (a, w'', anyCall c :: tr)
  end.

Definition isEncrypt (c : AnyCall) : bool :=
  match c with
  | anyCall (Vault_Encrypt _ _) => true
  | _ => false
  end.

(* ===================================================================== *)
(** ** [internal/vault]: the key gateway *)
(* ===================================================================== *)

Module vault.

(** [ARNToVaultKey] (and its earlier copy [arnToVaultKey]): the transit key
    name of a KMS key ARN [arn:aws:kms:region:account:key/key-id]. *)
Definition ARNToVaultKey (arn : string) : string * option error :=
  if String.eqb arn "" then
    ("", Some (Errorf "KMS key ARN is required"))
  else if negb (gostrings.HasPrefix arn "arn:aws:kms:") then
    ("", Some (Errorf ("invalid KMS ARN format: " +:+ arn)))
  else
    let parts := gostrings.Split arn ":" in
    if negb (length parts =? 6)%nat then
      ("", Some (Errorf ("invalid KMS ARN format, expected 6 parts: " +:+ arn)))
    else
      let region := nth 3 parts "" in
      let account := nth 4 parts "" in
      let keyPart := nth 5 parts "" in
      let keyParts := gostrings.Split keyPart "/" in
      if negb (length keyParts =? 2)%nat || negb (String.eqb (nth 0 keyParts "") "key") then
        ("", Some (Errorf ("invalid KMS ARN key format, expected 'key/uuid': " +:+ arn)))
      else
        let keyUUID := nth 1 keyParts "" in
        if String.eqb region "" || String.eqb account "" || String.eqb keyUUID "" then
          ("", Some (Errorf ("missing required ARN components (region/account/key): " +:+ arn)))
        else
          (region +:+ "_" +:+ account +:+ "_" +:+ keyUUID, None).

End vault.

(* ===================================================================== *)
(** ** [internal/s3]: the forwarding core *)
(* ===================================================================== *)

Module s3.

Import http.

(** The [Client]; its [httpClient] is reached through the call [HTTP_Do]. *)
Record Client : Type := mkClient {
  endpoint : string
}.

Definition hopByHopHeaders : list string :=
  [ "Connection";
    "Transfer-Encoding";
    "Upgrade";
    "Proxy-Connection";
    "TE";
    "Trailer";
    "Keep-Alive";
    "Cf-Visitor";
    "X-Forwarded-Host";
    "X-Forwarded-Port";
    "X-Forwarded-For";
    "X-Real-Ip";
    "X-Request-Id";
    "Cf-Connecting-Ip";
    "Cf-Ipcountry";
    "Cf-Ray";
    "Cdn-Loop" ]%string.

(** [isHopByHopHeader]: is [header] one of the names above, whatever its
    letter case. *)
Definition isHopByHopHeader (header : string) : bool :=
  existsb (fun hopHeader => gostrings.EqualFold header hopHeader) hopByHopHeaders.

(** The variables of the loop of [copyHeaders]. *)
Record copyState : Type := mkCopyState {
  originalHost : string;
  headerCount : Z;
  outHeader : Header
}.

(** One turn of [for key, values := range headers]. *)
Definition copyStep (st : copyState) (kv : string * list string) : copyState :=
  match snd kv with
  | [] => st
  | value :: _ =>
      let key := fst kv in
      let host := if gostrings.EqualFold key "host" then value else originalHost st in
      if isHopByHopHeader key then
        mkCopyState host (headerCount st + 1) (outHeader st)
      else
        mkCopyState host (headerCount st + 1) (<[key := [value]]> (outHeader st))
  end.

(** [copyHeaders]: every inbound header that is not hop-by-hop is assigned
    to the request's header map under its own key with its first value; a
    [Host] captured on the way then becomes the request's host and its
    [Host] header. *)
Definition copyHeaders `{Runtime} (req : Request) (headers : Header) : Request :=
  let st := foldl copyStep (mkCopyState "" 0 (Header_ req)) (rangeOrder headers) in
  if String.eqb (originalHost st) "" then
    mkRequest (Method req) (URL req) (Host req) (outHeader st)
              (ContentLength req) (Body req)
  else
    mkRequest (Method req) (URL req) (originalHost st)
              (<["Host"%string := [originalHost st]]> (outHeader st))
              (ContentLength req) (Body req).

(** [http.NewRequest]: an empty header map, the host of the URL, and the
    content length the body's type reveals. *)
Definition NewRequest `{Runtime} (method url : string) (body : option Reader)
  : result Request :=
  match newRequestHost method url with
  | Err err => Err err
  | Ok host =>
      let n := match body with
               | Some (BytesReader b) => Z.of_nat (String.length b)
               | _ => 0
               end in
      Ok (mkRequest method url host ∅ n body)
  end.

(** The URL [ForwardRequest] asks for: always the configured endpoint. *)
Definition fullURL (c : Client) (path : string) (queryString : option string) : string :=
  let fullURL := endpoint c +:+ path in
  match queryString with
  | Some q => if (0 <? String.length q)%nat then fullURL +:+ "?" +:+ q else fullURL
  | None => fullURL
  end.

(** The Content-Length step of [ForwardRequest]. *)
Definition preserveContentLength (headers : Header) (req : Request) : Request :=
  let originalContentLength := Get headers "Content-Length" in
  if String.eqb originalContentLength "" then req
  else
    let hdr := Set_ (Header_ req) "Content-Length" originalContentLength in
    match gostrings.ParseInt originalContentLength with
    | Some length => mkRequest (Method req) (URL req) (Host req) hdr length (Body req)
    | None => mkRequest (Method req) (URL req) (Host req) hdr (ContentLength req) (Body req)
    end.

(** The three [req.Header.Del] of [ForwardRequest]. *)
Definition dropForwardedProto (req : Request) : Request :=
  let hdr := Del (Del (Del (Header_ req) "X-Forwarded-Proto") "X-Forwarded-Scheme") "X-Scheme" in
  mkRequest (Method req) (URL req) (Host req) hdr (ContentLength req) (Body req).

(** [ForwardRequest] up to the request it hands to the HTTP client. *)
Definition buildRequest `{Runtime} (c : Client) (method path : string)
    (body : option Reader) (headers : Header) (queryString : option string)
  : result Request :=
  match NewRequest method (fullURL c path queryString) body with
  | Err err => Err (Errorf ("failed to create request: " +:+ Error err))
  | Ok req =>
      let req := copyHeaders req headers in
      let req := preserveContentLength headers req in
      let req := dropForwardedProto req in
      Ok req
  end.

(** An error response is read in full and given a fresh in-memory body with
    the same bytes; when the read fails the body is left as it is. *)
Definition drainErrorBody (resp : Response) : Response :=
  if 400 <=? StatusCode resp then
    match ReadAll (RespBody resp) with
    | (body, None) => mkResponse (StatusCode resp) (RespHeader resp) (mkBody body None)
    | (_, Some _) => resp
    end
  else resp.

(** [ForwardRequest]. *)
Definition ForwardRequest `{Runtime} (c : Client) (method path : string)
    (body : option Reader) (headers : Header) (queryString : option string)
  : Prog (result Response) :=
  match buildRequest c method path body headers queryString with
  | Err err => Ret (Err err)
  | Ok req =>
      do r <- call (HTTP_Do req);
      match r with
      | Err err => Ret (Err (Errorf ("failed to forward request to S3: " +:+ Error err)))
      | Ok resp => Ret (Ok (drainErrorBody resp))
      end
  end.

(** [HeadObject]. *)
Definition HeadObject `{Runtime} (c : Client) (bucket key : string) (headers : Header)
  : Prog (result Response) :=
  ForwardRequest c "HEAD" ("/" +:+ bucket +:+ "/" +:+ key) None headers None.

End s3.

(* ===================================================================== *)
(** ** Earlier copies of the forwarding core kept in the repository *)
(* ===================================================================== *)

(** The first copy of the client: names are compared exactly, and headers
    are written with [Header.Set], which canonicalizes the name. *)
Module s3_first.

Import http.

Definition hopByHopHeaders : list string :=
  [ "Connection";
    "Transfer-Encoding";
    "Upgrade";
    "Proxy-Connection";
    "TE";
    "Trailer";
    "Keep-Alive" ]%string.

Definition isHopByHopHeader (header : string) : bool :=
  existsb (fun hopHeader => String.eqb header hopHeader) hopByHopHeaders.

Definition copyStep (st : s3.copyState) (kv : string * list string) : s3.copyState :=
  match snd kv with
  | [] => st
  | value :: _ =>
      let key := fst kv in
      let host := if String.eqb key "Host" then value else s3.originalHost st in
      if isHopByHopHeader key then
        s3.mkCopyState host (s3.headerCount st + 1) (s3.outHeader st)
      else
        s3.mkCopyState host (s3.headerCount st + 1) (Set_ (s3.outHeader st) key value)
  end.

Definition copyHeaders `{Runtime} (req : Request) (headers : Header) : Request :=
  let st := foldl copyStep (s3.mkCopyState "" 0 (Header_ req)) (rangeOrder headers) in
  if String.eqb (s3.originalHost st) "" then
    mkRequest (Method req) (URL req) (Host req) (s3.outHeader st)
              (ContentLength req) (Body req)
  else
    mkRequest (Method req) (URL req) (s3.originalHost st)
              (Set_ (s3.outHeader st) "Host" (s3.originalHost st))
              (ContentLength req) (Body req).

End s3_first.

(** The second copy of the client decides the scheme of the URL from the
    edge headers. *)
Module s3_second.

Import http.

(** The marker looked for in [Cf-Visitor]: the word scheme, a colon and the
    word https, each word between double quotes (byte 34). *)
Definition httpsMarker : string :=
  String "034" ("scheme" +:+ String "034" (":" +:+ String "034" ("https" +:+ String "034" EmptyString))).

Definition originalScheme (headers : Header) : string :=
  let cfVisitor := Get headers "Cf-Visitor" in
  if negb (String.eqb cfVisitor "") then
    (if gostrings.Contains cfVisitor httpsMarker then "https" else "http")
  else if String.eqb (Get headers "X-Forwarded-Proto") "https" then "https"
  else "http".

Definition fullURL (c : s3.Client) (path : string) (headers : Header)
    (queryString : option string) : string :=
  let fullURL :=
    if String.eqb (originalScheme headers) "https" &&
       gostrings.HasPrefix (s3.endpoint c) "http://"
    then gostrings.Replace1 (s3.endpoint c) "http://" "https://" +:+ path
    else s3.endpoint c +:+ path in
  match queryString with
  | Some q => if (0 <? String.length q)%nat then fullURL +:+ "?" +:+ q else fullURL
  | None => fullURL
  end.

End s3_second.

(* ===================================================================== *)
(** ** [internal/metadata]: the sidecar metadata service *)
(* ===================================================================== *)

Module metadata.

Import http types.

(** [getMetadataKey]. *)
Definition getMetadataKey (objectKey : string) : string :=
  objectKey +:+ ".metadata".

(** The three errors [Get] derives from the backend's status. *)
Definition errNotFound (bucket key : string) : error :=
  Errorf ("metadata not found for object " +:+ bucket +:+ "/" +:+ key).

Definition errAccessDenied (status : Z) : error :=
  Errorf ("access denied reading metadata: HTTP " +:+ Itoa status).

Definition errGetFailed (status : Z) : error :=
  Errorf ("failed to get metadata: HTTP " +:+ Itoa status).

(** [Get] once the backend has answered with [resp]. *)
Definition getResponse `{Runtime} (bucket key : string) (resp : Response)
  : result ObjectMetadata :=
  if StatusCode resp =? 404 then Err (errNotFound bucket key)
  else if StatusCode resp =? 403 then Err (errAccessDenied (StatusCode resp))
  else if 400 <=? StatusCode resp then Err (errGetFailed (StatusCode resp))
  else
    match ReadAll (RespBody resp) with
    | (_, Some err) => Err (Errorf ("failed to read metadata: " +:+ Error err))
    | (metadataBytes, None) =>
        match json_Unmarshal metadataBytes with
        | Err err => Err (Errorf ("failed to unmarshal metadata: " +:+ Error err))
        | Ok metadata => Ok metadata
        end
    end.

(** [Get]: read [<key>.metadata] through the S3 client. *)
Definition Get `{Runtime} (bucket key : string) (headers : Header)
  : Prog (result ObjectMetadata) :=
  let metadataKey := getMetadataKey key in
  let path := "/" +:+ bucket +:+ "/" +:+ metadataKey in
  do r <- call (S3_ForwardRequest "GET" path None headers None);
  match r with
  | Err err => Ret (Err (Errorf ("failed to get metadata: " +:+ Error err)))
  | Ok resp => Ret (getResponse bucket key resp)
  end.

(** [Store]: write the serialized record as [<key>.metadata] through the S3
    client; [None] is the nil error. *)
Definition Store `{Encoder} (bucket key : string) (metadata : ObjectMetadata)
    (headers : Header) : Prog (option error) :=
  match json_Marshal metadata with
  | Err err => Ret (Some (Errorf ("failed to marshal metadata: " +:+ Error err)))
  | Ok metadataBytes =>
      let metadataKey := getMetadataKey key in
      let path := "/" +:+ bucket +:+ "/" +:+ metadataKey in
      do r <- call (S3_ForwardRequest "PUT" path (Some (BytesReader metadataBytes))
                                      headers None);
      match r with
      | Err err => Ret (Some (Errorf ("failed to store metadata: " +:+ Error err)))
      | Ok resp =>
          if 400 <=? StatusCode resp then
            Ret (Some (Errorf ("failed to store metadata: HTTP " +:+ Itoa (StatusCode resp))))
          else Ret None
      end
  end.

(** [Exists]: a HEAD of the object itself. *)
Definition Exists (bucket key : string) (headers : Header) : Prog bool :=
  do r <- call (S3_HeadObject bucket key headers);
  match r with
  | Err _ => Ret false
  | Ok resp => Ret ((StatusCode resp =? 200) || (StatusCode resp =? 204))
  end.

(** [FilterMetadataObjects]: the loop appends every object whose key does
    not end in [.metadata]. *)
Definition FilterMetadataObjects (contents : list Content) : list Content :=
  foldl (fun filtered obj =>
           if negb (gostrings.HasSuffix (Key obj) ".metadata")
           then filtered ++ [obj] else filtered)
        [] contents.

End metadata.

(* ===================================================================== *)
(** ** [internal/handlers]: the S3 handler *)
(* ===================================================================== *)

Module handlers.

Import http types.

(** What a handler has written to the fiber response. *)
Inductive payload : Type :=
| NoBody
| XMLError (e : ErrorResponse)
| XMLList (l : ListBucketResult)
| Bytes (b : string)
| StatusText (code : Z).

Record FiberResponse : Type := mkFiberResponse {
  Status : Z;
  Headers : gmap string string;
  Payload : payload
}.

(** The fiber context of one request.  The application runs with
    [DisableHeaderNormalizing], so header names stay as the client wrote
    them: [RequestHeaders] is the sequence of pairs [VisitAll] reports. *)
Record Ctx : Type := mkCtx {
  Params_bucket : string;
  Params_star : string;
  RequestHeaders : list (string * string);
  RequestBody : string;
  QueryString : string;
  Response_ : FiberResponse
}.

(** [c.Get(key)]: the value of the request header of that name, [""] when
    there is none. *)
Definition Ctx_Get (c : Ctx) (key : string) : string :=
  match List.filter (fun kv => String.eqb (fst kv) key) (RequestHeaders c) with
  | kv :: _ => snd kv
  | [] => EmptyString
  end.

(** [c.Set], [c.Status], [c.XML], [c.Send], [c.SendStatus] on the response. *)
Definition Set_ (r : FiberResponse) (key value : string) : FiberResponse :=
  mkFiberResponse (Status r) (<[key := value]> (Headers r)) (Payload r).

Definition Status_ (r : FiberResponse) (code : Z) : FiberResponse :=
  mkFiberResponse code (Headers r) (Payload r).

Definition XML (r : FiberResponse) (p : payload) : FiberResponse :=
  mkFiberResponse (Status r) (<["Content-Type"%string := "application/xml"%string]> (Headers r)) p.

Definition Send (r : FiberResponse) (body : option string) : FiberResponse :=
  mkFiberResponse (Status r) (Headers r)
    (match body with Some b => Bytes b | None => NoBody end).

Definition SendStatus (r : FiberResponse) (code : Z) : FiberResponse :=
  mkFiberResponse code (Headers r)
    (match Payload r with NoBody => StatusText code | p => p end).

(** [extractHeaders]: [headers[keyStr] = append(headers[keyStr], valueStr)]
    for every header of the request, the key exactly as received. *)
Definition extractHeaders (c : Ctx) : Header :=
  foldl (fun (headers : Header) kv =>
           <[fst kv := default [] (headers !! fst kv) ++ [snd kv]]> headers)
        ∅ (RequestHeaders c).

(** [getKMSKeyARN]. *)
Definition getKMSKeyARN (c : Ctx) : result string :=
  let kmsKeyARN := Ctx_Get c "X-Amz-Server-Side-Encryption-Aws-Kms-Key-Id" in
  let kmsKeyARN :=
    if String.eqb kmsKeyARN "" then Ctx_Get c "x-amz-server-side-encryption-aws-kms-key-id"
    else kmsKeyARN in
  if String.eqb kmsKeyARN "" then
    Err (Errorf "KMS key ARN is required (x-amz-server-side-encryption-aws-kms-key-id header)")
  else Ok kmsKeyARN.

(** [for key, values := range h { if len(values) > 0 { c.Set(key, values[0]) } }] *)
Definition setFirstValues `{Runtime} (r : FiberResponse) (h : Header) : FiberResponse :=
  foldl (fun r kv => match snd kv with
                     | v :: _ => Set_ r (fst kv) v
                     | [] => r
                     end)
        r (rangeOrder h).

(** [for key, values := range h { for _, value := range values { c.Set(key, value) } }] *)
Definition setAllValues `{Runtime} (r : FiberResponse) (h : Header) : FiberResponse :=
  foldl (fun r kv => foldl (fun r v => Set_ r (fst kv) v) r (snd kv))
        r (rangeOrder h).

(** [forwardResponse]. *)
Definition forwardResponse `{Runtime} (r : FiberResponse) (resp : Response)
  : FiberResponse * option error :=
  let r := setAllValues r (RespHeader resp) in
  let r := Status_ r (StatusCode resp) in
  match ReadAll (RespBody resp) with
  | (_, Some err) => (r, Some err)
  | (body, None) => (Send r (Some body), None)
  end.

(** [forwardRawResponse]. *)
Definition forwardRawResponse `{Runtime} (r : FiberResponse) (statusCode : Z)
    (headers : Header) (body : string) : FiberResponse * option error :=
  let r := setAllValues r headers in
  (Send (Status_ r statusCode) (Some body), None).

(** [c.Status(code).XML(types.ErrorResponse{...})]. *)
Definition xmlError (r : FiberResponse) (code : Z) (errCode message : string)
  : FiberResponse * option error :=
  (XML (Status_ r code) (XMLError (mkErrorResponse errCode message)), None).

(** [filteredContents[i].Size = ...; filteredContents[i].ETag = ...]. *)
Definition withMeta (obj : Content) (storedMeta : ObjectMetadata) : Content :=
  mkContent (Key obj) (LastModified obj) (METag storedMeta)
            (MContentLength storedMeta) (StorageClass obj).

(** The loop [for i := range filteredContents] of [ListObjects], over the
    indices still to visit. *)
Fixpoint enrich (bucket : string) (headers : Header) (indices : list nat)
    (filteredContents : list Content) : Prog (list Content) :=
  match indices with
  | [] => Ret filteredContents
  | i :: rest =>
      match filteredContents !! i with
      | None => Ret filteredContents
      | Some obj =>
          do r <- call (Metadata_Get bucket (Key obj) headers);
          match r with
          | Ok storedMeta =>
              enrich bucket headers rest (<[i := withMeta obj storedMeta]> filteredContents)
          | Err _ => enrich bucket headers rest filteredContents
          end
      end
  end.

(** [ListObjects]. *)
Definition ListObjects `{Runtime} (c : Ctx) : Prog (FiberResponse * option error) :=
  let bucket := Params_bucket c in
  let path := "/" +:+ bucket in
  let headers := extractHeaders c in
  let queryString := QueryString c in
  do r <- call (S3_ForwardRequest "GET" path None headers (Some queryString));
  match r with
  | Err _ => Ret (xmlError (Response_ c) 500 "InternalError" "Failed to list objects")
  | Ok resp =>
      if 400 <=? StatusCode resp then Ret (forwardResponse (Response_ c) resp)
      else
        match ReadAll (RespBody resp) with
        | (_, Some _) =>
            Ret (xmlError (Response_ c) 500 "InternalError" "Failed to read list response")
        | (body, None) =>
            match xml_Unmarshal body with
            | Err _ =>
                Ret (forwardRawResponse (Response_ c) (StatusCode resp) (RespHeader resp) body)
            | Ok listResult =>
                let filteredContents := metadata.FilterMetadataObjects (Contents listResult) in
                do filteredContents <-
                   enrich bucket headers (seq 0 (length filteredContents)) filteredContents;
                let listResult :=
                  mkListBucketResult (Name listResult) (Prefix listResult) (MaxKeys listResult)
                                     (IsTruncated listResult) filteredContents in
                Ret (XML (Set_ (Response_ c) "Content-Type" "application/xml")
                         (XMLList listResult), None)
            end
        end
  end.

(** [PutObject]. *)
Definition PutObject `{Runtime} (c : Ctx) : Prog (FiberResponse * option error) :=
  let bucket := Params_bucket c in
  let key := Params_star c in
  if String.eqb bucket "" || String.eqb key "" then
    Ret (xmlError (Response_ c) 400 "InvalidRequest" "Missing bucket or key")
  else
    match getKMSKeyARN c with
    | Err err => Ret (xmlError (Response_ c) 400 "InvalidRequest" (Error err))
    | Ok kmsKeyARN =>
        do tk <- call (Vault_ARNToVaultKey kmsKeyARN);
        match snd tk with
        | Some err => Ret (xmlError (Response_ c) 400 "InvalidRequest" (Error err))
        | None =>
            let path := "/" +:+ bucket +:+ "/" +:+ key in
            let headers := extractHeaders c in
            let bodyReader := BytesReader (RequestBody c) in
            do r <- call (S3_ForwardRequest "PUT" path (Some bodyReader) headers
                                            (Some (QueryString c)));
            match r with
            | Err _ => Ret (xmlError (Response_ c) 500 "InternalError" "Failed to store object")
            | Ok resp =>
                if 400 <=? StatusCode resp then
                  Ret (Send (Status_ (Response_ c) (StatusCode resp)) None, None)
                else
                  let r := setFirstValues (Response_ c) (RespHeader resp) in
                  let r := Set_ r "x-amz-server-side-encryption" "aws:kms" in
                  let r := Set_ r "x-amz-server-side-encryption-aws-kms-key-id" kmsKeyARN in
                  Ret (SendStatus r (StatusCode resp), None)
            end
        end
    end.

(** [ListBuckets]. *)
Definition ListBuckets `{Runtime} (c : Ctx) : Prog (FiberResponse * option error) :=
  let headers := extractHeaders c in
  do r <- call (S3_ForwardRequest "GET" "/" None headers (Some (QueryString c)));
  match r with
  | Err _ => Ret (xmlError (Response_ c) 500 "InternalError" "Failed to list buckets")
  | Ok resp => Ret (forwardResponse (Response_ c) resp)
  end.

(** [CreateBucket]. *)
Definition CreateBucket `{Runtime} (c : Ctx) : Prog (FiberResponse * option error) :=
  let bucket := Params_bucket c in
  let path := "/" +:+ bucket in
  let headers := extractHeaders c in
  do r <- call (S3_ForwardRequest "PUT" path None headers (Some (QueryString c)));
  match r with
  | Err _ => Ret (xmlError (Response_ c) 500 "InternalError" "Failed to create bucket")
  | Ok resp => Ret (forwardResponse (Response_ c) resp)
  end.

(** [GetObject]. *)
Definition GetObject `{Runtime} (c : Ctx) : Prog (FiberResponse * option error) :=
  let bucket := Params_bucket c in
  let key := Params_star c in
  let headers := extractHeaders c in
  let path := "/" +:+ bucket +:+ "/" +:+ key in
  do r <- call (S3_ForwardRequest "GET" path None headers None);
  match r with
  | Err _ => Ret (xmlError (Response_ c) 500 "InternalError" "Failed to get object")
  | Ok resp => Ret (forwardResponse (Response_ c) resp)
  end.

(** [HeadObject]. *)
Definition HeadObject `{Runtime} (c : Ctx) : Prog (FiberResponse * option error) :=
  let bucket := Params_bucket c in
  let key := Params_star c in
  let headers := extractHeaders c in
  let path := "/" +:+ bucket +:+ "/" +:+ key in
  do r <- call (S3_ForwardRequest "HEAD" path None headers None);
  match r with
  | Err _ => Ret (xmlError (Response_ c) 500 "InternalError" "Failed to head object")
  | Ok resp => Ret (forwardResponse (Response_ c) resp)
  end.

(** [DeleteObject]: the object, then its sidecar record; the answers are
    logged only. *)
Definition DeleteObject (c : Ctx) : Prog (FiberResponse * option error) :=
  let bucket := Params_bucket c in
  let key := Params_star c in
  let headers := extractHeaders c in
  let path := "/" +:+ bucket +:+ "/" +:+ key in
  do _r <- call (S3_ForwardRequest "DELETE" path None headers None);
  let metadataKey := key +:+ ".metadata" in
  let metadataPath := "/" +:+ bucket +:+ "/" +:+ metadataKey in
  do _m <- call (S3_ForwardRequest "DELETE" metadataPath None headers None);
  Ret (SendStatus (Response_ c) 204, None).

End handlers.

(* ===================================================================== *)
(** ** [internal/server]: how the components are wired *)
(* ===================================================================== *)

(** [server.New] builds one S3 client, the metadata service on top of it and
    the handler on top of the three.  A function written against the
    interfaces is given its implementations by replacing each call through
    an interface with the body of the function behind it. *)
Module server.

Import http types.

(** Calls to the S3 client are served by [s3.Client]. *)
Fixpoint withS3Client `{Runtime} (cl : s3.Client) {A : Type} (p : Prog A) : Prog A :=
  match p with
  | Ret a => Ret a
  | Do c k =>
      match c in Call X return (X -> Prog A) -> Prog A with
      | S3_ForwardRequest method path body headers queryString =>
          fun k' => bind (s3.ForwardRequest cl method path body headers queryString) k'
      | S3_HeadObject bucket key headers =>
          fun k' => bind (s3.HeadObject cl bucket key headers) k'
      | c' => fun k' => Do c' k'
      end (fun x => withS3Client cl (k x))
  end.

(** Calls to the metadata service are served by [metadata.Service]. *)
Fixpoint withMetadataService `{Runtime} `{Encoder} {A : Type} (p : Prog A) : Prog A :=
  match p with
  | Ret a => Ret a
  | Do c k =>
      match c in Call X return (X -> Prog A) -> Prog A with
      | Metadata_Store bucket key m headers =>
          fun k' => bind (metadata.Store bucket key m headers) k'
      | Metadata_Get bucket key headers =>
          fun k' => bind (metadata.Get bucket key headers) k'
      | Metadata_Exists bucket key headers =>
          fun k' => bind (metadata.Exists bucket key headers) k'
      | c' => fun k' => Do c' k'
      end (fun x => withMetadataService (k x))
  end.

(** The key resolution of the Vault client is [vault.ARNToVaultKey]; its
    encrypt and decrypt operations stay calls to the secret service. *)
Fixpoint withKeyGateway {A : Type} (p : Prog A) : Prog A :=
  match p with
  | Ret a => Ret a
  | Do c k =>
      match c in Call X return (X -> Prog A) -> Prog A with
      | Vault_ARNToVaultKey arn => fun k' => k' (vault.ARNToVaultKey arn)
      | c' => fun k' => Do c' k'
      end (fun x => withKeyGateway (k x))
  end.

(** A handler as the server runs it. *)
Definition wired `{Runtime} `{Encoder} (cl : s3.Client) {A : Type} (p : Prog A) : Prog A :=
  withS3Client cl (withMetadataService (withKeyGateway p)).

End server.

(* ===================================================================== *)
(** ** [internal/config]: configuration from the environment *)
(* ===================================================================== *)

Module config.

(** [os.Getenv]: the value of a variable, [""] when it is not set. *)
Definition Env : Type := string -> string.

(** [strconv.ParseBool]; [None] stands for a non-nil error. *)
Definition ParseBool (str : string) : option bool :=
  if existsb (String.eqb str) ["1"; "t"; "T"; "true"; "TRUE"; "True"]%string then Some true
  else if existsb (String.eqb str) ["0"; "f"; "F"; "false"; "FALSE"; "False"]%string
  then Some false
  else None.

(** [time.Second], in nanoseconds. *)
Definition Second : Z := 1000000000.

Record Config : Type := mkConfig {
  Port : string;
  ServerHeader : string;
  ReadTimeout : Z;
  WriteTimeout : Z;
  IdleTimeout : Z;
  BodyLimit : Z;
  ReadBufferSize : Z;
  WriteBufferSize : Z;
  DisableStartupMsg : bool;
  VaultAddr : string;
  VaultToken : string;
  VaultTokenPath : string;
  S3Endpoint : string;
  S3CACertPath : string;
  LogLevel : string;
  LogFormat : string;
  LogTimeFormat : string;
  Version : string;
  Commit : string;
  Date : string;
  BuiltBy : string
}.

(** [getEnv]. *)
Definition getEnv (env : Env) (key defaultValue : string) : string :=
  let value := env key in
  if negb (String.eqb value "") then value else defaultValue.

(** [getBoolEnv]. *)
Definition getBoolEnv (env : Env) (key : string) (defaultValue : bool) : bool :=
  let value := env key in
  if negb (String.eqb value "") then
    match ParseBool value with
    | Some parsed => parsed
    | None => defaultValue
    end
  else defaultValue.

(** [getIntEnv]; [strconv.Atoi] is [ParseInt] in base 10 at the size of
    [int], 64 bits. *)
Definition getIntEnv (env : Env) (key : string) (defaultValue : Z) : Z :=
  let value := env key in
  if negb (String.eqb value "") then
    match gostrings.ParseInt value with
    | Some parsed => parsed
    | None => defaultValue
    end
  else defaultValue.

(** [Validate]; [None] is the nil error. *)
Definition Validate (env : Env) (c : Config) : option error :=
  if String.eqb (S3Endpoint c) "" then Some (Errorf "S3_ENDPOINT is required")
  else if String.eqb (VaultAddr c) "" && String.eqb (env "VAULT_ADDR") "" then
    Some (Errorf "VAULT_ADDR is required")
  else
    let hasToken := negb (String.eqb (VaultToken c) "") in
    let hasTokenFile := negb (String.eqb (VaultTokenPath c) "") in
    let hasTokenEnv := negb (String.eqb (env "VAULT_TOKEN") "") in
    if negb hasToken && negb hasTokenFile && negb hasTokenEnv then
      Some (Errorf "either VAULT_TOKEN or VAULT_TOKEN_PATH must be set")
    else None.

(** [LoadConfig]. *)
Definition LoadConfig (env : Env) : result Config :=
  let cfg :=
    mkConfig
      (getEnv env "PORT" "9000")
      "S3-Vault-Proxy/1.0"
      (30 * Second)
      (30 * Second)
      (60 * Second)
      (100 * 1024 * 1024)
      16384
      16384
      (getBoolEnv env "DISABLE_STARTUP_MSG" true)
      (getEnv env "VAULT_ADDR" "")
      (getEnv env "VAULT_TOKEN" "")
      (getEnv env "VAULT_TOKEN_PATH" "/vault/secrets/token")
      (getEnv env "S3_ENDPOINT" "")
      (getEnv env "S3_CA_CERT_PATH" "")
      (getEnv env "LOG_LEVEL" "info")
      (getEnv env "LOG_FORMAT" "json")
      (getEnv env "LOG_TIME_FORMAT" "15:04:05")
      (getEnv env "VERSION" "dev")
      (getEnv env "COMMIT" "none")
      (getEnv env "DATE" "unknown")
      (getEnv env "BUILT_BY" "unknown") in
  match Validate env cfg with
  | Some err => Err (Errorf ("invalid configuration: " +:+ Error err))
  | None => Ok cfg
  end.

End config.

(* ===================================================================== *)
(** ** [internal/vault]: the client of the secret service *)
(* ===================================================================== *)

Module vaultclient.

(** A value of type [interface{}] in the data of a secret: a string, or
    anything else. *)
Inductive value : Type :=
| VString (s : string)
| VOther.

(** [*api.Secret] as far as the client reads it; [Data] is [None] for a nil
    map. *)
Record Secret : Type := mkSecret {
  Data : option (gmap string value)
}.

(** [*api.Client]: the address it talks to and the token it presents. *)
Record ApiClient : Type := mkApiClient {
  ApiAddress : string;
  Token : string
}.

(** [Client]; [client] is [None] for a nil pointer. *)
Record Client : Type := mkClient {
  client : option ApiClient;
  tokenPath : string;
  usingTokenFile : bool
}.

(** Library routines the client applies to strings: [strings.TrimSpace] and
    the standard base64 encoding. *)
Class Library : Type := mkLibrary {
  TrimSpace : string -> string;
  base64_EncodeToString : string -> string;
  base64_DecodeString : string -> result string
}.

(** What the client asks of its surroundings: the Vault API
    ([api.NewClient] on the default configuration with the address replaced
    when one is given, [Logical().Write], [Sys().Health]), the file system,
    the environment, and the start of the token watcher as a goroutine. *)
Inductive Op : Type -> Type :=
| Api_NewClient (address : option string) : Op (result ApiClient)
| ReadFile (name : string) : Op (result string)
| Getenv (key : string) : Op string
| Logical_Write (api : ApiClient) (path : string) (data : gmap string value)
  : Op (result (option Secret))
| Sys_Health (api : ApiClient) : Op (option error)
| Go_watchTokenFile : Op unit.

(** A function of the client: it returns, asks and goes on with the answer,
    or panics. *)
Inductive Act (A : Type) : Type :=
| Done (a : A)
| Ask {X : Type} (op : Op X) (k : X -> Act A)
| Panic (msg : string).

Arguments Done {A} a.
Arguments Ask {A X} op k.
Arguments Panic {A} msg.

Fixpoint andThen {A B : Type} (p : Act A) (f : A -> Act B) : Act B :=
  match p with
  | Done a => f a
  | Ask op k => Ask op (fun x => andThen (k x) f)
  | Panic msg => Panic msg
  end.

Notation "'act' x <- p ; q" := (andThen p (fun x => q))
  (at level 10, x name, p at level 100, q at level 200).

Definition ask {X : Type} (op : Op X) : Act X := Ask op Done.

Inductive AnyOp : Type :=
| anyOp {X : Type} (op : Op X).

(** The surroundings answer each request from their state [V]. *)
Definition Machine (V : Type) : Type := forall X : Type, Op X -> V -> X * V.

(** Running a function: its result ([None] after a panic), the final state
    of the surroundings and the requests made, in order. *)
Fixpoint run {V A : Type} (m : Machine V) (p : Act A) (v : V)
  : option A * V * list AnyOp :=
  match p with
  | Done a => (Some a, v, [])
  | Panic _ => (None, v, [])
  | Ask op k =>
      let '(x, v') := m _ op v in
      let '(a, v'', tr) := run m (k x) v' in
      (a, v'', anyOp op :: tr)
  end.

(** [c.client.SetToken(token)]. *)
Definition SetToken (c : Client) (token : string) : Act Client :=
  match client c with
  | None => Panic "invalid memory address or nil pointer dereference"
  | Some api =>
      Done (mkClient (Some (mkApiClient (ApiAddress api) token)) (tokenPath c)
                     (usingTokenFile c))
  end.

Definition setUsingTokenFile (c : Client) (b : bool) : Client :=
  mkClient (client c) (tokenPath c) b.

(** [setToken]; the error is [None] for nil. *)
Definition setToken `{Library} (c : Client) (vaultToken tokenPath : string)
  : Act (Client * option error) :=
  act r <- ask (ReadFile tokenPath);
  let fromFile :=
    match r with
    | Ok tokenBytes =>
        let token := TrimSpace tokenBytes in
        if negb (String.eqb token "") then Some token else None
    | Err _ => None
    end in
  match fromFile with
  | Some token =>
      act c <- SetToken c token;
      Done (setUsingTokenFile c true, None)
  | None =>
      if negb (String.eqb vaultToken "") then
        act c <- SetToken c vaultToken;
        Done (setUsingTokenFile c false, None)
      else
        act token <- ask (Getenv "VAULT_TOKEN");
        if negb (String.eqb token "") then
          act c <- SetToken c token;
          Done (setUsingTokenFile c false, None)
        else
          Done (c, Some (Errorf ("no vault token found in file " +:+ tokenPath +:+
                                 ", provided token, or VAULT_TOKEN environment variable")))
  end.

(** [NewClient]. *)
Definition NewClient `{Library} (vaultAddr vaultToken tokenPath : string)
  : Act (result Client) :=
  act r <- ask (Api_NewClient (if negb (String.eqb vaultAddr "") then Some vaultAddr
                               else None));
  match r with
  | Err err => Done (Err (Errorf ("failed to create vault client: " +:+ Error err)))
  | Ok vaultClient =>
      let client := mkClient (Some vaultClient) tokenPath false in
      act r <- setToken client vaultToken tokenPath;
      match snd r with
      | Some err => Done (Err (Errorf ("failed to set vault token: " +:+ Error err)))
      | None =>
          let client := fst r in
          if usingTokenFile client then
            act _u <- ask Go_watchTokenFile;
            Done (Ok client)
          else Done (Ok client)
      end
  end.

(** The loop [for range ticker.C] of [watchTokenFile], for the ticks
    received so far: the client and [lastToken] after them. *)
Fixpoint watchTicks `{Library} (ticks : nat) (c : Client) (lastToken : string)
  : Act (Client * string) :=
  match ticks with
  | O => Done (c, lastToken)
  | S ticks' =>
      act r <- ask (ReadFile (tokenPath c));
      match r with
      | Ok tokenBytes =>
          let newToken := TrimSpace tokenBytes in
          if negb (String.eqb newToken "") && negb (String.eqb newToken lastToken) then
            act c <- SetToken c newToken;
            watchTicks ticks' c newToken
          else watchTicks ticks' c lastToken
      | Err _ => watchTicks ticks' c lastToken
      end
  end.

(** [watchTokenFile], observed after [ticks] ticks of its ticker. *)
Definition watchTokenFile `{Library} (ticks : nat) (c : Client) : Act Client :=
  if String.eqb (tokenPath c) "" then Done c
  else
    act r <- watchTicks ticks c "";
    Done (fst r).

(** [Encrypt]. *)
Definition Encrypt `{Library} (c : Client) (data transitKey : string)
  : Act (string * option error) :=
  match client c with
  | None => Done (EmptyString, Some (Errorf "vault client not configured"))
  | Some api =>
      let plaintext := base64_EncodeToString data in
      act r <- ask (Logical_Write api ("transit/encrypt/" +:+ transitKey)
                                  {[ "plaintext"%string := VString plaintext ]});
      match r with
      | Err err =>
          Done (EmptyString,
                Some (Errorf ("vault encryption failed for key " +:+ transitKey +:+ ": " +:+
                              Error err)))
      | Ok resp =>
          match resp with
          | None => Done (EmptyString, Some (Errorf "empty response from vault"))
          | Some secret =>
              match Data secret with
              | None => Done (EmptyString, Some (Errorf "empty response from vault"))
              | Some d =>
                  match d !! "ciphertext"%string with
                  | Some (VString ciphertext) => Done (ciphertext, None)
                  | _ => Done (EmptyString,
                               Some (Errorf "invalid ciphertext response from vault"))
                  end
              end
          end
      end
  end.

(** [Decrypt]; the empty string stands for the nil slice. *)
Definition Decrypt `{Library} (c : Client) (ciphertext transitKey : string)
  : Act (string * option error) :=
  match client c with
  | None => Done (EmptyString, Some (Errorf "vault client not configured"))
  | Some api =>
      act r <- ask (Logical_Write api ("transit/decrypt/" +:+ transitKey)
                                  {[ "ciphertext"%string := VString ciphertext ]});
      match r with
      | Err err =>
          Done (EmptyString,
                Some (Errorf ("vault decryption failed for key " +:+ transitKey +:+ ": " +:+
                              Error err)))
      | Ok resp =>
          match resp with
          | None => Done (EmptyString, Some (Errorf "empty response from vault"))
          | Some secret =>
              match Data secret with
              | None => Done (EmptyString, Some (Errorf "empty response from vault"))
              | Some d =>
                  match d !! "plaintext"%string with
                  | Some (VString plaintext) =>
                      match base64_DecodeString plaintext with
                      | Err err =>
                          Done (EmptyString,
                                Some (Errorf ("failed to decode decrypted data: " +:+
                                              Error err)))
                      | Ok data => Done (data, None)
                      end
                  | _ => Done (EmptyString,
                               Some (Errorf "invalid plaintext response from vault"))
                  end
              end
          end
      end
  end.

(** [Address]. *)
Definition Address (c : Client) : string :=
  match client c with
  | None => EmptyString
  | Some api => ApiAddress api
  end.

(** [HealthCheck]. *)
Definition HealthCheck (c : Client) : Act (option error) :=
  match client c with
  | None => Done (Some (Errorf "vault client not configured"))
  | Some api => ask (Sys_Health api)
  end.

End vaultclient.

(* ===================================================================== *)
(** ** [internal/handlers]: the health endpoints *)
(* ===================================================================== *)

Module health.

Import handlers.

Record HealthHandler : Type := mkHealthHandler {
  config_ : config.Config;
  vault_ : vaultclient.Client
}.

(** The double quote, byte 34. *)
Definition quote : string := String "034" EmptyString.

(** [c.SendString]. *)
Definition SendString (r : FiberResponse) (body : string) : FiberResponse :=
  Send r (Some body).

(** [Health]. *)
Definition Health (h : HealthHandler) (r : FiberResponse) : FiberResponse :=
  let r := Set_ r "Content-Type" "application/json" in
  SendString r
    ("{" +:+ quote +:+ "status" +:+ quote +:+ ":" +:+ quote +:+ "healthy" +:+ quote +:+ "," +:+
     quote +:+ "vault" +:+ quote +:+ ":" +:+ quote +:+ vaultclient.Address (vault_ h) +:+
     quote +:+ "," +:+ quote +:+ "version" +:+ quote +:+ ":" +:+ quote +:+
     config.Version (config_ h) +:+ quote +:+ "}").

(** [Ready]. *)
Definition Ready (h : HealthHandler) (r : FiberResponse) : vaultclient.Act FiberResponse :=
  vaultclient.andThen (vaultclient.HealthCheck (vault_ h)) (fun err =>
    match err with
    | Some _ =>
        vaultclient.Done
          (SendString (Status_ r 503)
             ("{" +:+ quote +:+ "status" +:+ quote +:+ ":" +:+ quote +:+ "not ready" +:+
              quote +:+ "," +:+ quote +:+ "error" +:+ quote +:+ ":" +:+ quote +:+
              "vault unreachable" +:+ quote +:+ "}"))
    | None =>
        vaultclient.Done
          (SendString r
             ("{" +:+ quote +:+ "status" +:+ quote +:+ ":" +:+ quote +:+ "ready" +:+ quote +:+
              "," +:+ quote +:+ "version" +:+ quote +:+ ":" +:+ quote +:+
              config.Version (config_ h) +:+ quote +:+ "}"))
    end).

End health.

(* ===================================================================== *)
(** ** The properties as the specification words them *)
(* ===================================================================== *)

Module reference.

(** The shape [arn:aws:kms:R:A:key/U] of a key ARN. *)
Definition kmsARN (R A U : string) : string :=
  "arn:aws:kms:" +:+ R +:+ ":" +:+ A +:+ ":key/" +:+ U.

(** [R], [A], [U] are non-empty, the ARN has exactly six parts between
    colons and its last part exactly two pieces around the slash. *)
Definition wellFormed (R A U : string) : Prop :=
  R <> EmptyString /\ A <> EmptyString /\ U <> EmptyString /\
  gostrings.free_of ":" R = true /\ gostrings.free_of ":" A = true /\
  gostrings.free_of ":" U = true /\ gostrings.free_of "/" U = true.

(** The transit key name [R_A_U]. *)
Definition transitKeyName (R A U : string) : string :=
  R +:+ "_" +:+ A +:+ "_" +:+ U.

(** Two names that differ at most in the case of their ASCII letters. *)
Definition sameNameAnyCase (a b : string) : Prop :=
  gostrings.ToLowerASCII a = gostrings.ToLowerASCII b.

(** An object of a listing that is not a sidecar record: its key does not
    end with [.metadata]. *)
Definition notSidecar (obj : types.Content) : bool :=
  negb (gostrings.HasSuffix (types.Key obj) ".metadata").

(** The answers of the metadata service when it is asked, one object after
    the other, for the sidecar record of each object: the answers, the state
    the world is left in, and the calls. *)
Fixpoint askAll {W : Type} (o : World W) (bucket : string) (headers : http.Header)
    (objs : list types.Content) (w : W)
  : list (result types.ObjectMetadata) * W * list AnyCall :=
  match objs with
  | [] => ([], w, [])
  | obj :: rest =>
      let '(r, w1) := o _ (Metadata_Get bucket (types.Key obj) headers) w in
      let '(rs, w2, tr) := askAll o bucket headers rest w1 in
      (r :: rs, w2, anyCall (Metadata_Get bucket (types.Key obj) headers) :: tr)
  end.

(** A listing entry once its sidecar record was asked for: size and ETag of
    the record when there is one, the entry as it was otherwise. *)
Definition enriched (obj : types.Content) (r : result types.ObjectMetadata) : types.Content :=
  match r with
  | Ok record =>
      types.mkContent (types.Key obj) (types.LastModified obj) (types.METag record)
                      (types.MContentLength record) (types.StorageClass obj)
  | Err _ => obj
  end.

(** The four handlers that hand the request to the backend and relay its
    answer. *)
Inductive relay : Type :=
| RelayListBuckets
| RelayCreateBucket
| RelayGetObject
| RelayHeadObject.

Definition relayHandler `{Runtime} (h : relay) (c : handlers.Ctx)
  : Prog (handlers.FiberResponse * option error) :=
  match h with
  | RelayListBuckets => handlers.ListBuckets c
  | RelayCreateBucket => handlers.CreateBucket c
  | RelayGetObject => handlers.GetObject c
  | RelayHeadObject => handlers.HeadObject c
  end.

(** The request each of them sends: method, path and query string. *)
Definition relayCall (h : relay) (c : handlers.Ctx) : Call (result http.Response) :=
  let headers := handlers.extractHeaders c in
  let object := "/" +:+ handlers.Params_bucket c +:+ "/" +:+ handlers.Params_star c in
  match h with
  | RelayListBuckets =>
      S3_ForwardRequest "GET" "/" None headers (Some (handlers.QueryString c))
  | RelayCreateBucket =>
      S3_ForwardRequest "PUT" ("/" +:+ handlers.Params_bucket c) None headers
                        (Some (handlers.QueryString c))
  | RelayGetObject => S3_ForwardRequest "GET" object None headers None
  | RelayHeadObject => S3_ForwardRequest "HEAD" object None headers None
  end.

(** The values received under a header name, in the order received. *)
Definition receivedValues (c : handlers.Ctx) (name : string) : list string :=
  map snd (List.filter (fun kv => String.eqb (fst kv) name) (handlers.RequestHeaders c)).

(** The first string of a list that is not empty, the empty string when
    there is none. *)
Definition firstNonEmpty (candidates : list string) : string :=
  default EmptyString (List.find (fun s => negb (String.eqb s "")) candidates).

(** The token a file offers: its content without surrounding white space,
    nothing when it cannot be read. *)
Definition offered `{vaultclient.Library} (file : result string) : string :=
  match file with
  | Ok tokenBytes => vaultclient.TrimSpace tokenBytes
  | Err _ => EmptyString
  end.

(** The client [c] once its API client presents [token]. *)
Definition presenting (c : vaultclient.Client) (api : vaultclient.ApiClient)
    (token : string) (fromFile : bool) : vaultclient.Client :=
  vaultclient.mkClient
    (Some (vaultclient.mkApiClient (vaultclient.ApiAddress api) token))
    (vaultclient.tokenPath c) fromFile.

(** Is this request the start of the token watcher? *)
Definition startsWatcher (a : vaultclient.AnyOp) : bool :=
  match a with
  | vaultclient.anyOp vaultclient.Go_watchTokenFile => true
  | _ => false
  end.

(** The token in force after a sequence of reads of the token file: the
    last one offered, the [current] one when none was. *)
Definition latestToken `{vaultclient.Library} (current : string) (reads : list (result string))
  : string :=
  foldl (fun token file => if String.eqb (offered file) "" then token else offered file)
        current reads.

(** The answers to [n] successive reads of a file, and the state the
    surroundings are left in. *)
Fixpoint fileReads {V : Type} (m : vaultclient.Machine V) (name : string) (n : nat) (v : V)
  : list (result string) * V :=
  match n with
  | O => ([], v)
  | S n' =>
      let '(r, v1) := m _ (vaultclient.ReadFile name) v in
      let '(rs, v2) := fileReads m name n' v1 in
      (r :: rs, v2)
  end.

End reference.

(* ===================================================================== *)
(** ** Concrete requests, backends and runtimes *)
(* ===================================================================== *)

Module demo.

Import http types.

Definition arn : string :=
  "arn:aws:kms:us-east-1:123456789012:key/12345678-1234-1234-1234-123456789012".

(** The record stored for [file.txt]: ten bytes of plaintext. *)
Definition fileMetadata : ObjectMetadata :=
  mkObjectMetadata 10 "text/plain" "etag-of-plaintext" "Mon, 02 Jan 2006 15:04:05 GMT" arn ∅.

Definition zeroMetadata : ObjectMetadata :=
  mkObjectMetadata 0 EmptyString EmptyString EmptyString EmptyString ∅.

(** A listing with a managed object, its sidecar record and a foreign
    object. *)
Definition listing : ListBucketResult :=
  mkListBucketResult "bucket1" EmptyString 1000 false
    [ mkContent "file.txt" "2006-01-02T15:04:05.000Z" "etag-of-ciphertext" 37 "STANDARD";
      mkContent "file.txt.metadata" "2006-01-02T15:04:05.000Z" "etag-of-record" 120 "STANDARD";
      mkContent "other.bin" "2006-01-02T15:04:05.000Z" "etag-of-other" 5 "STANDARD" ].

Definition decodeJSON (s : string) : result ObjectMetadata :=
  if String.eqb s "{}" then Ok zeroMetadata
  else Err (Errorf "unexpected end of JSON input").

Definition decodeXML (s : string) : result ListBucketResult :=
  if String.eqb s "<ListBucketResult/>" then Ok listing
  else Err (Errorf "EOF").

Definition hostOf (method url : string) : result string :=
  Ok "minio.internal:9000"%string.

(** A runtime whose [range] visits a map in the order of [map_to_list]. *)
Definition runtime : Runtime :=
  mkRuntime map_to_list (fun h => Permutation_refl (map_to_list h))
            hostOf decodeJSON decodeXML.

(** A runtime whose [range] visits a map in the opposite order. *)
Definition reversedRuntime : Runtime :=
  mkRuntime (fun h => reverse (map_to_list h))
            (fun h => reverse_Permutation (map_to_list h))
            hostOf decodeJSON decodeXML.

(** A world whose backend answers every request with [resp], whose key
    gateway is [vault.ARNToVaultKey] and whose metadata service knows the
    record of [file.txt] only. *)
Definition world (resp : Response) : World unit :=
  fun X c w =>
    match c in Call X return X * unit with
    | HTTP_Do _ => (Ok resp, w)
    | S3_ForwardRequest _ _ _ _ _ => (Ok resp, w)
    | S3_HeadObject _ _ _ => (Ok resp, w)
    | Vault_Encrypt _ _ => ((EmptyString, Some (Errorf "vault client not configured")), w)
    | Vault_Decrypt _ _ => ((EmptyString, Some (Errorf "vault client not configured")), w)
    | Vault_ARNToVaultKey a => (vault.ARNToVaultKey a, w)
    | Metadata_Store _ _ _ _ => (None, w)
    | Metadata_Get bucket key _ =>
        (if String.eqb key "file.txt" then Ok fileMetadata
         else Err (metadata.errNotFound bucket key), w)
    | Metadata_Exists _ _ _ => (true, w)
    end.

Definition response (status : Z) (body : string) : Response :=
  mkResponse status ∅ (mkBody body None).

Definition client : s3.Client := s3.mkClient "http://minio.internal:9000".

(** The request [http.NewRequest] returns for a GET of [/bucket1]. *)
Definition request : Request :=
  mkRequest "GET" "http://minio.internal:9000/bucket1" "minio.internal:9000" ∅ 0 None.

(** Inbound headers of a signed request that came through an edge proxy. *)
Definition signedHeaders : Header :=
  <["Host"%string := ["s3.example.com"%string]]>
  (<["X-Amz-Date"%string := ["20250101T000000Z"%string]]>
  (<["Content-Length"%string := ["10"%string]]>
  (<["Accept"%string := ["application/xml"%string; "text/plain"%string]]>
  (<["Connection"%string := ["keep-alive"%string; "close"%string]]>
  (<["X-Forwarded-Server"%string := ["edge1"%string]]>
  (<["X-Forwarded-Proto"%string := ["https"%string]]>
  (<["x-real-ip"%string := ["203.0.113.7"%string]]> ∅))))))).

(** Inbound headers as an HTTP/2 edge writes them, in lower case. *)
Definition lowerCaseHeaders : Header :=
  <["host"%string := ["s3.example.com"%string]]>
  (<["x-forwarded-proto"%string := ["https"%string]]>
  (<["x-forwarded-for"%string := ["203.0.113.7"%string]]> ∅)).

(** Inbound headers with a visitor header that names no https scheme next
    to a forwarded protocol of https. *)
Definition mixedHintHeaders : Header :=
  <["Cf-Visitor"%string := ["scheme=http"%string]]>
  (<["X-Forwarded-Proto"%string := ["https"%string]]> ∅).

(** Inbound headers naming the host twice, in two letter cases. *)
Definition clashHeaders : Header :=
  <["Host"%string := ["a.example"%string]]>
  (<["host"%string := ["b.example"%string]]> ∅).

(** A PUT of ten bytes to [/bucket1/file.txt]. *)
Definition putCtx : handlers.Ctx :=
  handlers.mkCtx "bucket1" "file.txt"
    [ ("Host", "s3.example.com");
      ("Content-Length", "10");
      ("X-Amz-Server-Side-Encryption-Aws-Kms-Key-Id", arn) ]%string
    "0123456789" EmptyString
    (handlers.mkFiberResponse 200 ∅ handlers.NoBody).

(** A GET of [/bucket1]. *)
Definition listCtx : handlers.Ctx :=
  handlers.mkCtx "bucket1" EmptyString
    [ ("Host", "s3.example.com") ]%string
    EmptyString EmptyString
    (handlers.mkFiberResponse 200 ∅ handlers.NoBody).

End demo.

(* ===================================================================== *)
(** ** A backend that keeps what it is given *)
(* ===================================================================== *)

Module samples.

Import http types.

(** The JSON text of [demo.fileMetadata], written without the double quotes
    around names and strings. *)
Definition fileJSON : string :=
  "{content_length:10,content_type:text/plain,etag:etag-of-plaintext}".

#[global] Instance ObjectMetadata_eq_dec : EqDecision ObjectMetadata.
Proof. solve_decision. Defined.

Definition encodeJSON (m : ObjectMetadata) : result string :=
  if decide (m = demo.fileMetadata) then Ok fileJSON
  else if decide (m = demo.zeroMetadata) then Ok "{}"%string
  else Err (Errorf "json: unsupported value").

Definition decodeJSON (s : string) : result ObjectMetadata :=
  if String.eqb s fileJSON then Ok demo.fileMetadata else demo.decodeJSON s.

Definition encoder : Encoder := mkEncoder encodeJSON.

Definition runtime : Runtime :=
  mkRuntime map_to_list (fun h => Permutation_refl (map_to_list h))
            demo.hostOf decodeJSON demo.decodeXML.

Definition bytesOf (body : option Reader) : string :=
  match body with
  | Some (BytesReader b) => b
  | Some (StreamReader b) => b
  | None => EmptyString
  end.

(** An object store: what was PUT under a name is what a GET of that name
    returns, a DELETE forgets it, and an unknown name is answered 404. *)
Definition store (method name : string) (body : option Reader) (w : gmap string string)
  : result Response * gmap string string :=
  if String.eqb method "PUT" then (Ok (demo.response 200 EmptyString), <[name := bytesOf body]> w)
  else if String.eqb method "DELETE" then (Ok (demo.response 204 EmptyString), delete name w)
  else if String.eqb method "GET" then
    match w !! name with
    | Some b => (Ok (demo.response 200 b), w)
    | None => (Ok (demo.response 404 "NoSuchKey"), w)
    end
  else if String.eqb method "HEAD" then
    match w !! name with
    | Some b => (Ok (demo.response 200 EmptyString), w)
    | None => (Ok (demo.response 404 EmptyString), w)
    end
  else (Ok (demo.response 405 EmptyString), w).

(** The world behind the interfaces, with that store as backend: requests
    through the S3 client name an object by their path, requests through
    the HTTP client by their URL. *)
Definition world : World (gmap string string) :=
  fun X c w =>
    match c in Call X return X * gmap string string with
    | HTTP_Do req => store (Method req) (URL req) (Body req) w
    | S3_ForwardRequest method path body _ _ => store method path body w
    | S3_HeadObject bucket key _ => store "HEAD" ("/" +:+ bucket +:+ "/" +:+ key) None w
    | Vault_Encrypt _ _ => ((EmptyString, Some (Errorf "vault client not configured")), w)
    | Vault_Decrypt _ _ => ((EmptyString, Some (Errorf "vault client not configured")), w)
    | Vault_ARNToVaultKey a => (vault.ARNToVaultKey a, w)
    | Metadata_Store _ _ _ _ => (None, w)
    | Metadata_Get bucket key _ => (Err (metadata.errNotFound bucket key), w)
    | Metadata_Exists _ _ _ => (false, w)
    end.

(** A backend that cannot be reached. *)
Definition unreachable : World unit :=
  fun X c w =>
    match c in Call X return X * unit with
    | HTTP_Do _ => (Err (Errorf "connection refused"), w)
    | S3_ForwardRequest _ _ _ _ _ => (Err (Errorf "connection refused"), w)
    | S3_HeadObject _ _ _ => (Err (Errorf "connection refused"), w)
    | Vault_Encrypt _ _ => ((EmptyString, Some (Errorf "vault client not configured")), w)
    | Vault_Decrypt _ _ => ((EmptyString, Some (Errorf "vault client not configured")), w)
    | Vault_ARNToVaultKey a => (vault.ARNToVaultKey a, w)
    | Metadata_Store _ _ _ _ => (Some (Errorf "connection refused"), w)
    | Metadata_Get _ _ _ => (Err (Errorf "connection refused"), w)
    | Metadata_Exists _ _ _ => (false, w)
    end.

(** A PUT whose key header names an S3 bucket, not a KMS key. *)
Definition badArnCtx : handlers.Ctx :=
  handlers.mkCtx "bucket1" "file.txt"
    [ ("Host", "s3.example.com");
      ("x-amz-server-side-encryption-aws-kms-key-id", "arn:aws:s3:::bucket1") ]%string
    "0123456789" EmptyString
    (handlers.mkFiberResponse 200 ∅ handlers.NoBody).


(** Inbound headers of an HTTP/1.0 client: no host. *)
Definition hostlessHeaders : Header :=
  <["Accept"%string := ["*/*"%string]]> ∅.

(** A backend answer with a repeated header. *)
Definition taggedResponse : Response :=
  mkResponse 200 (<["Etag"%string := ["first"%string; "last"%string]]> ∅)
             (mkBody "body" None).


(** Inbound headers with a repeated header, a repeated hop-by-hop header
    and one written in lower case. *)
Definition repeatedHeaders : Header :=
  <["Accept"%string := ["application/xml"%string; "text/plain"%string]]>
  (<["Connection"%string := ["keep-alive"%string; "close"%string]]>
  (<["x-amz-meta-tag"%string := ["a"%string; "b"%string]]> ∅)).

(** Inbound headers naming one header twice, in two spellings. *)
Definition spellingClash : Header :=
  <["x-a"%string := ["1"%string; "2"%string]]>
  (<["X-A"%string := ["3"%string]]> ∅).

(** [Keep-Alive] written with U+212A KELVIN SIGN (bytes E2 84 AA) for its
    first letter. *)
Definition kelvinKeepAlive : string :=
  String "226" (String "132" (String "170" "eep-Alive")).

End samples.

(* ===================================================================== *)
(** ** A host and a transit engine *)
(* ===================================================================== *)

Module vaultsamples.

Import vaultclient.

(** White space of ASCII. *)
Definition isSpace (c : ascii) : bool :=
  existsb (Ascii.eqb c) ["009"; "010"; "011"; "012"; "013"; " "]%char.

Fixpoint trimLeft (s : string) : string :=
  match s with
  | EmptyString => EmptyString
  | String c s' => if isSpace c then trimLeft s' else s
  end.

Definition trimSpace (s : string) : string :=
  String.rev (trimLeft (String.rev (trimLeft s))).

(** The standard base64 alphabet. *)
Definition alphabet : string :=
  "ABCDEFGHIJKLMNOPQRSTUVWXYZabcdefghijklmnopqrstuvwxyz0123456789+/".

Definition digit (i : N) : ascii :=
  match String.get (N.to_nat i) alphabet with
  | Some c => c
  | None => "="%char
  end.

Definition index (c : ascii) : option N :=
  match String.index 0 (String c EmptyString) alphabet with
  | Some i => Some (N.of_nat i)
  | None => None
  end.

Fixpoint encode (s : string) : string :=
  match s with
  | EmptyString => EmptyString
  | String a EmptyString =>
      let n := (N_of_ascii a * 65536)%N in
      String (digit (n / 262144)%N) (String (digit ((n / 4096) mod 64)%N) "==")
  | String a (String b EmptyString) =>
      let n := (N_of_ascii a * 65536 + N_of_ascii b * 256)%N in
      String (digit (n / 262144)%N) (String (digit ((n / 4096) mod 64)%N)
        (String (digit ((n / 64) mod 64)%N) "="))
  | String a (String b (String c rest)) =>
      let n := (N_of_ascii a * 65536 + N_of_ascii b * 256 + N_of_ascii c)%N in
      String (digit (n / 262144)%N) (String (digit ((n / 4096) mod 64)%N)
        (String (digit ((n / 64) mod 64)%N) (String (digit (n mod 64)%N) (encode rest))))
  end.

Definition corrupt : error := Errorf "illegal base64 data".

Fixpoint decode (s : string) : result string :=
  match s with
  | EmptyString => Ok EmptyString
  | String a (String b (String c (String d rest))) =>
      match index a, index b with
      | Some i, Some j =>
          if Ascii.eqb c "=" then
            if Ascii.eqb d "=" && String.eqb rest "" then
              Ok (String (ascii_of_N ((i * 64 + j) / 16)%N) EmptyString)
            else Err corrupt
          else
            match index c with
            | None => Err corrupt
            | Some k =>
                if Ascii.eqb d "=" then
                  if String.eqb rest "" then
                    let n := ((i * 64 + j) * 64 + k)%N in
                    Ok (String (ascii_of_N (n / 1024)%N)
                          (String (ascii_of_N ((n / 4) mod 256)%N) EmptyString))
                  else Err corrupt
                else
                  match index d with
                  | None => Err corrupt
                  | Some l =>
                      let n := (((i * 64 + j) * 64 + k) * 64 + l)%N in
                      match decode rest with
                      | Err e => Err e
                      | Ok tail =>
                          Ok (String (ascii_of_N (n / 65536)%N)
                                (String (ascii_of_N ((n / 256) mod 256)%N)
                                   (String (ascii_of_N (n mod 256)%N) tail)))
                      end
                  end
            end
      | _, _ => Err corrupt
      end
  | _ => Err corrupt
  end.

Definition library : Library := mkLibrary trimSpace encode decode.

(** A host: what the successive reads of the token file will return, and
    the value of [VAULT_TOKEN]. *)
Record Host : Type := mkHost {
  reads : list (result string);
  vaultTokenEnv : string
}.

Definition noSuchFile : error := Errorf "open: no such file or directory".

(** A transit engine whose ciphertext is the plaintext behind a version
    prefix. *)
Definition transit (path : string) (data : gmap string value) : result (option Secret) :=
  if gostrings.HasPrefix path "transit/encrypt/" then
    match data !! "plaintext"%string with
    | Some (VString p) =>
        Ok (Some (mkSecret (Some {[ "ciphertext"%string := VString ("vault:v1:" +:+ p) ]})))
    | _ => Err (Errorf "missing plaintext")
    end
  else if gostrings.HasPrefix path "transit/decrypt/" then
    match data !! "ciphertext"%string with
    | Some (VString ct) =>
        if gostrings.HasPrefix ct "vault:v1:" then
          Ok (Some (mkSecret (Some {[ "plaintext"%string :=
                                        VString (substring 9 (String.length ct - 9) ct) ]})))
        else Err (Errorf "invalid ciphertext")
    | _ => Err (Errorf "missing ciphertext")
    end
  else Err (Errorf "unsupported path").

Definition machine : Machine Host :=
  fun X op v =>
    match op in Op X return X * Host with
    | Api_NewClient address =>
        (Ok (mkApiClient (default "https://127.0.0.1:8200"%string address) EmptyString), v)
    | ReadFile _ =>
        match reads v with
        | r :: rest => (r, mkHost rest (vaultTokenEnv v))
        | [] => (Err noSuchFile, v)
        end
    | Getenv key =>
        (if String.eqb key "VAULT_TOKEN" then vaultTokenEnv v else EmptyString, v)
    | Logical_Write _ path data => (transit path data, v)
    | Sys_Health api =>
        (if String.eqb (Token api) "" then Some (Errorf "permission denied") else None, v)
    | Go_watchTokenFile => (tt, v)
    end.

Definition apiClient : ApiClient := mkApiClient "https://vault.internal:8200" "s.initial".

Definition configured : Client := mkClient (Some apiClient) "/vault/secrets/token" true.

Definition unconfigured : Client := mkClient None EmptyString false.

End vaultsamples.

(* ===================================================================== *)
(** * Facts *)
(* ===================================================================== *)

(** ** Strings *)

(** Let [simpl] compute the concatenation of a literal prefix. *)
#[local] Arguments String.append !s1 s2 : simpl nomatch.

Section StringFacts.

Import gostrings.

Lemma string_app_nil_r (s : string) : s +:+ "" = s.
Proof. induction s as [|c s IH]; cbn; [reflexivity | f_equal; exact IH]. Qed.

Lemma string_app_assoc (a b c : string) : (a +:+ b) +:+ c = a +:+ (b +:+ c).
Proof. induction a as [|x a IH]; cbn; [reflexivity | f_equal; exact IH]. Qed.

Lemma free_of_app (c : ascii) (a b : string) :
  free_of c (a +:+ b) = free_of c a && free_of c b.
Proof.
  induction a as [|x a IH]; simpl; [reflexivity |].
  rewrite IH. now rewrite andb_assoc.
Qed.

Lemma HasPrefix_app (p rest : string) : HasPrefix (p +:+ rest) p = true.
Proof.
  induction p as [|x p IH]; simpl; [reflexivity |].
  now rewrite Ascii.eqb_refl.
Qed.

Lemma HasPrefix_inv (s p : string) :
  HasPrefix s p = true -> exists rest, s = p +:+ rest.
Proof.
  revert s; induction p as [|x p IH]; intros s Hp.
  - exists s; reflexivity.
  - destruct s as [|c s]; simpl in Hp; [discriminate |].
    apply andb_prop in Hp as [Hc Hs]. apply Ascii.eqb_eq in Hc; subst c.
    destruct (IH _ Hs) as [rest ->]. exists rest; reflexivity.
Qed.

Lemma Split_not_nil (s : string) (sep : ascii) : Split s sep <> [].
Proof.
  destruct s as [|c s]; simpl; [discriminate |].
  destruct (Ascii.eqb c sep); [discriminate |].
  destruct (Split s sep); discriminate.
Qed.

(** A string without the separator is its own single part. *)
Lemma Split_free (s : string) (sep : ascii) :
  free_of sep s = true -> Split s sep = [s].
Proof.
  induction s as [|c s IH]; simpl; intros Hf; [reflexivity |].
  apply andb_prop in Hf as [Hc Hs].
  apply negb_true_iff in Hc. rewrite Hc, (IH Hs). reflexivity.
Qed.

(** The first part ends at the first separator. *)
Lemma Split_app (p rest : string) (sep : ascii) :
  free_of sep p = true ->
  Split (p +:+ String sep rest) sep = p :: Split rest sep.
Proof.
  induction p as [|c p IH]; simpl; intros Hf.
  - now rewrite Ascii.eqb_refl.
  - apply andb_prop in Hf as [Hc Hp].
    apply negb_true_iff in Hc. rewrite Hc, (IH Hp). reflexivity.
Qed.

(** Conversely, the parts of [Split] tell how the string was made. *)
Lemma Split_inv (s : string) (sep : ascii) (p : string) (ps : list string) :
  Split s sep = p :: ps ->
  free_of sep p = true /\
  ((ps = [] /\ s = p) \/
   (exists rest, ps = Split rest sep /\ s = p +:+ String sep rest)).
Proof.
  revert p ps; induction s as [|c s IH]; simpl; intros p ps Hs.
  - injection Hs as <- <-. split; [reflexivity | left; split; reflexivity].
  - destruct (Ascii.eqb c sep) eqn:Hc.
    + apply Ascii.eqb_eq in Hc; subst c. injection Hs as <- <-.
      split; [reflexivity |]. right. exists s. split; reflexivity.
    + destruct (Split s sep) as [|q qs] eqn:Hq.
      * exfalso. eapply Split_not_nil; eassumption.
      * injection Hs as <- <-.
        destruct (IH q qs eq_refl) as [Hfq Hcases].
        split; [simpl; now rewrite Hc, Hfq |].
        destruct Hcases as [[-> ->] | (rest & -> & ->)].
        -- left; split; reflexivity.
        -- right. exists rest. split; reflexivity.
Qed.

Lemma eqb_empty_false (s : string) : s <> EmptyString -> String.eqb s "" = false.
Proof. intros Hs. destruct s; [congruence | reflexivity]. Qed.

(** [substring] cuts a string in two. *)
Lemma substring_split (n : nat) (s : string) :
  (n <= String.length s)%nat ->
  s = substring 0 n s +:+ substring n (String.length s - n) s.
Proof.
  revert n; induction s as [|c s IH]; intros [|n] Hn; simpl in *; try lia.
  - reflexivity.
  - f_equal. clear IH Hn. induction s as [|d s IHs]; simpl; [reflexivity | now f_equal].
  - f_equal. apply IH. lia.
Qed.

Lemma substring_app_r (p s : string) :
  substring (String.length p) (String.length s) (p +:+ s) = s.
Proof.
  induction p as [|c p IH]; simpl; [| assumption].
  induction s as [|d s IHs]; simpl; [reflexivity | now f_equal].
Qed.

Lemma string_length_app (p s : string) :
  String.length (p +:+ s) = (String.length p + String.length s)%nat.
Proof. induction p as [|c p IH]; simpl; [reflexivity | now rewrite IH]. Qed.

(** [HasSuffix] says that the string ends with the suffix. *)
Lemma HasSuffix_iff (s suffix : string) :
  HasSuffix s suffix = true <-> exists p, s = p +:+ suffix.
Proof.
  unfold HasSuffix. split.
  - intros H. apply andb_prop in H as [Hlen Heq].
    apply Nat.leb_le in Hlen. apply String.eqb_eq in Heq.
    exists (substring 0 (String.length s - String.length suffix) s).
    pose proof (substring_split (String.length s - String.length suffix) s) as Hsplit.
    replace (String.length s - (String.length s - String.length suffix))%nat
      with (String.length suffix) in Hsplit by lia.
    rewrite Heq in Hsplit. apply Hsplit. lia.
  - intros [p ->]. rewrite string_length_app.
    replace (String.length p + String.length suffix - String.length suffix)%nat
      with (String.length p) by lia.
    rewrite substring_app_r, String.eqb_refl, andb_true_r.
    apply Nat.leb_le. lia.
Qed.

Lemma Replace1_unfold (s old new : string) :
  Replace1 s old new =
  if HasPrefix s old then
    new +:+ substring (String.length old) (String.length s - String.length old) s
  else
    match s with
    | EmptyString => EmptyString
    | String c s' => String c (Replace1 s' old new)
    end.
Proof. destruct s; reflexivity. Qed.

(** Replacing a prefix. *)
Lemma Replace1_prefix (old rest new : string) :
  Replace1 (old +:+ rest) old new = new +:+ rest.
Proof.
  rewrite Replace1_unfold, HasPrefix_app, string_length_app.
  replace (String.length old + String.length rest - String.length old)%nat
    with (String.length rest) by lia.
  now rewrite substring_app_r.
Qed.

End StringFacts.

(** ** The library functions on small inputs *)

Section LibraryExamples.

Import gostrings.

Example EqualFold_host : EqualFold "HoSt" "host" = true.
Proof. reflexivity. Qed.

Example EqualFold_kelvin :
  EqualFold (String "226" (String "132" (String "170" "eep-Alive"))) "Keep-Alive" = true.
Proof. reflexivity. Qed.

Example EqualFold_longer : EqualFold "Hosts" "host" = false.
Proof. reflexivity. Qed.

Example Split_empty : Split EmptyString ":" = [EmptyString].
Proof. reflexivity. Qed.

Example Split_arn :
  Split "arn:aws:kms:us-east-1::key/" ":" =
  ["arn"; "aws"; "kms"; "us-east-1"; EmptyString; "key/"]%string.
Proof. reflexivity. Qed.

Example ParseInt_examples :
  ParseInt "10" = Some 10 /\ ParseInt "+7" = Some 7 /\ ParseInt "-0" = Some 0 /\
  ParseInt EmptyString = None /\ ParseInt "-" = None /\ ParseInt "1_0" = None /\
  ParseInt "9223372036854775807" = Some 9223372036854775807 /\
  ParseInt "9223372036854775808" = None /\
  ParseInt "-9223372036854775808" = Some (-9223372036854775808).
Proof. repeat split; reflexivity. Qed.

Example CanonicalMIMEHeaderKey_examples :
  http.CanonicalMIMEHeaderKey "x-amz-date" = "X-Amz-Date"%string /\
  http.CanonicalMIMEHeaderKey "CONTENT-length" = "Content-Length"%string /\
  http.CanonicalMIMEHeaderKey "x forwarded" = "x forwarded"%string.
Proof. repeat split; reflexivity. Qed.

Example isHopByHopHeader_examples :
  s3.isHopByHopHeader "keep-alive" = true /\
  s3.isHopByHopHeader "CF-RAY" = true /\
  s3.isHopByHopHeader "X-Forwarded-Proto" = false /\
  s3.isHopByHopHeader "X-Forwarded-Server" = false /\
  s3.isHopByHopHeader "Authorization" = false.
Proof. repeat split; reflexivity. Qed.

End LibraryExamples.

(** ** Case folding *)

Section FoldFacts.

Import gostrings reference.

Lemma byteVal_range (c : ascii) : 0 <= byteVal c < 256.
Proof. unfold byteVal. pose proof (nat_ascii_bounded c). lia. Qed.

Lemma byteVal_inj (c d : ascii) : byteVal c = byteVal d -> c = d.
Proof.
  unfold byteVal; intros Heq. apply Nat2Z.inj in Heq.
  rewrite <- (ascii_nat_embedding c), <- (ascii_nat_embedding d). now rewrite Heq.
Qed.

Lemma byteVal_lowerByte (c : ascii) :
  byteVal (lowerByte c) = if isUpper c then byteVal c + 32 else byteVal c.
Proof.
  unfold lowerByte. destruct (isUpper c) eqn:Hup; [| reflexivity].
  unfold isUpper in Hup. apply andb_prop in Hup as [Hlo Hhi].
  apply Z.leb_le in Hlo, Hhi. pose proof (byteVal_range c).
  unfold byteVal in *. rewrite nat_ascii_embedding by lia. lia.
Qed.

(** Two bytes with the same lower-case form, one of them ASCII, are both
    ASCII and pass the ASCII step of [EqualFold]. *)
Lemma foldEqASCII_lower (c d : ascii) :
  lowerByte c = lowerByte d -> byteVal d < RuneSelf ->
  byteVal c < RuneSelf /\ foldEqASCII c d = true.
Proof.
  intros Hlow Hd. apply (f_equal byteVal) in Hlow.
  rewrite !byteVal_lowerByte in Hlow.
  unfold foldEqASCII, RuneSelf in *.
  destruct (Ascii.eqb c d) eqn:Hcd.
  - apply Ascii.eqb_eq in Hcd; subst d. split; [assumption | reflexivity].
  - assert (byteVal c <> byteVal d) as Hne.
    { intros Heq. apply byteVal_inj in Heq. apply Ascii.eqb_neq in Hcd. contradiction. }
    unfold isUpper in *.
    destruct ((65 <=? byteVal c) && (byteVal c <=? 90)) eqn:Huc;
    destruct ((65 <=? byteVal d) && (byteVal d <=? 90)) eqn:Hud;
      try (apply andb_prop in Huc as [Hc1 Hc2]; apply Z.leb_le in Hc1, Hc2);
      try (apply andb_prop in Hud as [Hd1 Hd2]; apply Z.leb_le in Hd1, Hd2);
      try lia.
    + split; [lia |]. simpl.
      destruct (byteVal d <? byteVal c) eqn:Hlt; [apply Z.ltb_lt in Hlt; lia |].
      rewrite (proj2 (Z.leb_le _ _) Hc1), (proj2 (Z.leb_le _ _) Hc2). simpl.
      apply Z.eqb_eq. lia.
    + split; [lia |]. simpl.
      destruct (byteVal d <? byteVal c) eqn:Hlt; [| apply Z.ltb_ge in Hlt; lia].
      rewrite (proj2 (Z.leb_le _ _) Hd1), (proj2 (Z.leb_le _ _) Hd2). simpl.
      apply Z.eqb_eq. lia.
Qed.

Lemma EqualFold_cons_ascii (sr tr : ascii) (s' t' : string) :
  byteVal sr < RuneSelf ->
  EqualFold (String sr s') (String tr t') = foldEqASCII sr tr && EqualFold s' t'.
Proof.
  intros Hsr. apply Z.ltb_lt in Hsr. cbn [EqualFold]. now rewrite Hsr.
Qed.

(** A name that differs from an ASCII name only in letter case is equal to
    it for [EqualFold]. *)
Lemma EqualFold_sameNameAnyCase (s t : string) :
  sameNameAnyCase s t -> isASCII t = true -> EqualFold s t = true.
Proof.
  unfold sameNameAnyCase.
  revert t; induction s as [|c s IH]; intros [|d t] Hlow Hascii;
    try discriminate; [reflexivity |].
  simpl in Hlow, Hascii. injection Hlow as Hc Hs.
  apply andb_prop in Hascii as [Hd Ht]. apply Z.ltb_lt in Hd.
  destruct (foldEqASCII_lower c d Hc Hd) as [Hcl Hfold].
  rewrite EqualFold_cons_ascii by assumption.
  rewrite Hfold, (IH t Hs Ht). reflexivity.
Qed.

End FoldFacts.

(** ** The key gateway *)

Section VaultFacts.

Import gostrings reference.

Lemma Split_arn_prefix (rest : string) :
  Split ("arn:aws:kms:" +:+ rest) ":" = "arn" :: "aws" :: "kms" :: Split rest ":".
Proof.
  change ("arn:aws:kms:" +:+ rest)
    with ("arn" +:+ String ":" ("aws" +:+ String ":" ("kms" +:+ String ":" rest))).
  rewrite !Split_app by reflexivity. reflexivity.
Qed.

Lemma Split_kmsARN (R A U : string) :
  wellFormed R A U ->
  Split (kmsARN R A U) ":" = ["arn"; "aws"; "kms"; R; A; "key/" +:+ U].
Proof.
  intros (_ & _ & _ & HR & HA & HU & _). unfold kmsARN.
  rewrite Split_arn_prefix.
  change (R +:+ ":" +:+ A +:+ ":key/" +:+ U)
    with (R +:+ String ":" (A +:+ String ":" ("key/" +:+ U))).
  rewrite !Split_app by assumption.
  rewrite Split_free; [reflexivity |].
  rewrite free_of_app, HU. reflexivity.
Qed.

Lemma Split_keyPart (U : string) :
  free_of "/" U = true -> Split ("key/" +:+ U) "/" = ["key"; U].
Proof.
  intros HU. change ("key/" +:+ U) with ("key" +:+ String "/" U).
  rewrite Split_app by reflexivity. now rewrite Split_free.
Qed.

(** On a well-formed ARN the code returns the joined name and no error. *)
Lemma ARNToVaultKey_valid (R A U : string) :
  wellFormed R A U ->
  vault.ARNToVaultKey (kmsARN R A U) = (transitKeyName R A U, None).
Proof.
  intros Hwf. pose proof Hwf as (HR & HA & HU & _ & _ & _ & HUs).
  unfold vault.ARNToVaultKey.
  rewrite (Split_kmsARN _ _ _ Hwf). cbn [length nth Nat.eqb negb].
  rewrite (Split_keyPart _ HUs). cbn [length nth Nat.eqb negb].
  rewrite (eqb_empty_false R), (eqb_empty_false A), (eqb_empty_false U) by assumption.
  unfold kmsARN. simpl. reflexivity.
Qed.

(** Whatever the input, the code either fails with the empty string or the
    input was a well-formed ARN and the result is its joined name. *)
Lemma ARNToVaultKey_cases (arn : string) :
  (exists msg, vault.ARNToVaultKey arn = (EmptyString, Some (Errorf msg))) \/
  (exists R A U, wellFormed R A U /\ arn = kmsARN R A U /\
                 vault.ARNToVaultKey arn = (transitKeyName R A U, None)).
Proof.
  unfold vault.ARNToVaultKey.
  destruct (String.eqb arn "") eqn:Hempty; [left; eauto |].
  destruct (HasPrefix arn "arn:aws:kms:") eqn:Hpre; simpl; [| left; eauto].
  apply HasPrefix_inv in Hpre as [rest ->].
  rewrite Split_arn_prefix.
  destruct (Split rest ":") as [|region [|account [|keyPart [|x xs]]]] eqn:Hsplit;
    cbn [length nth Nat.eqb negb]; try (left; eauto; fail).
  apply Split_inv in Hsplit as [HfR [[Hnil _] | (rest1 & Hs1 & ->)]]; [discriminate |].
  symmetry in Hs1.
  apply Split_inv in Hs1 as [HfA [[Hnil _] | (rest2 & Hs2 & ->)]]; [discriminate |].
  symmetry in Hs2.
  apply Split_inv in Hs2 as [HfK [[_ ->] | (rest3 & Hs3 & _)]];
    [| symmetry in Hs3; now apply Split_not_nil in Hs3].
  destruct (Split keyPart "/") as [|k0 [|U [|y ys]]] eqn:Hkey;
    cbn [length nth Nat.eqb negb orb]; try (left; eauto; fail).
  destruct (String.eqb k0 "key") eqn:Hk0; cbn [negb]; [| left; eauto].
  apply String.eqb_eq in Hk0; subst k0.
  apply Split_inv in Hkey as [_ [[Hnil _] | (rest4 & Hs4 & ->)]]; [discriminate |].
  symmetry in Hs4.
  apply Split_inv in Hs4 as [HfU [[_ ->] | (rest5 & Hs5 & _)]];
    [| symmetry in Hs5; now apply Split_not_nil in Hs5].
  destruct (String.eqb region "") eqn:HR; cbn [orb]; [left; eauto |].
  destruct (String.eqb account "") eqn:HA; cbn [orb]; [left; eauto |].
  destruct (String.eqb U "") eqn:HU; cbn [orb]; [left; eauto |].
  right. exists region, account, U.
  apply eqb_neq in HR, HA, HU.
  rewrite free_of_app in HfK. apply andb_prop in HfK as [_ HfU'].
  simpl in HfU'.
  repeat split; try assumption.
Qed.

(** C2.  [ARNToVaultKey] is the reference mapping: on every input of the
    form [arn:aws:kms:R:A:key/U] (six parts between colons, the last one
    [key/U] with no further slash, and [R], [A], [U] non-empty) it returns
    exactly [R_A_U] and no error; on every other input it returns an error
    together with the empty string, never a partial result.  Being a
    function of its argument alone, it yields the same output for the same
    input. *)
Theorem ARNToVaultKey_reference (arn : string) :
  (forall R A U, wellFormed R A U -> arn = kmsARN R A U ->
     vault.ARNToVaultKey arn = (transitKeyName R A U, None)) /\
  ((~ exists R A U, wellFormed R A U /\ arn = kmsARN R A U) ->
     exists msg, vault.ARNToVaultKey arn = (EmptyString, Some (Errorf msg))).
Proof.
  split.
  - intros R A U Hwf ->. now apply ARNToVaultKey_valid.
  - intros Hnot. destruct (ARNToVaultKey_cases arn) as [Herr | (R & A & U & Hwf & Harn & _)].
    + exact Herr.
    + exfalso. apply Hnot. exists R, A, U. split; assumption.
Qed.

End VaultFacts.

(** ** The forwarding core *)

Section S3Facts.

Import gostrings http s3 reference.

Context `{RT : Runtime}.

(** *** What a [range] over a header map visits *)

Lemma rangeOrder_elem (h : Header) (k : string) (vs : list string) :
  (k, vs) ∈ rangeOrder h <-> h !! k = Some vs.
Proof. rewrite (rangeOrder_perm h). apply elem_of_map_to_list. Qed.

Lemma rangeOrder_NoDup (h : Header) : NoDup (rangeOrder h).*1.
Proof. rewrite (rangeOrder_perm h). apply NoDup_fst_map_to_list. Qed.

(** *** The loop of [copyHeaders] *)

Lemma copyStep_outHeader_other (st : copyState) (kv : string * list string) (k : string) :
  k <> kv.1 \/ kv.2 = [] \/ isHopByHopHeader kv.1 = true ->
  outHeader (copyStep st kv) !! k = outHeader st !! k.
Proof.
  destruct kv as [k' vs]; simpl. unfold copyStep; simpl.
  destruct vs as [|v vs]; [reflexivity |].
  intros [Hne | [Hnil | Hhop]].
  - destruct (isHopByHopHeader k'); simpl; [reflexivity |].
    now rewrite lookup_insert_ne by congruence.
  - discriminate.
  - now rewrite Hhop.
Qed.

(** A name the loop never assigns keeps what the request had under it. *)
Lemma copyLoop_untouched (l : list (string * list string)) (st : copyState) (k : string) :
  (forall v vs, (k, v :: vs) ∈ l -> isHopByHopHeader k = true) ->
  outHeader (foldl copyStep st l) !! k = outHeader st !! k.
Proof.
  revert st; induction l as [|kv l IH]; intros st Hk; simpl; [reflexivity |].
  rewrite IH by (intros v vs Hin; apply (Hk v vs); now right).
  apply copyStep_outHeader_other.
  destruct kv as [k' [|v vs]]; simpl; [right; left; reflexivity |].
  destruct (decide (k = k')) as [<- | Hne]; [| now left].
  right; right. apply (Hk v vs). now left.
Qed.

(** A header that is not hop-by-hop is assigned under its own name with its
    first value. *)
Lemma copyLoop_assigned (l : list (string * list string)) (st : copyState)
    (k v : string) (vs : list string) :
  NoDup l.*1 -> (k, v :: vs) ∈ l -> isHopByHopHeader k = false ->
  outHeader (foldl copyStep st l) !! k = Some [v].
Proof.
  revert st; induction l as [|kv l IH]; intros st Hnd Hin Hhop; simpl.
  - now apply elem_of_nil in Hin.
  - apply NoDup_cons in Hnd as [Hfresh Hnd].
    apply elem_of_cons in Hin as [<- | Hin].
    + rewrite copyLoop_untouched.
      * unfold copyStep; simpl. rewrite Hhop; simpl. apply lookup_insert_eq.
      * intros v' vs' Hin'. exfalso. apply Hfresh.
        apply list_elem_of_fmap. exists (k, v' :: vs'). split; [reflexivity | assumption].
    + now apply IH.
Qed.

(** Every name in the header map after the loop was there before or is an
    inbound name that is not hop-by-hop; and each assigned list has one
    value. *)
Lemma copyLoop_origin (l : list (string * list string)) (st : copyState)
    (k : string) (vs : list string) :
  outHeader (foldl copyStep st l) !! k = Some vs ->
  outHeader st !! k = Some vs \/
  (isHopByHopHeader k = false /\ exists v vs', (k, v :: vs') ∈ l /\ vs = [v]).
Proof.
  revert st; induction l as [|kv l IH]; intros st Hk; simpl in *; [now left |].
  apply IH in Hk as [Hk | (Hhop & v & vs' & Hin & ->)].
  - destruct kv as [k' [|v' vs'']]; [now left |].
    unfold copyStep in Hk; simpl in Hk.
    destruct (isHopByHopHeader k') eqn:Hhop; simpl in Hk; [now left |].
    destruct (decide (k' = k)) as [-> | Hne].
    + rewrite lookup_insert_eq in Hk. injection Hk as <-.
      right. split; [assumption |]. exists v', vs''. split; [now left | reflexivity].
    + rewrite lookup_insert_ne in Hk by assumption. now left.
  - right. split; [assumption |]. exists v, vs'. split; [now right | reflexivity].
Qed.

(** The captured host when every header named host (in any case) carries
    the same first value [h]. *)
Lemma copyLoop_host (l : list (string * list string)) (st : copyState) (h : string) :
  (forall k v vs, (k, v :: vs) ∈ l -> EqualFold k "host" = true -> v = h) ->
  (originalHost st = h \/ exists k vs, (k, h :: vs) ∈ l /\ EqualFold k "host" = true) ->
  originalHost (foldl copyStep st l) = h.
Proof.
  revert st; induction l as [|kv l IH]; intros st Hall Hex; simpl.
  - destruct Hex as [Hst | (k & vs & Hin & _)]; [assumption | now apply elem_of_nil in Hin].
  - apply IH.
    + intros k v vs Hin. apply (Hall k v vs). now right.
    + destruct kv as [k' [|v' vs']].
      * destruct Hex as [Hst | (k & vs & Hin & Hk)]; [now left |].
        apply elem_of_cons in Hin as [Heq | Hin]; [discriminate |].
        right. now exists k, vs.
      * unfold copyStep; simpl.
        destruct (EqualFold k' "host") eqn:Hfold.
        -- left. assert (v' = h) as -> by (apply (Hall k' v' vs'); [now left | assumption]).
           now destruct (isHopByHopHeader k').
        -- destruct Hex as [Hst | (k & vs & Hin & Hk)].
           ++ left. now destruct (isHopByHopHeader k').
           ++ apply elem_of_cons in Hin as [Heq | Hin].
              ** injection Heq as -> -> ->. congruence.
              ** right. now exists k, vs.
Qed.

(** Without any header named host, no host is captured. *)
Lemma copyLoop_no_host (l : list (string * list string)) (st : copyState) :
  (forall k v vs, (k, v :: vs) ∈ l -> EqualFold k "host" = false) ->
  originalHost (foldl copyStep st l) = originalHost st.
Proof.
  revert st; induction l as [|kv l IH]; intros st Hall; simpl; [reflexivity |].
  rewrite IH by (intros k v vs Hin; apply (Hall k v vs); now right).
  destruct kv as [k' [|v' vs']]; [reflexivity |].
  unfold copyStep; simpl.
  rewrite (Hall k' v' vs') by now left.
  now destruct (isHopByHopHeader k').
Qed.

Lemma isHopByHopHeader_Host : isHopByHopHeader "Host" = false.
Proof. reflexivity. Qed.

Lemma isHopByHopHeader_ContentLength : isHopByHopHeader "Content-Length" = false.
Proof. reflexivity. Qed.


(** *** [copyHeaders] *)

Lemma copyHeaders_Header_other (req : Request) (headers : Header) (k : string) :
  k <> "Host"%string ->
  Header_ (copyHeaders req headers) !! k =
  outHeader (foldl copyStep (mkCopyState "" 0 (Header_ req)) (rangeOrder headers)) !! k.
Proof.
  intros Hk. unfold copyHeaders.
  destruct (String.eqb _ ""); simpl; [reflexivity |].
  now rewrite lookup_insert_ne by congruence.
Qed.

Lemma copyHeaders_URL (req : Request) (headers : Header) :
  URL (copyHeaders req headers) = URL req.
Proof. unfold copyHeaders. now destruct (String.eqb _ ""). Qed.

(** What the loop of [copyHeaders] assigns under the name of an inbound
    header that is not hop-by-hop. *)
Lemma copyHeaders_loop_assigned (req : Request) (headers : Header)
    (k v : string) (vs : list string) :
  headers !! k = Some (v :: vs) ->
  isHopByHopHeader k = false ->
  outHeader (foldl copyStep (mkCopyState "" 0 (Header_ req)) (rangeOrder headers)) !! k
  = Some [v].
Proof.
  intros Hk Hhop.
  apply (copyLoop_assigned _ _ k v vs); [apply rangeOrder_NoDup | | assumption].
  now apply rangeOrder_elem.
Qed.

(** Under any name but [Host], that is what [copyHeaders] leaves. *)
Lemma copyHeaders_assigned_other (req : Request) (headers : Header)
    (k v : string) (vs : list string) :
  headers !! k = Some (v :: vs) ->
  isHopByHopHeader k = false ->
  k <> "Host"%string ->
  Header_ (copyHeaders req headers) !! k = Some [v].
Proof.
  intros Hk Hhop Hne. rewrite copyHeaders_Header_other by assumption.
  now apply (copyHeaders_loop_assigned req headers k v vs).
Qed.

(** Under [Host] itself [copyHeaders] leaves the captured host. *)
Lemma copyHeaders_assigned_Host (req : Request) (headers : Header)
    (v : string) (vs : list string) :
  headers !! "Host"%string = Some (v :: vs) ->
  (forall k' v' vs', headers !! k' = Some (v' :: vs') ->
                     EqualFold k' "host" = true -> v' = v) ->
  Header_ (copyHeaders req headers) !! "Host"%string = Some [v].
Proof.
  intros Hk Hhost.
  pose proof (copyHeaders_loop_assigned req headers "Host" v vs Hk eq_refl) as Hloop.
  unfold copyHeaders.
  destruct (String.eqb _ "") eqn:Hempty; simpl; [assumption |].
  rewrite lookup_insert_eq. do 2 f_equal.
  apply copyLoop_host.
  - intros k' v' vs' Hin Hfold. apply rangeOrder_elem in Hin.
    now apply (Hhost k' v' vs').
  - right. exists "Host"%string, vs. split; [now apply rangeOrder_elem | reflexivity].
Qed.

(** C1 (as amended).  For every inbound header with a value whose name is
    not on the hop-by-hop list, the request that [copyHeaders] leaves holds
    a header under the very same name, byte for byte, with the first inbound
    value, provided that, when the name is literally [Host], no inbound
    header named host in another letter case carries a different first
    value (the captured host is written under [Host] last). *)
Theorem copyHeaders_preserves_name (req : Request) (headers : Header)
    (k v : string) (vs : list string) :
  headers !! k = Some (v :: vs) ->
  isHopByHopHeader k = false ->
  (k = "Host"%string ->
   forall k' v' vs', headers !! k' = Some (v' :: vs') ->
                     EqualFold k' "host" = true -> v' = v) ->
  Header_ (copyHeaders req headers) !! k = Some [v].
Proof.
  intros Hk Hhop Hhost.
  destruct (decide (k = "Host"%string)) as [-> | Hne].
  - apply (copyHeaders_assigned_Host req headers v vs Hk).
    now apply Hhost.
  - now apply (copyHeaders_assigned_other req headers k v vs).
Qed.

(** The host [copyHeaders] leaves on the request. *)
Lemma copyHeaders_host (req : Request) (headers : Header) (k h : string) (vs : list string) :
  headers !! k = Some (h :: vs) -> EqualFold k "host" = true -> h <> EmptyString ->
  (forall k' h' vs', headers !! k' = Some (h' :: vs') ->
                     EqualFold k' "host" = true -> h' = h) ->
  Host (copyHeaders req headers) = h /\
  Header_ (copyHeaders req headers) !! "Host"%string = Some [h].
Proof.
  intros Hk Hfold Hne Hall.
  assert (originalHost (foldl copyStep (mkCopyState "" 0 (Header_ req)) (rangeOrder headers))
          = h) as Hcap.
  { apply copyLoop_host.
    - intros k' h' vs' Hin Hf. apply rangeOrder_elem in Hin. now apply (Hall k' h' vs').
    - right. exists k, vs. split; [now apply rangeOrder_elem | assumption]. }
  unfold copyHeaders. rewrite Hcap.
  rewrite eqb_empty_false by assumption. simpl.
  split; [reflexivity | apply lookup_insert_eq].
Qed.

(** Without an inbound header named host, the request keeps the host of
    the endpoint's URL. *)
Lemma copyHeaders_keeps_endpoint_host (req : Request) (headers : Header) :
  (forall k v vs, headers !! k = Some (v :: vs) -> EqualFold k "host" = false) ->
  Host (copyHeaders req headers) = Host req.
Proof.
  intros Hnone. unfold copyHeaders.
  rewrite copyLoop_no_host.
  - reflexivity.
  - intros k v vs Hin. apply rangeOrder_elem in Hin. now apply (Hnone k v vs).
Qed.

(** Starting from the empty header map of a new request, every header
    [copyHeaders] leaves has exactly one value, and none is hop-by-hop. *)
Lemma copyHeaders_single_valued (req : Request) (headers : Header)
    (k : string) (vs : list string) :
  Header_ req = ∅ ->
  Header_ (copyHeaders req headers) !! k = Some vs ->
  isHopByHopHeader k = false /\ exists v, vs = [v].
Proof.
  intros Hempty Hk.
  destruct (decide (k = "Host"%string)) as [-> | Hne].
  - split; [reflexivity |].
    unfold copyHeaders in Hk. destruct (String.eqb _ "") eqn:Hoh; simpl in Hk.
    + apply copyLoop_origin in Hk as [Hk | (_ & v & vs' & _ & ->)]; [| eauto].
      simpl in Hk. rewrite Hempty in Hk. now rewrite lookup_empty in Hk.
    + rewrite lookup_insert_eq in Hk. injection Hk as <-. eauto.
  - rewrite copyHeaders_Header_other in Hk by assumption.
    apply copyLoop_origin in Hk as [Hk | (Hhop & v & vs' & _ & ->)]; [| eauto].
    simpl in Hk. rewrite Hempty in Hk. now rewrite lookup_empty in Hk.
Qed.

(** The first copy of [copyHeaders] writes with [Header.Set]: what it adds
    has one value too. *)
Lemma first_copyLoop_single (l : list (string * list string)) (st : copyState)
    (k : string) (vs : list string) :
  outHeader (foldl s3_first.copyStep st l) !! k = Some vs ->
  outHeader st !! k = Some vs \/ exists v, vs = [v].
Proof.
  revert st; induction l as [|kv l IH]; intros st Hk; simpl in *; [now left |].
  apply IH in Hk as [Hk | Hk]; [| now right].
  destruct kv as [k' [|v' vs'']]; [now left |].
  unfold s3_first.copyStep in Hk; simpl in Hk.
  destruct (s3_first.isHopByHopHeader k'); simpl in Hk; [now left |].
  unfold Set_ in Hk.
  destruct (decide (CanonicalMIMEHeaderKey k' = k)) as [<- | Hne].
  - rewrite lookup_insert_eq in Hk. injection Hk as <-. right; eauto.
  - rewrite lookup_insert_ne in Hk by assumption. now left.
Qed.

Lemma first_copyHeaders_single_valued (req : Request) (headers : Header)
    (k : string) (vs : list string) :
  Header_ req = ∅ ->
  Header_ (s3_first.copyHeaders req headers) !! k = Some vs ->
  exists v, vs = [v].
Proof.
  intros Hempty Hk. unfold s3_first.copyHeaders in Hk.
  destruct (String.eqb _ "") eqn:Hoh; simpl in Hk.
  - apply first_copyLoop_single in Hk as [Hk | Hk]; [| assumption].
    simpl in Hk. rewrite Hempty in Hk. now rewrite lookup_empty in Hk.
  - unfold Set_ in Hk.
    destruct (decide (CanonicalMIMEHeaderKey "Host" = k)) as [<- | Hne].
    + rewrite lookup_insert_eq in Hk. injection Hk as <-. eauto.
    + rewrite lookup_insert_ne in Hk by assumption.
      apply first_copyLoop_single in Hk as [Hk | Hk]; [| assumption].
      simpl in Hk. rewrite Hempty in Hk. now rewrite lookup_empty in Hk.
Qed.

Lemma first_copyLoop_origin (l : list (string * list string)) (st : copyState)
    (k : string) (vs : list string) :
  outHeader (foldl s3_first.copyStep st l) !! k = Some vs ->
  outHeader st !! k = Some vs \/
  exists k' v rest, (k', v :: rest) ∈ l /\ s3_first.isHopByHopHeader k' = false /\
                    k = CanonicalMIMEHeaderKey k' /\ vs = [v].
Proof.
  revert st; induction l as [|kv l IH]; intros st Hk; simpl in *; [now left |].
  apply IH in Hk as [Hk | (k' & v & rest & Hin & Hhop & -> & ->)].
  - destruct kv as [k' [|v' vs'']]; [now left |].
    unfold s3_first.copyStep in Hk; simpl in Hk.
    destruct (s3_first.isHopByHopHeader k') eqn:Hhop; simpl in Hk; [now left |].
    unfold Set_ in Hk.
    destruct (decide (CanonicalMIMEHeaderKey k' = k)) as [<- | Hne].
    + rewrite lookup_insert_eq in Hk. injection Hk as <-.
      right. exists k', v', vs''. split; [now left |]. now repeat split.
    + rewrite lookup_insert_ne in Hk by assumption. now left.
  - right. exists k', v, rest. split; [now right |]. now repeat split.
Qed.

Lemma first_copyLoop_host_origin (l : list (string * list string)) (st : copyState) :
  originalHost (foldl s3_first.copyStep st l) = originalHost st \/
  exists v vs, ("Host"%string, v :: vs) ∈ l /\
               originalHost (foldl s3_first.copyStep st l) = v.
Proof.
  revert st; induction l as [|kv l IH]; intros st; simpl; [now left |].
  destruct (IH (s3_first.copyStep st kv)) as [Heq | (v & vs & Hin & Heq)].
  - rewrite Heq. destruct kv as [k' [|v' vs']]; [now left |].
    unfold s3_first.copyStep; simpl.
    destruct (String.eqb k' "Host") eqn:Hk.
    + apply String.eqb_eq in Hk. subst k'.
      right. exists v', vs'. split; [now left |].
      now destruct (s3_first.isHopByHopHeader "Host").
    + left. now destruct (s3_first.isHopByHopHeader k').
  - right. exists v, vs. split; [now right | assumption].
Qed.

Lemma first_copyLoop_untouched (l : list (string * list string)) (st : copyState) (k : string) :
  (forall k' v vs, (k', v :: vs) ∈ l -> CanonicalMIMEHeaderKey k' <> k) ->
  outHeader (foldl s3_first.copyStep st l) !! k = outHeader st !! k.
Proof.
  revert st; induction l as [|kv l IH]; intros st Hk; simpl; [reflexivity |].
  rewrite IH by (intros k' v vs Hin; apply (Hk k' v vs); now right).
  destruct kv as [k' [|v vs]]; [reflexivity |].
  unfold s3_first.copyStep; simpl.
  destruct (s3_first.isHopByHopHeader k'); simpl; [reflexivity |].
  unfold Set_. rewrite lookup_insert_ne; [reflexivity |].
  apply (Hk k' v vs). now left.
Qed.

Lemma first_copyLoop_assigned (l : list (string * list string)) (st : copyState)
    (k v : string) (vs : list string) :
  NoDup l.*1 -> (k, v :: vs) ∈ l -> s3_first.isHopByHopHeader k = false ->
  (forall k' v' vs', (k', v' :: vs') ∈ l ->
                     CanonicalMIMEHeaderKey k' = CanonicalMIMEHeaderKey k -> k' = k) ->
  outHeader (foldl s3_first.copyStep st l) !! CanonicalMIMEHeaderKey k = Some [v].
Proof.
  revert st; induction l as [|kv l IH]; intros st Hnd Hin Hhop Huniq; simpl.
  - now apply elem_of_nil in Hin.
  - apply NoDup_cons in Hnd as [Hfresh Hnd].
    apply elem_of_cons in Hin as [<- | Hin].
    + rewrite first_copyLoop_untouched.
      * unfold s3_first.copyStep; simpl. rewrite Hhop; simpl. apply lookup_insert_eq.
      * intros k' v' vs' Hin' Hcanon. apply Hfresh.
        assert (k' = k) as -> by (apply (Huniq k' v' vs'); [now right | assumption]).
        apply list_elem_of_fmap. exists (k, v' :: vs'). split; [reflexivity | assumption].
    + apply IH; try assumption.
      intros k' v' vs' Hin'. apply (Huniq k' v' vs'). now right.
Qed.

Lemma first_copyLoop_skipped (l : list (string * list string)) (st : copyState) (k : string) :
  (forall k' v vs, (k', v :: vs) ∈ l -> CanonicalMIMEHeaderKey k' = k ->
                   s3_first.isHopByHopHeader k' = true) ->
  outHeader (foldl s3_first.copyStep st l) !! k = outHeader st !! k.
Proof.
  revert st; induction l as [|kv l IH]; intros st Hk; simpl; [reflexivity |].
  rewrite IH by (intros k' v vs Hin; apply (Hk k' v vs); now right).
  destruct kv as [k' [|v vs]]; [reflexivity |].
  unfold s3_first.copyStep; simpl.
  destruct (s3_first.isHopByHopHeader k') eqn:Hhop; simpl; [reflexivity |].
  unfold Set_. rewrite lookup_insert_ne; [reflexivity |].
  intros Heq. rewrite (Hk k' v vs) in Hhop; [discriminate Hhop | now left | assumption].
Qed.

(** A header on the deny-list leaves nothing under its name. *)
Lemma copyHeaders_dropped (req : Request) (headers : Header) (k : string) :
  Header_ req = ∅ ->
  isHopByHopHeader k = true ->
  Header_ (copyHeaders req headers) !! k = None.
Proof.
  intros Hempty Hhop.
  assert (k <> "Host"%string) as Hh
    by (intros ->; rewrite isHopByHopHeader_Host in Hhop; discriminate).
  rewrite copyHeaders_Header_other by assumption.
  rewrite copyLoop_untouched by (intros; assumption).
  simpl. rewrite Hempty. apply lookup_empty.
Qed.

(** In the first copy, an inbound header whose name as written is not
    hop-by-hop appears under its canonical name with its first value, when
    no other inbound name has the same canonical form. *)
Lemma first_copyHeaders_assigned (req : Request) (headers : Header)
    (k v : string) (rest : list string) :
  headers !! k = Some (v :: rest) -> s3_first.isHopByHopHeader k = false ->
  (forall k' vs', headers !! k' = Some vs' ->
                  CanonicalMIMEHeaderKey k' = CanonicalMIMEHeaderKey k -> k' = k) ->
  Header_ (s3_first.copyHeaders req headers) !! CanonicalMIMEHeaderKey k = Some [v].
Proof.
  intros Hk Hhop Huniq.
  assert (outHeader (foldl s3_first.copyStep (mkCopyState "" 0 (Header_ req))
                           (rangeOrder headers)) !! CanonicalMIMEHeaderKey k = Some [v])
    as Hloop.
  { apply (first_copyLoop_assigned _ _ k v rest);
      [apply rangeOrder_NoDup | now apply rangeOrder_elem | assumption |].
    intros k' v' vs' Hin. apply rangeOrder_elem in Hin. now apply (Huniq k' (v' :: vs')). }
  unfold s3_first.copyHeaders.
  destruct (String.eqb _ "") eqn:Hoh; simpl; [assumption |].
  unfold Set_.
  destruct (decide (CanonicalMIMEHeaderKey "Host" = CanonicalMIMEHeaderKey k)) as [Heq | Hne].
  - rewrite <- Heq, lookup_insert_eq. do 2 f_equal.
    destruct (first_copyLoop_host_origin (rangeOrder headers)
                (mkCopyState "" 0 (Header_ req))) as [Hst | (v' & rest' & Hin & Hst)].
    + simpl in Hst. rewrite Hst in Hoh. discriminate Hoh.
    + rewrite Hst. apply rangeOrder_elem in Hin.
      assert ("Host"%string = k) as Hkk by (apply (Huniq _ _ Hin); assumption).
      rewrite <- Hkk in Hk. rewrite Hk in Hin. now injection Hin as ->.
  - now rewrite lookup_insert_ne by assumption.
Qed.

(** In the first copy, an inbound header whose name as written is
    hop-by-hop leaves nothing under its canonical name, when no other
    inbound name has the same canonical form. *)
Lemma first_copyHeaders_dropped (req : Request) (headers : Header)
    (k : string) (vs : list string) :
  Header_ req = ∅ ->
  headers !! k = Some vs -> s3_first.isHopByHopHeader k = true ->
  (forall k' vs', headers !! k' = Some vs' ->
                  CanonicalMIMEHeaderKey k' = CanonicalMIMEHeaderKey k -> k' = k) ->
  Header_ (s3_first.copyHeaders req headers) !! CanonicalMIMEHeaderKey k = None.
Proof.
  intros Hempty Hk Hhop Huniq.
  assert (outHeader (foldl s3_first.copyStep (mkCopyState "" 0 (Header_ req))
                           (rangeOrder headers)) !! CanonicalMIMEHeaderKey k = None)
    as Hloop.
  { rewrite first_copyLoop_skipped.
    - simpl. rewrite Hempty. apply lookup_empty.
    - intros k' v' vs' Hin Hcanon. apply rangeOrder_elem in Hin.
      now rewrite (Huniq k' (v' :: vs') Hin Hcanon). }
  unfold s3_first.copyHeaders.
  destruct (String.eqb _ "") eqn:Hoh; simpl; [assumption |].
  unfold Set_.
  destruct (decide (CanonicalMIMEHeaderKey "Host" = CanonicalMIMEHeaderKey k)) as [Heq | Hne].
  - exfalso.
    destruct (first_copyLoop_host_origin (rangeOrder headers)
                (mkCopyState "" 0 (Header_ req))) as [Hst | (v' & rest' & Hin & Hst)].
    + simpl in Hst. rewrite Hst in Hoh. discriminate Hoh.
    + apply rangeOrder_elem in Hin.
      assert ("Host"%string = k) as Hkk by (apply (Huniq _ _ Hin); assumption).
      rewrite <- Hkk in Hhop. discriminate Hhop.
  - now rewrite lookup_insert_ne by assumption.
Qed.

(** C9 (as amended).  For every inbound header name that is not hop-by-hop
    and is mapped to two or more values, [copyHeaders] places exactly the
    first value on the request under that name and drops the others (for
    the literal name [Host], provided no header named host in another case
    carries a different first value); a header on the deny-list is dropped
    entirely, however many values it has; and a request that starts with no
    headers never ends with a header of several values.  The first copy of
    [copyHeaders] does the same up to the name: it places the first value
    under the canonical form of the name when the name as written is not
    one of its seven hop-by-hop names, leaves nothing under it when the name
    as written is one of the seven, both provided no other inbound name has
    the same canonical form, and never leaves a header of several values. *)
Theorem copyHeaders_first_value_only (req : Request) (headers : Header) :
  Header_ req = ∅ ->
  (forall k v1 v2 vs,
     headers !! k = Some (v1 :: v2 :: vs) ->
     isHopByHopHeader k = false ->
     (k = "Host"%string ->
      forall k' v' vs', headers !! k' = Some (v' :: vs') ->
                        EqualFold k' "host" = true -> v' = v1) ->
     Header_ (copyHeaders req headers) !! k = Some [v1]) /\
  (forall k vs,
     headers !! k = Some vs -> isHopByHopHeader k = true ->
     Header_ (copyHeaders req headers) !! k = None) /\
  (forall k vs',
     Header_ (copyHeaders req headers) !! k = Some vs' -> length vs' = 1%nat) /\
  (forall k v1 v2 vs,
     headers !! k = Some (v1 :: v2 :: vs) ->
     s3_first.isHopByHopHeader k = false ->
     (forall k' vs', headers !! k' = Some vs' ->
                     CanonicalMIMEHeaderKey k' = CanonicalMIMEHeaderKey k -> k' = k) ->
     Header_ (s3_first.copyHeaders req headers) !! CanonicalMIMEHeaderKey k = Some [v1]) /\
  (forall k vs,
     headers !! k = Some vs ->
     s3_first.isHopByHopHeader k = true ->
     (forall k' vs', headers !! k' = Some vs' ->
                     CanonicalMIMEHeaderKey k' = CanonicalMIMEHeaderKey k -> k' = k) ->
     Header_ (s3_first.copyHeaders req headers) !! CanonicalMIMEHeaderKey k = None) /\
  (forall k vs',
     Header_ (s3_first.copyHeaders req headers) !! k = Some vs' -> length vs' = 1%nat).
Proof.
  intros Hempty. split; [| split; [| split; [| split; [| split]]]].
  - intros k v1 v2 vs Hk Hhop Hhost.
    destruct (decide (k = "Host"%string)) as [-> | Hne].
    + apply (copyHeaders_assigned_Host req headers v1 (v2 :: vs) Hk). now apply Hhost.
    + now apply (copyHeaders_assigned_other req headers k v1 (v2 :: vs)).
  - intros k vs _ Hhop. now apply copyHeaders_dropped.
  - intros k vs' Hk.
    destruct (copyHeaders_single_valued req headers k vs' Hempty Hk) as (_ & v & ->).
    reflexivity.
  - intros k v1 v2 vs Hk Hhop Huniq.
    now apply (first_copyHeaders_assigned req headers k v1 (v2 :: vs)).
  - intros k vs Hk Hhop Huniq.
    now apply (first_copyHeaders_dropped req headers k vs).
  - intros k vs' Hk.
    destruct (first_copyHeaders_single_valued req headers k vs' Hempty Hk) as (v & ->).
    reflexivity.
Qed.

(** *** [ForwardRequest] *)

Lemma canonical_ContentLength : CanonicalMIMEHeaderKey "Content-Length" = "Content-Length"%string.
Proof. reflexivity. Qed.

Lemma canonical_scheme_hints :
  CanonicalMIMEHeaderKey "X-Forwarded-Proto" = "X-Forwarded-Proto"%string /\
  CanonicalMIMEHeaderKey "X-Forwarded-Scheme" = "X-Forwarded-Scheme"%string /\
  CanonicalMIMEHeaderKey "X-Scheme" = "X-Scheme"%string.
Proof. repeat split; reflexivity. Qed.

Lemma buildRequest_inv (c : Client) (method path : string) (body : option Reader)
    (headers : Header) (queryString : option string) (req : Request) :
  buildRequest c method path body headers queryString = Ok req ->
  exists req0,
    NewRequest method (fullURL c path queryString) body = Ok req0 /\
    Header_ req0 = ∅ /\ URL req0 = fullURL c path queryString /\
    req = dropForwardedProto (preserveContentLength headers (copyHeaders req0 headers)).
Proof.
  unfold buildRequest. destruct (NewRequest _ _ _) as [req0 | e] eqn:Hnew; [| discriminate].
  intros Hreq; injection Hreq as <-. exists req0. split; [reflexivity |].
  unfold NewRequest in Hnew. destruct (newRequestHost _ _); [| discriminate].
  injection Hnew as <-. repeat split; reflexivity.
Qed.

Lemma preserveContentLength_other (headers : Header) (req : Request) (k : string) :
  k <> "Content-Length"%string ->
  Header_ (preserveContentLength headers req) !! k = Header_ req !! k.
Proof.
  intros Hk. unfold preserveContentLength.
  destruct (String.eqb _ ""); [reflexivity |].
  destruct (ParseInt _); simpl; unfold Set_; rewrite canonical_ContentLength;
    now rewrite lookup_insert_ne by congruence.
Qed.

Lemma preserveContentLength_Host (headers : Header) (req : Request) :
  Host (preserveContentLength headers req) = Host req.
Proof.
  unfold preserveContentLength. destruct (String.eqb _ ""); [reflexivity |].
  now destruct (ParseInt _).
Qed.

Lemma preserveContentLength_URL (headers : Header) (req : Request) :
  URL (preserveContentLength headers req) = URL req.
Proof.
  unfold preserveContentLength. destruct (String.eqb _ ""); [reflexivity |].
  now destruct (ParseInt _).
Qed.

Lemma dropForwardedProto_lookup (req : Request) (k : string) :
  Header_ (dropForwardedProto req) !! k =
  if decide (k = "X-Forwarded-Proto"%string \/ k = "X-Forwarded-Scheme"%string \/
             k = "X-Scheme"%string)
  then None else Header_ req !! k.
Proof.
  unfold dropForwardedProto, Del; simpl.
  destruct canonical_scheme_hints as (-> & -> & ->).
  rewrite !lookup_delete.
  destruct (decide (k = "X-Forwarded-Proto"%string \/ _)) as [[-> | [-> | ->]] | Hn];
    try reflexivity.
  rewrite !decide_False by (intros <-; apply Hn; auto). reflexivity.
Qed.

Lemma dropForwardedProto_None (req : Request) (k : string) :
  Header_ req !! k = None -> Header_ (dropForwardedProto req) !! k = None.
Proof. intros Hk. rewrite dropForwardedProto_lookup. now case_decide. Qed.

(** C3 (as amended).  When the inbound headers hold a header named host (in
    any letter case) with non-empty first value [h], and no other header
    named host in a different case carries a different first value, then for
    every backend endpoint the request handed to the HTTP client has [h] as
    its transport-level host and as the single value of its [Host] header,
    whatever host the endpoint's URL gave it. *)
Theorem ForwardRequest_host_override (c : Client) (method path : string)
    (body : option Reader) (headers : Header) (queryString : option string)
    (req : Request) (k h : string) (vs : list string) :
  buildRequest c method path body headers queryString = Ok req ->
  headers !! k = Some (h :: vs) ->
  EqualFold k "host" = true ->
  h <> EmptyString ->
  (forall k' h' vs', headers !! k' = Some (h' :: vs') ->
                     EqualFold k' "host" = true -> h' = h) ->
  Host req = h /\ Header_ req !! "Host"%string = Some [h].
Proof.
  intros Hbuild Hk Hfold Hne Hall.
  apply buildRequest_inv in Hbuild as (req0 & _ & _ & _ & ->).
  destruct (copyHeaders_host req0 headers k h vs Hk Hfold Hne Hall) as [Hhost Hhdr].
  split.
  - unfold dropForwardedProto; simpl. now rewrite preserveContentLength_Host.
  - rewrite dropForwardedProto_lookup. case_decide as Hd.
    + destruct Hd as [Hd | [Hd | Hd]]; discriminate.
    + now rewrite preserveContentLength_other by discriminate.
Qed.

Lemma hopByHopHeaders_ascii (d : string) :
  d ∈ hopByHopHeaders -> isASCII d = true.
Proof.
  unfold hopByHopHeaders. rewrite !elem_of_cons, elem_of_nil.
  intros H; repeat (destruct H as [-> | H]; [reflexivity |]); contradiction.
Qed.

(** A name that matches a listed name in any letter case is hop-by-hop. *)
Lemma isHopByHopHeader_any_case (k d : string) :
  d ∈ hopByHopHeaders -> sameNameAnyCase k d -> isHopByHopHeader k = true.
Proof.
  intros Hd Hsame. unfold isHopByHopHeader. apply existsb_exists.
  exists d. split; [now apply list_elem_of_In |].
  apply EqualFold_sameNameAnyCase; [assumption | now apply hopByHopHeaders_ascii].
Qed.

(** No hop-by-hop name is left on the request handed to the HTTP client. *)
Lemma ForwardRequest_no_hop_by_hop (c : Client) (method path : string)
    (body : option Reader) (headers : Header) (queryString : option string)
    (req : Request) (k : string) :
  buildRequest c method path body headers queryString = Ok req ->
  isHopByHopHeader k = true ->
  Header_ req !! k = None.
Proof.
  intros Hbuild Hhop.
  apply buildRequest_inv in Hbuild as (req0 & _ & Hempty & _ & ->).
  apply dropForwardedProto_None.
  assert (k <> "Content-Length"%string) as Hcl
    by (intros ->; rewrite isHopByHopHeader_ContentLength in Hhop; discriminate).
  assert (k <> "Host"%string) as Hh
    by (intros ->; rewrite isHopByHopHeader_Host in Hhop; discriminate).
  rewrite preserveContentLength_other by assumption.
  rewrite copyHeaders_Header_other by assumption.
  rewrite copyLoop_untouched by (intros; assumption).
  simpl. rewrite Hempty. apply lookup_empty.
Qed.

(** C4 (as amended).  For every inbound request and every name that
    matches, under any letter casing, one of the seventeen listed names
    ([Connection], [Transfer-Encoding], [Upgrade], [Proxy-Connection], [TE],
    [Trailer], [Keep-Alive], [Cf-Visitor], [X-Forwarded-Host],
    [X-Forwarded-Port], [X-Forwarded-For], [X-Real-Ip], [X-Request-Id],
    [Cf-Connecting-Ip], [Cf-Ipcountry], [Cf-Ray], [Cdn-Loop]), the request
    built by [ForwardRequest] holds no header of that name; and it holds no
    header under the canonical names [X-Forwarded-Proto],
    [X-Forwarded-Scheme] and [X-Scheme]. *)
Theorem ForwardRequest_drops_deny_list (c : Client) (method path : string)
    (body : option Reader) (headers : Header) (queryString : option string)
    (req : Request) :
  buildRequest c method path body headers queryString = Ok req ->
  (forall k d, d ∈ hopByHopHeaders -> sameNameAnyCase k d -> Header_ req !! k = None) /\
  Header_ req !! "X-Forwarded-Proto"%string = None /\
  Header_ req !! "X-Forwarded-Scheme"%string = None /\
  Header_ req !! "X-Scheme"%string = None.
Proof.
  intros Hbuild. split.
  - intros k d Hd Hsame.
    eapply ForwardRequest_no_hop_by_hop; [eassumption |].
    now apply (isHopByHopHeader_any_case k d).
  - apply buildRequest_inv in Hbuild as (req0 & _ & _ & _ & ->).
    rewrite !dropForwardedProto_lookup. repeat split; case_decide; tauto.
Qed.


(** C6 (as amended).  Whatever edge hints the inbound headers carry, the
    URL of the request handed to the HTTP client is the configured endpoint
    followed by the path and, when the query string is not empty, by [?] and
    the query string: the scheme of the endpoint is never rewritten. *)
Theorem ForwardRequest_url_is_endpoint (c : Client) (method path : string)
    (body : option Reader) (headers : Header) (queryString : option string)
    (req : Request) :
  buildRequest c method path body headers queryString = Ok req ->
  URL req =
    match queryString with
    | Some q => if (0 <? String.length q)%nat
                then (endpoint c +:+ path) +:+ "?" +:+ q
                else endpoint c +:+ path
    | None => endpoint c +:+ path
    end /\
  HasPrefix (URL req) (endpoint c) = true.
Proof.
  intros Hbuild.
  apply buildRequest_inv in Hbuild as (req0 & _ & _ & Hurl & ->).
  assert (URL (dropForwardedProto (preserveContentLength headers (copyHeaders req0 headers)))
          = fullURL c path queryString) as ->.
  { unfold dropForwardedProto; simpl.
    now rewrite preserveContentLength_URL, copyHeaders_URL. }
  unfold fullURL. split; [reflexivity |].
  destruct queryString as [q |]; [destruct (0 <? String.length q)%nat |];
    rewrite ?string_app_assoc; apply HasPrefix_app.
Qed.

(** The request [ForwardRequest] hands to the HTTP client is the one built
    above, and that is its only call. *)
Lemma ForwardRequest_calls {W : Type} (o : World W) (w : W) (c : Client)
    (method path : string) (body : option Reader) (headers : Header)
    (queryString : option string) (req : Request) :
  buildRequest c method path body headers queryString = Ok req ->
  (exec o (ForwardRequest c method path body headers queryString) w).2 =
  [anyCall (HTTP_Do req)].
Proof.
  intros Hbuild. unfold ForwardRequest. rewrite Hbuild. simpl.
  destruct (o _ (HTTP_Do req) w) as [[resp | e] w']; reflexivity.
Qed.

(** *** The second copy of the client *)

Lemma second_scheme_from_forwarded_proto (headers : Header) :
  Get headers "Cf-Visitor" = EmptyString ->
  Get headers "X-Forwarded-Proto" = "https"%string ->
  s3_second.originalScheme headers = "https"%string.
Proof. intros Hcf Hxfp. unfold s3_second.originalScheme. now rewrite Hcf, Hxfp. Qed.

Lemma second_scheme_from_visitor (headers : Header) :
  Contains (Get headers "Cf-Visitor") s3_second.httpsMarker = true ->
  s3_second.originalScheme headers = "https"%string.
Proof.
  intros Hcf. unfold s3_second.originalScheme. rewrite Hcf.
  destruct (Get headers "Cf-Visitor"); [discriminate Hcf | reflexivity].
Qed.

(** There, a plain-HTTP endpoint is asked over https when the original
    scheme was https. *)
Lemma second_url_upgraded (c : Client) (host path : string) (headers : Header) :
  endpoint c = "http://" +:+ host ->
  s3_second.originalScheme headers = "https"%string ->
  s3_second.fullURL c path headers None = "https://" +:+ host +:+ path.
Proof.
  intros Hend Hscheme. unfold s3_second.fullURL. rewrite Hscheme, Hend.
  rewrite HasPrefix_app, Replace1_prefix. cbn [String.eqb Ascii.eqb Bool.eqb andb].
  now rewrite string_app_assoc.
Qed.

End S3Facts.

(** ** The metadata overlay *)

Section MetadataFacts.

Import gostrings http types metadata reference.

Context `{RT : Runtime}.

(** The loop of [FilterMetadataObjects] keeps, in order, what is not a
    sidecar record. *)
Lemma FilterMetadataObjects_loop (acc contents : list Content) :
  foldl (fun filtered obj =>
           if negb (HasSuffix (Key obj) ".metadata") then filtered ++ [obj] else filtered)
        acc contents
  = acc ++ List.filter notSidecar contents.
Proof.
  revert acc; induction contents as [|obj l IH]; intros acc; simpl.
  - now rewrite app_nil_r.
  - rewrite IH. unfold notSidecar at 2.
    destruct (negb (HasSuffix (Key obj) ".metadata")); [| reflexivity].
    now rewrite <- app_assoc.
Qed.

Lemma FilterMetadataObjects_filter (contents : list Content) :
  FilterMetadataObjects contents = List.filter notSidecar contents.
Proof. unfold FilterMetadataObjects. now rewrite FilterMetadataObjects_loop. Qed.

(** The filter of the testable property: [a], [a.metadata], [b] gives
    [a], [b]. *)
Example FilterMetadataObjects_example :
  map Key (FilterMetadataObjects
             [ mkContent "a" "" "" 1 "STANDARD";
               mkContent "a.metadata" "" "" 2 "STANDARD";
               mkContent "b" "" "" 3 "STANDARD" ])
  = ["a"; "b"]%string.
Proof. reflexivity. Qed.

(** *** [Get] *)

Lemma getResponse_not_found (bucket key : string) (resp : Response) :
  (exists b k, getResponse bucket key resp = Err (errNotFound b k)) <->
  StatusCode resp = 404.
Proof.
  unfold getResponse. split.
  - intros (b & k & H).
    destruct (StatusCode resp =? 404) eqn:H404; [now apply Z.eqb_eq in H404 |].
    exfalso. unfold errNotFound, errAccessDenied, errGetFailed in H.
    destruct (StatusCode resp =? 403); [simpl in H; discriminate H |].
    destruct (400 <=? StatusCode resp); [simpl in H; discriminate H |].
    destruct (ReadAll (RespBody resp)) as [bytes [e |]]; [simpl in H; discriminate H |].
    destruct (json_Unmarshal bytes); simpl in H; discriminate H.
  - intros ->. simpl. eauto.
Qed.

Lemma getResponse_access_denied (bucket key : string) (resp : Response) :
  (exists s, getResponse bucket key resp = Err (errAccessDenied s)) <->
  StatusCode resp = 403.
Proof.
  unfold getResponse. split.
  - intros (s & H).
    unfold errNotFound, errAccessDenied, errGetFailed in H.
    destruct (StatusCode resp =? 404); [simpl in H; discriminate H |].
    destruct (StatusCode resp =? 403) eqn:H403; [now apply Z.eqb_eq in H403 |].
    exfalso.
    destruct (400 <=? StatusCode resp); [simpl in H; discriminate H |].
    destruct (ReadAll (RespBody resp)) as [bytes [e |]]; [simpl in H; discriminate H |].
    destruct (json_Unmarshal bytes); simpl in H; discriminate H.
  - intros ->. simpl. eauto.
Qed.

Lemma getResponse_other_failure (bucket key : string) (resp : Response) :
  400 <= StatusCode resp -> StatusCode resp <> 404 -> StatusCode resp <> 403 ->
  getResponse bucket key resp = Err (errGetFailed (StatusCode resp)).
Proof.
  intros H400 H404 H403. unfold getResponse.
  apply Z.eqb_neq in H404, H403. apply Z.leb_le in H400.
  now rewrite H404, H403, H400.
Qed.

Lemma getResponse_record (bucket key : string) (resp : Response) (m : ObjectMetadata) :
  getResponse bucket key resp = Ok m <->
  StatusCode resp < 400 /\
  exists body, ReadAll (RespBody resp) = (body, None) /\ json_Unmarshal body = Ok m.
Proof.
  unfold getResponse. split.
  - intros H.
    destruct (StatusCode resp =? 404); [discriminate H |].
    destruct (StatusCode resp =? 403); [discriminate H |].
    destruct (400 <=? StatusCode resp) eqn:H400; [discriminate H |].
    apply Z.leb_gt in H400. split; [assumption |].
    destruct (ReadAll (RespBody resp)) as [bytes [e |]]; [discriminate H |].
    exists bytes. split; [reflexivity |].
    destruct (json_Unmarshal bytes); [| discriminate H]. assumption.
  - intros (Hlt & body & Hread & Hjson).
    destruct (StatusCode resp =? 404) eqn:H404; [apply Z.eqb_eq in H404; lia |].
    destruct (StatusCode resp =? 403) eqn:H403; [apply Z.eqb_eq in H403; lia |].
    destruct (400 <=? StatusCode resp) eqn:H400; [apply Z.leb_le in H400; lia |].
    now rewrite Hread, Hjson.
Qed.

Lemma getResponse_bad_body (bucket key : string) (resp : Response) (body : string) (e : error) :
  StatusCode resp < 400 ->
  ReadAll (RespBody resp) = (body, None) -> json_Unmarshal body = Err e ->
  getResponse bucket key resp = Err (Errorf ("failed to unmarshal metadata: " +:+ Error e)).
Proof.
  intros Hlt Hread Hjson. unfold getResponse.
  destruct (StatusCode resp =? 404) eqn:H404; [apply Z.eqb_eq in H404; lia |].
  destruct (StatusCode resp =? 403) eqn:H403; [apply Z.eqb_eq in H403; lia |].
  destruct (400 <=? StatusCode resp) eqn:H400; [apply Z.leb_le in H400; lia |].
  now rewrite Hread, Hjson.
Qed.

Lemma Get_exec {W : Type} (o : World W) (w w1 : W) (bucket key : string)
    (headers : Header) (resp : Response) :
  o _ (S3_ForwardRequest "GET" ("/" +:+ bucket +:+ "/" +:+ key +:+ ".metadata")
                         None headers None) w = (Ok resp, w1) ->
  exec o (Get bucket key headers) w =
  (getResponse bucket key resp, w1,
   [anyCall (S3_ForwardRequest "GET" ("/" +:+ bucket +:+ "/" +:+ key +:+ ".metadata")
                               None headers None)]).
Proof.
  intros Hcall. unfold Get, getMetadataKey. cbn [exec bind call].
  rewrite Hcall. reflexivity.
Qed.

(** C7 (as amended).  When the backend answers the read of the sidecar
    object, [Get] returns the not-found error exactly when the status is
    404, the access-denied error exactly when it is 403, the generic failure
    for any other status of 400 or more; for a status below 400 whose body
    does not deserialize it returns an error that is neither not-found nor a
    record; and it yields a record exactly for a status below 400 (2xx or
    not) whose body is read and deserialized. *)
Theorem Get_status_mapping {W : Type} (o : World W) (w w1 : W) (bucket key : string)
    (headers : Header) (resp : Response) :
  o _ (S3_ForwardRequest "GET" ("/" +:+ bucket +:+ "/" +:+ key +:+ ".metadata")
                         None headers None) w = (Ok resp, w1) ->
  let r := (exec o (Get bucket key headers) w).1.1 in
  ((exists b k, r = Err (errNotFound b k)) <-> StatusCode resp = 404) /\
  ((exists s, r = Err (errAccessDenied s)) <-> StatusCode resp = 403) /\
  (400 <= StatusCode resp -> StatusCode resp <> 404 -> StatusCode resp <> 403 ->
   r = Err (errGetFailed (StatusCode resp))) /\
  (forall body e,
     StatusCode resp < 400 ->
     ReadAll (RespBody resp) = (body, None) -> json_Unmarshal body = Err e ->
     r = Err (Errorf ("failed to unmarshal metadata: " +:+ Error e)) /\
     (forall b k, r <> Err (errNotFound b k)) /\ (forall m, r <> Ok m)) /\
  (forall m, r = Ok m <->
     StatusCode resp < 400 /\
     exists body, ReadAll (RespBody resp) = (body, None) /\ json_Unmarshal body = Ok m).
Proof.
  intros Hcall. rewrite (Get_exec o w w1 bucket key headers resp Hcall). simpl.
  split; [apply getResponse_not_found |].
  split; [apply getResponse_access_denied |].
  split; [apply getResponse_other_failure |].
  split; [| apply getResponse_record].
  intros body e Hlt Hread Hjson.
  rewrite (getResponse_bad_body bucket key resp body e Hlt Hread Hjson).
  split; [reflexivity |]. split.
  - intros b k H. unfold errNotFound in H. simpl in H. discriminate H.
  - intros m H. discriminate H.
Qed.

End MetadataFacts.

(** ** The handlers *)

Section HandlerFacts.

Import gostrings http types metadata handlers reference.

Context `{RT : Runtime}.

(** *** [extractHeaders] *)

Lemma extractHeaders_loop (l : list (string * string)) (acc : Header) (k : string) :
  foldl (fun (headers : Header) kv =>
           <[fst kv := default [] (headers !! fst kv) ++ [snd kv]]> headers) acc l !! k
  = match map snd (List.filter (fun kv => String.eqb (fst kv) k) l) with
    | [] => acc !! k
    | vs => Some (default [] (acc !! k) ++ vs)
    end.
Proof.
  revert acc; induction l as [|[k' v] l IH]; intros acc; simpl; [reflexivity |].
  rewrite IH. destruct (String.eqb k' k) eqn:Hk.
  - apply String.eqb_eq in Hk; subst k'. rewrite lookup_insert_eq. simpl.
    destruct (map snd (List.filter _ l)) as [|v' vs]; [reflexivity |].
    now rewrite <- app_assoc.
  - apply String.eqb_neq in Hk. now rewrite lookup_insert_ne by assumption.
Qed.

(** [extractHeaders] keeps every name as received, with its values in the
    order received. *)
Lemma extractHeaders_lookup (c : Ctx) (k : string) :
  extractHeaders c !! k =
  match map snd (List.filter (fun kv => String.eqb (fst kv) k) (RequestHeaders c)) with
  | [] => None
  | vs => Some vs
  end.
Proof.
  unfold extractHeaders. rewrite extractHeaders_loop, lookup_empty.
  now destruct (map snd _).
Qed.

(** From the client to the backend: a header the client sent under a name
    that is not hop-by-hop and not [Host] leaves under the same name with
    the value of its first occurrence. *)
Lemma forwarded_name_as_received (c : Ctx) (req : Request) (k v : string) :
  Ctx_Get c k = v ->
  (exists v', In (k, v') (RequestHeaders c)) ->
  s3.isHopByHopHeader k = false ->
  k <> "Host"%string ->
  Header_ (s3.copyHeaders req (extractHeaders c)) !! k = Some [v].
Proof.
  intros Hget [v' Hin] Hhop Hne.
  pose proof (extractHeaders_lookup c k) as Hlook.
  unfold Ctx_Get in Hget.
  destruct (List.filter (fun kv => String.eqb (fst kv) k) (RequestHeaders c))
    as [|[k1 v1] rest] eqn:Hf.
  - exfalso. assert (In (k, v') []) as Hnil; [| destruct Hnil].
    rewrite <- Hf. apply filter_In. split; [assumption | apply String.eqb_refl].
  - simpl in Hget, Hlook. subst v1.
    now apply (copyHeaders_assigned_other req (extractHeaders c) k v (map snd rest)).
Qed.

(** *** [ListObjects] and [PutObject] *)

(** Running [p] and then [f] on its result: the calls of [p], then those
    of [f]. *)
Lemma exec_bind {W A B : Type} (o : World W) (p : Prog A) (f : A -> Prog B) (w : W) :
  exec o (bind p f) w =
  let '(a, w1, t1) := exec o p w in
  let '(b, w2, t2) := exec o (f a) w1 in
  (b, w2, t1 ++ t2).
Proof.
  revert w; induction p as [a | X c k IH]; intros w; cbn [bind exec].
  - now destruct (exec o (f a) w) as [[b w2] t2].
  - destruct (o X c w) as [x w']. rewrite IH.
    destruct (exec o (k x) w') as [[a w1] t1].
    now destruct (exec o (f a) w1) as [[b w2] t2].
Qed.

Lemma askAll_length {W : Type} (o : World W) (bucket : string) (headers : Header)
    (objs : list Content) (w : W) :
  length (askAll o bucket headers objs w).1.1 = length objs.
Proof.
  revert w; induction objs as [|obj objs IH]; intros w; cbn [askAll]; [reflexivity |].
  destruct (o _ (Metadata_Get bucket (Key obj) headers) w) as [r w1].
  specialize (IH w1). destruct (askAll o bucket headers objs w1) as [[rs w2] tr].
  simpl in *. now rewrite IH.
Qed.

Lemma askAll_calls {W : Type} (o : World W) (bucket : string) (headers : Header)
    (objs : list Content) (w : W) :
  (askAll o bucket headers objs w).2 =
  map (fun obj => anyCall (Metadata_Get bucket (Key obj) headers)) objs.
Proof.
  revert w; induction objs as [|obj objs IH]; intros w; cbn [askAll]; [reflexivity |].
  destruct (o _ (Metadata_Get bucket (Key obj) headers) w) as [r w1].
  specialize (IH w1). destruct (askAll o bucket headers objs w1) as [[rs w2] tr].
  simpl in *. now rewrite IH.
Qed.

(** The loop of [ListObjects] over the indices of the entries not yet
    visited: the entries already visited stay, each remaining entry is
    replaced by its enriched form, and the metadata service is asked once
    per remaining entry, in order. *)
Lemma enrich_exec {W : Type} (o : World W) (bucket : string) (headers : Header)
    (rest done : list Content) (w : W) :
  exec o (enrich bucket headers (seq (length done) (length rest)) (done ++ rest)) w =
  let '(answers, w', tr) := askAll o bucket headers rest w in
  (done ++ zip_with enriched rest answers, w', tr).
Proof.
  revert done w; induction rest as [|obj rest IH]; intros done w.
  - cbn [length seq enrich exec askAll zip_with]. reflexivity.
  - cbn [length seq enrich askAll].
    rewrite list_lookup_middle by reflexivity.
    cbn [bind call exec].
    destruct (o _ (Metadata_Get bucket (Key obj) headers) w) as [r w1].
    assert (forall x : Content,
              exec o (enrich bucket headers (seq (S (length done)) (length rest))
                             (done ++ x :: rest)) w1 =
              let '(answers, w', tr) := askAll o bucket headers rest w1 in
              (done ++ x :: zip_with enriched rest answers, w', tr)) as Hnext.
    { intros x. specialize (IH (done ++ [x]) w1).
      rewrite length_app, Nat.add_1_r, <- app_assoc in IH. cbn [app] in IH.
      rewrite IH. destruct (askAll o bucket headers rest w1) as [[rs w2] tr].
      now rewrite <- app_assoc. }
    destruct r as [m | e].
    + rewrite insert_app_r_alt by lia. rewrite Nat.sub_diag. cbn [insert list_insert].
      rewrite Hnext. destruct (askAll o bucket headers rest w1) as [[rs w2] tr].
      reflexivity.
    + rewrite Hnext. destruct (askAll o bucket headers rest w1) as [[rs w2] tr].
      reflexivity.
Qed.

(** C8.  For every object listing the backend returns and the handler
    parses, the entries whose key ends with [.metadata] are removed and the
    others keep their order; the metadata service is asked once for each
    remaining entry, in order; an entry whose record is returned gets the
    record's content length as [Size] and the record's ETag as [ETag], an
    entry whose get fails is left as it was; and the handler answers with
    the listing and no error whatever the gets returned. *)
Theorem ListObjects_enrichment {W : Type} (o : World W) (w w1 : W) (c : Ctx)
    (resp : Response) (body : string) (listResult : ListBucketResult) :
  o _ (S3_ForwardRequest "GET" ("/" +:+ Params_bucket c) None (extractHeaders c)
                         (Some (QueryString c))) w = (Ok resp, w1) ->
  StatusCode resp < 400 ->
  ReadAll (RespBody resp) = (body, None) ->
  xml_Unmarshal body = Ok listResult ->
  let kept := List.filter notSidecar (Contents listResult) in
  let answers := (askAll o (Params_bucket c) (extractHeaders c) kept w1).1.1 in
  exists (fr : FiberResponse) (out : list Content) (w2 : W),
    exec o (ListObjects c) w =
      ((fr, None), w2,
       anyCall (S3_ForwardRequest "GET" ("/" +:+ Params_bucket c) None (extractHeaders c)
                                  (Some (QueryString c)))
       :: map (fun obj => anyCall (Metadata_Get (Params_bucket c) (Key obj)
                                                (extractHeaders c))) kept) /\
    Status fr = Status (Response_ c) /\
    Payload fr = XMLList (mkListBucketResult (Name listResult) (Prefix listResult)
                            (MaxKeys listResult) (IsTruncated listResult) out) /\
    map Key out = map Key kept /\
    length answers = length kept /\
    forall i obj, kept !! i = Some obj ->
      exists r, answers !! i = Some r /\
        out !! i = Some (match r with
                         | Ok record =>
                             mkContent (Key obj) (LastModified obj) (METag record)
                                       (MContentLength record) (StorageClass obj)
                         | Err _ => obj
                         end).
Proof.
  intros Hcall Hlt Hread Hxml kept answers.
  pose proof (askAll_length o (Params_bucket c) (extractHeaders c) kept w1) as Hlen.
  pose proof (askAll_calls o (Params_bucket c) (extractHeaders c) kept w1) as Hcalls.
  fold answers in Hlen.
  unfold ListObjects. cbn [bind call exec]. rewrite Hcall.
  destruct (400 <=? StatusCode resp) eqn:H400; [apply Z.leb_le in H400; lia |].
  rewrite Hread, Hxml, exec_bind, FilterMetadataObjects_filter. fold kept.
  pose proof (enrich_exec o (Params_bucket c) (extractHeaders c) kept [] w1) as Hloop.
  cbn [length app] in Hloop. rewrite Hloop. clear Hloop.
  subst answers.
  destruct (askAll o (Params_bucket c) (extractHeaders c) kept w1) as [[rs w2] tr].
  cbn [fst snd] in *. cbn [exec]. rewrite app_nil_r. subst tr.
  eexists _, (zip_with enriched kept rs), w2.
  split; [reflexivity |].
  split; [reflexivity |].
  split; [reflexivity |].
  assert (forall i obj, kept !! i = Some obj ->
            exists r, rs !! i = Some r /\
                      zip_with enriched kept rs !! i = Some (enriched obj r)) as Hentry.
  { intros i obj Hi.
    destruct (lookup_lt_is_Some_2 rs i) as [r Hr].
    { rewrite Hlen. eapply lookup_lt_Some; eassumption. }
    exists r. split; [assumption |].
    rewrite lookup_zip_with, Hi, Hr. reflexivity. }
  split; [| split; [assumption | exact Hentry]].
  apply list_eq. intros i. rewrite !list_lookup_fmap.
  destruct (kept !! i) as [obj |] eqn:Hi.
  - destruct (Hentry i obj Hi) as (r & _ & ->). simpl. now destruct r.
  - rewrite lookup_zip_with, Hi. reflexivity.
Qed.

(** [PutObject] never asks the secret service to encrypt. *)
Lemma PutObject_never_encrypts {W : Type} (o : World W) (w : W) (c : Ctx) :
  forallb (fun call => negb (isEncrypt call)) (exec o (PutObject c) w).2 = true.
Proof.
  unfold PutObject.
  destruct (String.eqb (Params_bucket c) "" || String.eqb (Params_star c) ""); [reflexivity |].
  destruct (getKMSKeyARN c) as [arn | e]; [| reflexivity].
  cbn [bind call exec].
  destruct (o _ (Vault_ARNToVaultKey arn) w) as [[tk [e |]] w1]; [reflexivity |].
  cbn [snd bind call exec].
  destruct (o _ (S3_ForwardRequest _ _ _ _ _) w1) as [[resp | e] w2]; [| reflexivity].
  destruct (400 <=? StatusCode resp); reflexivity.
Qed.

(** C10.  For every [PutObject] request with a bucket and a key whose KMS
    key ARN is present and accepted by the key gateway, and whose backend
    PUT returns a status below 400, the response carries that status and the
    headers [x-amz-server-side-encryption: aws:kms] and
    [x-amz-server-side-encryption-aws-kms-key-id] set to the request's ARN;
    the handler made exactly two calls, the ARN resolution and one PUT whose
    body is the request body as received, and no call to encrypt. *)
Theorem PutObject_advertises_kms {W : Type} (o : World W) (w w1 w2 : W) (c : Ctx)
    (arn transitKey : string) (resp : Response) :
  Params_bucket c <> EmptyString ->
  Params_star c <> EmptyString ->
  getKMSKeyARN c = Ok arn ->
  o _ (Vault_ARNToVaultKey arn) w = ((transitKey, None), w1) ->
  o _ (S3_ForwardRequest "PUT" ("/" +:+ Params_bucket c +:+ "/" +:+ Params_star c)
                         (Some (BytesReader (RequestBody c))) (extractHeaders c)
                         (Some (QueryString c))) w1 = (Ok resp, w2) ->
  StatusCode resp < 400 ->
  exists fr : FiberResponse,
    exec o (PutObject c) w =
      ((fr, None), w2,
       [ anyCall (Vault_ARNToVaultKey arn);
         anyCall (S3_ForwardRequest "PUT" ("/" +:+ Params_bucket c +:+ "/" +:+ Params_star c)
                                    (Some (BytesReader (RequestBody c))) (extractHeaders c)
                                    (Some (QueryString c))) ]) /\
    Status fr = StatusCode resp /\
    Headers fr !! "x-amz-server-side-encryption"%string = Some "aws:kms"%string /\
    Headers fr !! "x-amz-server-side-encryption-aws-kms-key-id"%string = Some arn /\
    forallb (fun call => negb (isEncrypt call)) (exec o (PutObject c) w).2 = true.
Proof.
  intros Hbucket Hkey Harn Hvault Hput Hlt.
  pose proof (PutObject_never_encrypts o w c) as Hnever.
  unfold PutObject in *.
  rewrite !eqb_empty_false in * by assumption. cbn [orb] in *.
  rewrite Harn in *. cbn [bind call exec] in *. rewrite Hvault in *.
  cbn [snd bind call exec] in *. rewrite Hput in *.
  destruct (400 <=? StatusCode resp) eqn:H400; [apply Z.leb_le in H400; lia |].
  cbn [exec] in *.
  eexists. split; [reflexivity |].
  split; [reflexivity |].
  split; [| split; [| exact Hnever]].
  - cbn [SendStatus handlers.Set_ Headers].
    rewrite lookup_insert_ne by (intros Heq; discriminate Heq).
    apply lookup_insert_eq.
  - cbn [SendStatus handlers.Set_ Headers]. apply lookup_insert_eq.
Qed.

End HandlerFacts.

(** ** More on the handlers *)

Section RelayFacts.

Import gostrings http types metadata handlers reference.

Context `{RT : Runtime}.

(** *** Copying the backend's headers to the response *)

Lemma Set_Status (r : FiberResponse) (k v : string) : Status (Set_ r k v) = Status r.
Proof. reflexivity. Qed.

Lemma setValues_Status_Payload (r : FiberResponse) (k : string) (vs : list string) :
  Status (foldl (fun r v => Set_ r k v) r vs) = Status r /\
  Payload (foldl (fun r v => Set_ r k v) r vs) = Payload r.
Proof.
  revert r; induction vs as [|v vs IH]; intros r; simpl; [auto |].
  destruct (IH (Set_ r k v)) as [-> ->]. auto.
Qed.

Lemma setValues_lookup (r : FiberResponse) (k k' : string) (vs : list string) :
  Headers (foldl (fun r v => Set_ r k v) r vs) !! k' =
  if decide (k = k') then
    match last vs with Some v => Some v | None => Headers r !! k' end
  else Headers r !! k'.
Proof.
  revert r; induction vs as [|v vs IH]; intros r; simpl.
  - now case_decide.
  - rewrite IH. case_decide as Hk.
    + subst k'. destruct vs as [|v' vs]; simpl.
      * apply lookup_insert_eq.
      * destruct (last (v' :: vs)) eqn:Hlast; [reflexivity |].
        now apply last_None in Hlast.
    + cbn [Set_ Headers]. now rewrite lookup_insert_ne.
Qed.

Lemma setAllValues_loop_Status_Payload (l : list (string * list string)) (r : FiberResponse) :
  Status (foldl (fun r kv => foldl (fun r v => Set_ r (fst kv) v) r (snd kv)) r l) = Status r /\
  Payload (foldl (fun r kv => foldl (fun r v => Set_ r (fst kv) v) r (snd kv)) r l) = Payload r.
Proof.
  revert r; induction l as [|[k vs] l IH]; intros r; simpl; [auto |].
  destruct (IH (foldl (fun r v => Set_ r k v) r vs)) as [-> ->].
  apply setValues_Status_Payload.
Qed.

Lemma setAllValues_loop_other (l : list (string * list string)) (r : FiberResponse) (k : string) :
  (forall vs, (k, vs) ∈ l -> vs = []) ->
  Headers (foldl (fun r kv => foldl (fun r v => Set_ r (fst kv) v) r (snd kv)) r l) !! k
  = Headers r !! k.
Proof.
  revert r; induction l as [|[k' vs] l IH]; intros r Hk; simpl; [reflexivity |].
  rewrite IH by (intros vs' Hin; apply Hk; now right).
  rewrite setValues_lookup. case_decide as Heq; [| reflexivity].
  subst k'. now rewrite (Hk vs) by now left.
Qed.

Lemma setAllValues_loop_last (l : list (string * list string)) (r : FiberResponse)
    (k v : string) (vs : list string) :
  NoDup l.*1 -> (k, vs) ∈ l -> last vs = Some v ->
  Headers (foldl (fun r kv => foldl (fun r v => Set_ r (fst kv) v) r (snd kv)) r l) !! k
  = Some v.
Proof.
  revert r; induction l as [|[k' vs'] l IH]; intros r Hnd Hin Hlast; simpl.
  - now apply elem_of_nil in Hin.
  - apply NoDup_cons in Hnd as [Hfresh Hnd].
    apply elem_of_cons in Hin as [Heq | Hin].
    + injection Heq as <- <-.
      rewrite setAllValues_loop_other.
      * rewrite setValues_lookup, decide_True by reflexivity. now rewrite Hlast.
      * intros vs'' Hin'. exfalso. apply Hfresh.
        apply list_elem_of_fmap. now exists (k, vs'').
    + now apply IH.
Qed.

Lemma setFirstValues_loop_Status_Payload (l : list (string * list string)) (r : FiberResponse) :
  Status (foldl (fun r kv => match snd kv with v :: _ => Set_ r (fst kv) v | [] => r end) r l)
    = Status r /\
  Payload (foldl (fun r kv => match snd kv with v :: _ => Set_ r (fst kv) v | [] => r end) r l)
    = Payload r.
Proof.
  revert r; induction l as [|[k vs] l IH]; intros r; simpl; [auto |].
  destruct (IH (match vs with v :: _ => Set_ r k v | [] => r end)) as [-> ->].
  now destruct vs.
Qed.

Lemma setFirstValues_loop_other (l : list (string * list string)) (r : FiberResponse) (k : string) :
  (forall vs, (k, vs) ∈ l -> vs = []) ->
  Headers (foldl (fun r kv => match snd kv with v :: _ => Set_ r (fst kv) v | [] => r end) r l)
    !! k = Headers r !! k.
Proof.
  revert r; induction l as [|[k' vs] l IH]; intros r Hk; simpl; [reflexivity |].
  rewrite IH by (intros vs' Hin; apply Hk; now right).
  destruct vs as [|v vs]; [reflexivity |]. simpl.
  destruct (decide (k' = k)) as [-> | Hne].
  - discriminate (Hk (v :: vs)). now left.
  - cbn [Set_ Headers]. now rewrite lookup_insert_ne.
Qed.

Lemma setFirstValues_loop_head (l : list (string * list string)) (r : FiberResponse)
    (k v : string) (vs : list string) :
  NoDup l.*1 -> (k, v :: vs) ∈ l ->
  Headers (foldl (fun r kv => match snd kv with v :: _ => Set_ r (fst kv) v | [] => r end) r l)
    !! k = Some v.
Proof.
  revert r; induction l as [|[k' vs'] l IH]; intros r Hnd Hin; simpl.
  - now apply elem_of_nil in Hin.
  - apply NoDup_cons in Hnd as [Hfresh Hnd].
    apply elem_of_cons in Hin as [Heq | Hin].
    + injection Heq as <- <-.
      rewrite setFirstValues_loop_other.
      * simpl. apply lookup_insert_eq.
      * intros vs'' Hin'. exfalso. apply Hfresh.
        apply list_elem_of_fmap. now exists (k, vs'').
    + now apply IH.
Qed.

(** X1.  The two ways the handlers copy the backend's response headers
    differ on a repeated header: [forwardResponse] leaves the last value of
    each header on the client's response, the copy loop of [PutObject]
    leaves the first; both leave every other response header and the status
    and body written so far untouched. *)
Theorem response_header_copy (r : FiberResponse) (h : Header) :
  (forall k vs v, h !! k = Some vs -> last vs = Some v ->
     Headers (setAllValues r h) !! k = Some v) /\
  (forall k v vs, h !! k = Some (v :: vs) ->
     Headers (setFirstValues r h) !! k = Some v) /\
  (forall k, (h !! k = None \/ h !! k = Some []) ->
     Headers (setAllValues r h) !! k = Headers r !! k /\
     Headers (setFirstValues r h) !! k = Headers r !! k) /\
  Status (setAllValues r h) = Status r /\ Payload (setAllValues r h) = Payload r /\
  Status (setFirstValues r h) = Status r /\ Payload (setFirstValues r h) = Payload r.
Proof.
  unfold setAllValues, setFirstValues.
  assert (forall k vs, (k, vs) ∈ rangeOrder h <-> h !! k = Some vs) as Helem.
  { intros k vs. rewrite (rangeOrder_perm h). apply elem_of_map_to_list. }
  assert (NoDup (rangeOrder h).*1) as Hnd.
  { rewrite (rangeOrder_perm h). apply NoDup_fst_map_to_list. }
  split; [| split; [| split]].
  - intros k vs v Hk Hlast. apply (setAllValues_loop_last _ _ k v vs); [assumption | | assumption].
    now apply Helem.
  - intros k v vs Hk. apply (setFirstValues_loop_head _ _ k v vs); [assumption |].
    now apply Helem.
  - intros k Hk.
    assert (forall vs, (k, vs) ∈ rangeOrder h -> vs = []) as Hnone.
    { intros vs Hin. apply Helem in Hin. destruct Hk as [Hk | Hk]; congruence. }
    split; [now apply setAllValues_loop_other | now apply setFirstValues_loop_other].
  - destruct (setAllValues_loop_Status_Payload (rangeOrder h) r) as [-> ->].
    destruct (setFirstValues_loop_Status_Payload (rangeOrder h) r) as [-> ->].
    auto.
Qed.

(** *** The relaying handlers *)

Lemma forwardResponse_relays (r : FiberResponse) (resp : Response) :
  Status (forwardResponse r resp).1 = StatusCode resp /\
  (forall k vs v, RespHeader resp !! k = Some vs -> last vs = Some v ->
     Headers (forwardResponse r resp).1 !! k = Some v) /\
  match readErr (RespBody resp) with
  | None => Payload (forwardResponse r resp).1 = Bytes (data (RespBody resp)) /\
            (forwardResponse r resp).2 = None
  | Some e => Payload (forwardResponse r resp).1 = Payload r /\
              (forwardResponse r resp).2 = Some e
  end.
Proof.
  unfold forwardResponse, ReadAll, setAllValues.
  assert (forall k vs, (k, vs) ∈ rangeOrder (RespHeader resp) <-> RespHeader resp !! k = Some vs)
    as Helem.
  { intros k vs. rewrite (rangeOrder_perm _). apply elem_of_map_to_list. }
  assert (NoDup (rangeOrder (RespHeader resp)).*1) as Hnd.
  { rewrite (rangeOrder_perm _). apply NoDup_fst_map_to_list. }
  destruct (setAllValues_loop_Status_Payload (rangeOrder (RespHeader resp)) r) as [Hst Hpay].
  destruct (readErr (RespBody resp)) as [e |]; cbn [fst snd Status_ Send Status Headers Payload].
  - split; [reflexivity |]. split; [| split; [assumption | reflexivity]].
    intros k vs v Hk Hlast.
    apply (setAllValues_loop_last _ _ k v vs); [assumption | now apply Helem | assumption].
  - split; [reflexivity |]. split; [| split; reflexivity].
    intros k vs v Hk Hlast.
    apply (setAllValues_loop_last _ _ k v vs); [assumption | now apply Helem | assumption].
Qed.

(** X2.  [ListBuckets], [CreateBucket], [GetObject] and [HeadObject] make
    exactly one call, the forward of the request to the backend, and consult
    neither the key gateway nor the metadata service.  Whatever status the
    backend answers with, errors included, the client receives that status,
    the body as read and the last value of every backend header; only when
    the forward itself fails does the client receive a 500 with code
    [InternalError]. *)
Theorem relay_handlers_pass_through {W : Type} (o : World W) (w : W) (h : relay) (c : Ctx) :
  exists fr err,
    exec o (relayHandler h c) w =
      ((fr, err), (o _ (relayCall h c) w).2, [anyCall (relayCall h c)]) /\
    match (o _ (relayCall h c) w).1 with
    | Err _ =>
        Status fr = 500 /\ err = None /\
        exists msg, Payload fr = XMLError (mkErrorResponse "InternalError" msg)
    | Ok resp =>
        Status fr = StatusCode resp /\
        (forall k vs v, RespHeader resp !! k = Some vs -> last vs = Some v ->
           Headers fr !! k = Some v) /\
        match readErr (RespBody resp) with
        | None => Payload fr = Bytes (data (RespBody resp)) /\ err = None
        | Some e => err = Some e
        end
    end.
Proof.
  destruct h; cbn [relayHandler relayCall];
    unfold ListBuckets, CreateBucket, GetObject, HeadObject; cbn [bind call exec];
    match goal with |- context [o _ ?c w] => destruct (o _ c w) as [[resp | e] w1] end;
    cbn [exec fst snd].
  all: try (eexists _, _; split; [reflexivity |];
            cbn [xmlError XML Status_ Status Payload fst];
            split; [reflexivity |]; split; [reflexivity |]; eexists; reflexivity).
  all: destruct (forwardResponse (Response_ c) resp) as [fr err] eqn:Hfwd;
       exists fr, err; (split; [reflexivity |]);
       pose proof (forwardResponse_relays (Response_ c) resp) as (Hst & Hhdr & Hbody);
       rewrite Hfwd in Hst, Hhdr, Hbody; cbn [fst snd] in *;
       (split; [exact Hst |]); (split; [exact Hhdr |]);
       destruct (readErr (RespBody resp)); [exact (proj2 Hbody) | exact Hbody].
Qed.

(** X3.  [DeleteObject] asks the backend to delete the object and then its
    sidecar record [<key>.metadata], in that order and with the client's
    headers, and answers 204 whatever the backend answered to either
    request, refusal and unreachable backend included. *)
Theorem DeleteObject_always_204 {W : Type} (o : World W) (w : W) (c : Ctx) :
  let object := "/" +:+ Params_bucket c +:+ "/" +:+ Params_star c in
  let deleteObject := S3_ForwardRequest "DELETE" object None (extractHeaders c) None in
  let deleteRecord :=
    S3_ForwardRequest "DELETE" (object +:+ ".metadata") None (extractHeaders c) None in
  exists fr w',
    exec o (DeleteObject c) w =
      ((fr, None), w', [anyCall deleteObject; anyCall deleteRecord]) /\
    Status fr = 204 /\ Headers fr = Headers (Response_ c).
Proof.
  intros object deleteObject deleteRecord.
  unfold DeleteObject. cbn [bind call exec].
  fold object. fold deleteObject.
  destruct (o _ deleteObject w) as [r1 w1].
  replace ("/" +:+ Params_bucket c +:+ "/" +:+ Params_star c +:+ ".metadata")
    with (object +:+ ".metadata")
    by (unfold object; now rewrite !string_app_assoc).
  fold deleteRecord.
  destruct (o _ deleteRecord w1) as [r2 w2].
  eexists _, w2. split; [reflexivity |]. split; reflexivity.
Qed.

(** X4.  [PutObject] turns a request down with status 400 and code
    [InvalidRequest] before anything reaches the backend: without a call at
    all when the bucket or the key is missing or no KMS key ARN header is
    present, and after the key resolution alone when the key gateway rejects
    the ARN, whose error text becomes the message. *)
Theorem PutObject_rejects_before_backend {W : Type} (o : World W) (w : W) (c : Ctx) :
  (Params_bucket c = EmptyString \/ Params_star c = EmptyString ->
   exec o (PutObject c) w =
     (xmlError (Response_ c) 400 "InvalidRequest" "Missing bucket or key", w, [])) /\
  (Params_bucket c <> EmptyString -> Params_star c <> EmptyString ->
   forall e, getKMSKeyARN c = Err e ->
   exec o (PutObject c) w =
     (xmlError (Response_ c) 400 "InvalidRequest" (Error e), w, [])) /\
  (Params_bucket c <> EmptyString -> Params_star c <> EmptyString ->
   forall arn transitKey e w1,
     getKMSKeyARN c = Ok arn ->
     o _ (Vault_ARNToVaultKey arn) w = ((transitKey, Some e), w1) ->
     exec o (PutObject c) w =
       (xmlError (Response_ c) 400 "InvalidRequest" (Error e), w1,
        [anyCall (Vault_ARNToVaultKey arn)])).
Proof.
  unfold PutObject. split; [| split].
  - intros [-> | ->]; [reflexivity |].
    now rewrite orb_true_r.
  - intros Hb Hk e Harn. rewrite !eqb_empty_false by assumption. cbn [orb].
    now rewrite Harn.
  - intros Hb Hk arn tk e w1 Harn Hvault.
    rewrite !eqb_empty_false by assumption. cbn [orb].
    rewrite Harn. cbn [bind call exec]. rewrite Hvault. reflexivity.
Qed.

(** X5.  When the backend refuses the PUT of [PutObject] with a status of
    400 or more, the client receives that status with an empty body and
    with no header added, the KMS headers included; when the forward itself
    fails, the client receives a 500 with code [InternalError]. *)
Theorem PutObject_backend_failure {W : Type} (o : World W) (w w1 w2 : W) (c : Ctx)
    (arn transitKey : string) (answer : result Response) :
  Params_bucket c <> EmptyString ->
  Params_star c <> EmptyString ->
  getKMSKeyARN c = Ok arn ->
  o _ (Vault_ARNToVaultKey arn) w = ((transitKey, None), w1) ->
  o _ (S3_ForwardRequest "PUT" ("/" +:+ Params_bucket c +:+ "/" +:+ Params_star c)
                         (Some (BytesReader (RequestBody c))) (extractHeaders c)
                         (Some (QueryString c))) w1 = (answer, w2) ->
  exists fr tr,
    exec o (PutObject c) w = ((fr, None), w2, tr) /\ length tr = 2%nat /\
    match answer with
    | Ok resp =>
        400 <= StatusCode resp ->
        Status fr = StatusCode resp /\ Payload fr = NoBody /\
        Headers fr = Headers (Response_ c)
    | Err _ =>
        Status fr = 500 /\
        Payload fr = XMLError (mkErrorResponse "InternalError" "Failed to store object") /\
        Headers fr !! "x-amz-server-side-encryption"%string
          = Headers (Response_ c) !! "x-amz-server-side-encryption"%string
    end.
Proof.
  intros Hb Hk Harn Hvault Hput. unfold PutObject.
  rewrite !eqb_empty_false by assumption. cbn [orb].
  rewrite Harn. cbn [bind call exec]. rewrite Hvault.
  cbn [snd bind call exec]. rewrite Hput.
  destruct answer as [resp | e].
  - destruct (400 <=? StatusCode resp) eqn:H400; cbn [exec].
    + eexists _, _. split; [reflexivity |]. split; [reflexivity |].
      intros _. repeat split.
    + eexists _, _. split; [reflexivity |]. split; [reflexivity |].
      intros Hge. apply Z.leb_gt in H400. lia.
  - cbn [exec]. eexists _, _. split; [reflexivity |]. split; [reflexivity |].
    cbn [xmlError XML Status_ Status Payload Headers fst].
    split; [reflexivity |]. split; [reflexivity |].
    now rewrite lookup_insert_ne by (intros H; discriminate H).
Qed.

(** X6.  [ListObjects] falls back without asking the metadata service: a
    failed forward gives a 500, a backend status of 400 or more is relayed
    as it is, an unreadable body gives a 500, and a body that is not a
    listing is relayed raw with the backend's status; in each case the
    forward of the listing request is the only call. *)
Theorem ListObjects_fallbacks {W : Type} (o : World W) (w : W) (c : Ctx) :
  let listing := S3_ForwardRequest "GET" ("/" +:+ Params_bucket c) None (extractHeaders c)
                                   (Some (QueryString c)) in
  exists fr err,
    match (o _ listing w).1 with
    | Err _ =>
        exec o (ListObjects c) w = ((fr, err), (o _ listing w).2, [anyCall listing]) /\
        Status fr = 500 /\ err = None /\
        Payload fr = XMLError (mkErrorResponse "InternalError" "Failed to list objects")
    | Ok resp =>
        (400 <= StatusCode resp ->
         exec o (ListObjects c) w = ((fr, err), (o _ listing w).2, [anyCall listing]) /\
         (fr, err) = forwardResponse (Response_ c) resp /\ Status fr = StatusCode resp) /\
        (StatusCode resp < 400 ->
         match readErr (RespBody resp) with
         | Some _ =>
             exec o (ListObjects c) w = ((fr, err), (o _ listing w).2, [anyCall listing]) /\
             Status fr = 500 /\ err = None /\
             Payload fr =
               XMLError (mkErrorResponse "InternalError" "Failed to read list response")
         | None =>
             forall e, xml_Unmarshal (data (RespBody resp)) = Err e ->
             exec o (ListObjects c) w = ((fr, err), (o _ listing w).2, [anyCall listing]) /\
             Status fr = StatusCode resp /\ err = None /\
             Payload fr = Bytes (data (RespBody resp))
         end)
    end.
Proof.
  intros listing. unfold ListObjects. cbn [bind call exec]. fold listing.
  destruct (o _ listing w) as [[resp | e] w1]; cbn [fst snd].
  - destruct (400 <=? StatusCode resp) eqn:H400.
    + destruct (forwardResponse (Response_ c) resp) as [fr err] eqn:Hfwd.
      exists fr, err. split.
      * intros _. cbn [exec]. split; [reflexivity |]. split; [reflexivity |].
        pose proof (forwardResponse_relays (Response_ c) resp) as (Hst & _).
        now rewrite Hfwd in Hst.
      * intros Hlt. apply Z.leb_le in H400. lia.
    + unfold ReadAll. destruct (readErr (RespBody resp)) as [e |].
      * eexists _, _. split; [intros Hge; apply Z.leb_gt in H400; lia |].
        intros _. cbn [exec xmlError]. repeat split.
      * destruct (xml_Unmarshal (data (RespBody resp))) as [l | e] eqn:Hxml.
        -- exists (Response_ c), None. split; [intros Hge; apply Z.leb_gt in H400; lia |].
           intros _ e He. discriminate He.
        -- eexists _, _. split; [intros Hge; apply Z.leb_gt in H400; lia |].
           intros _ e' _. cbn [exec forwardRawResponse]. split; [reflexivity |].
           destruct (setAllValues_loop_Status_Payload
                       (rangeOrder (RespHeader resp)) (Response_ c)) as [Hst Hpay].
           repeat split.
  - eexists _, _. cbn [exec xmlError]. repeat split.
Qed.

(** *** Headers as received *)

Lemma extractHeaders_fold (l : list (string * string)) (acc : Header) (k : string) :
  foldl (fun (headers : Header) kv =>
           <[fst kv := default [] (headers !! fst kv) ++ [snd kv]]> headers) acc l !! k
  = match map snd (List.filter (fun kv => String.eqb (fst kv) k) l) with
    | [] => acc !! k
    | vs => Some (default [] (acc !! k) ++ vs)
    end.
Proof. apply extractHeaders_loop. Qed.

(** X7.  [extractHeaders] groups what the client sent by header name as
    written: under each name it holds exactly the values received under that
    very name (no other letter case), in the order received; a name is
    present if and only if some header was received under it, and no name
    is mapped to an empty list. *)
Theorem extractHeaders_groups_by_exact_name (c : Ctx) (k : string) :
  (extractHeaders c !! k =
     match receivedValues c k with [] => None | vs => Some vs end) /\
  (is_Some (extractHeaders c !! k) <-> exists v, In (k, v) (RequestHeaders c)) /\
  extractHeaders c !! k <> Some [].
Proof.
  assert (extractHeaders c !! k =
          match receivedValues c k with [] => None | vs => Some vs end) as Hlook.
  { unfold extractHeaders, receivedValues. rewrite extractHeaders_fold, lookup_empty.
    now destruct (map snd _). }
  split; [exact Hlook |]. split.
  - rewrite Hlook. unfold receivedValues. split.
    + intros Hsome.
      destruct (List.filter (fun kv => String.eqb (fst kv) k) (RequestHeaders c))
        as [|[k' v] rest] eqn:Hf; [simpl in Hsome; now destruct Hsome |].
      assert (In (k', v) (List.filter (fun kv => String.eqb (fst kv) k) (RequestHeaders c)))
        as Hin by (rewrite Hf; now left).
      apply filter_In in Hin as [Hin Hk]. simpl in Hk. apply String.eqb_eq in Hk; subst k'.
      now exists v.
    + intros [v Hin].
      assert (In (k, v) (List.filter (fun kv => String.eqb (fst kv) k) (RequestHeaders c)))
        as Hin' by (apply filter_In; split; [assumption | apply String.eqb_refl]).
      destruct (List.filter _ (RequestHeaders c)) as [|kv rest]; [destruct Hin' |].
      simpl. eauto.
  - rewrite Hlook. now destruct (receivedValues c k).
Qed.

End RelayFacts.

(** ** Configuration *)

Section Configuration.

Import gostrings config.

Lemma getEnv_value (env : Env) (key defaultValue : string) :
  getEnv env key defaultValue = if String.eqb (env key) "" then defaultValue else env key.
Proof. unfold getEnv. now destruct (String.eqb (env key) ""). Qed.

Lemma getEnv_empty_default (env : Env) (key : string) : getEnv env key "" = env key.
Proof.
  rewrite getEnv_value. destruct (String.eqb (env key) "") eqn:H; [| reflexivity].
  apply String.eqb_eq in H. now rewrite H.
Qed.

(** X22.  [LoadConfig] succeeds exactly when [S3_ENDPOINT] and [VAULT_ADDR]
    are set to non-empty values, and names the first missing one otherwise.
    It never fails for want of a Vault token: the token path it validates
    is never empty, because an unset or empty [VAULT_TOKEN_PATH] is
    replaced by the default path.  A configuration it returns passes
    [Validate] and carries the endpoint, address and token of the
    environment. *)
Theorem LoadConfig_requirements (env : Env) :
  ((exists cfg, LoadConfig env = Ok cfg) <->
   env "S3_ENDPOINT"%string <> EmptyString /\ env "VAULT_ADDR"%string <> EmptyString) /\
  (env "S3_ENDPOINT"%string = EmptyString ->
   LoadConfig env = Err (Errorf "invalid configuration: S3_ENDPOINT is required")) /\
  (env "S3_ENDPOINT"%string <> EmptyString -> env "VAULT_ADDR"%string = EmptyString ->
   LoadConfig env = Err (Errorf "invalid configuration: VAULT_ADDR is required")) /\
  (forall cfg, LoadConfig env = Ok cfg ->
     Validate env cfg = None /\
     S3Endpoint cfg = env "S3_ENDPOINT"%string /\
     VaultAddr cfg = env "VAULT_ADDR"%string /\
     VaultToken cfg = env "VAULT_TOKEN"%string /\
     VaultTokenPath cfg <> EmptyString /\
     Port cfg <> EmptyString).
Proof.
  assert (getEnv env "VAULT_TOKEN_PATH" "/vault/secrets/token" <> EmptyString) as Hpath.
  { rewrite getEnv_value. destruct (String.eqb _ "") eqn:H; [intros E; discriminate E |].
    now apply String.eqb_neq in H. }
  assert (getEnv env "PORT" "9000" <> EmptyString) as Hport.
  { rewrite getEnv_value. destruct (String.eqb _ "") eqn:H; [intros E; discriminate E |].
    now apply String.eqb_neq in H. }
  unfold LoadConfig, Validate.
  cbn [S3Endpoint VaultAddr VaultToken VaultTokenPath].
  rewrite !getEnv_empty_default.
  rewrite (eqb_empty_false _ Hpath). cbn [negb andb]. rewrite !andb_false_r.
  destruct (String.eqb (env "S3_ENDPOINT"%string) "") eqn:Hs3.
  - apply String.eqb_eq in Hs3. cbn [Error].
    split; [| split; [| split]].
    + split; [intros [cfg H]; discriminate H | intros [H _]; contradiction].
    + reflexivity.
    + intros H; contradiction.
    + intros cfg H; discriminate H.
  - apply String.eqb_neq in Hs3.
    destruct (String.eqb (env "VAULT_ADDR"%string) "") eqn:Hva; cbn [andb Error].
    + apply String.eqb_eq in Hva.
      split; [| split; [| split]].
      * split; [intros [cfg H]; discriminate H | intros [_ H]; contradiction].
      * intros H; contradiction.
      * reflexivity.
      * intros cfg H; discriminate H.
    + apply String.eqb_neq in Hva.
      split; [| split; [| split]].
      * split; [intros _; now split | intros _; eauto].
      * intros H; contradiction.
      * intros _ H; contradiction.
      * intros cfg H. injection H as <-.
        cbn [S3Endpoint VaultAddr VaultToken VaultTokenPath Port].
        rewrite ?getEnv_empty_default.
        rewrite (eqb_empty_false _ Hs3), (eqb_empty_false _ Hva), (eqb_empty_false _ Hpath).
        cbn [negb andb]. rewrite !andb_false_r.
        repeat split; assumption.
Qed.

(** X23.  [getBoolEnv] and [getIntEnv] return the parsed value whenever the
    variable parses and the default otherwise, an unset or empty variable
    being one that does not parse; so the startup message, disabled by
    default, is enabled exactly by one of the six spellings of false, and
    [getEnv] returns the empty string only when both the variable and the
    default are empty. *)
Theorem environment_readers (env : Env) (key : string) :
  (forall d, getBoolEnv env key d = default d (ParseBool (env key))) /\
  (forall d, getIntEnv env key d = default d (ParseInt (env key))) /\
  (forall d, getEnv env key d = EmptyString <-> env key = EmptyString /\ d = EmptyString) /\
  (getBoolEnv env "DISABLE_STARTUP_MSG" true = false <->
   In (env "DISABLE_STARTUP_MSG"%string) ["0"; "f"; "F"; "false"; "FALSE"; "False"]%string).
Proof.
  split; [| split; [| split]].
  - intros d. unfold getBoolEnv.
    destruct (String.eqb (env key) "") eqn:H; [| reflexivity].
    apply String.eqb_eq in H. now rewrite H.
  - intros d. unfold getIntEnv.
    destruct (String.eqb (env key) "") eqn:H; [| reflexivity].
    apply String.eqb_eq in H. now rewrite H.
  - intros d. rewrite getEnv_value.
    destruct (String.eqb (env key) "") eqn:H.
    + apply String.eqb_eq in H. split; [intros ->; now split | intros [_ ->]; reflexivity].
    + apply String.eqb_neq in H. split; [intros E; contradiction | intros [E _]; contradiction].
  - unfold getBoolEnv, ParseBool.
    set (v := env "DISABLE_STARTUP_MSG"%string).
    destruct (String.eqb v "") eqn:Hv.
    { apply String.eqb_eq in Hv. rewrite Hv. cbn.
      split; [intros H; discriminate H |].
      intros H. repeat (destruct H as [H | H]; [discriminate H |]). destruct H. }
    cbn [negb].
    destruct (existsb (String.eqb v) ["1"; "t"; "T"; "true"; "TRUE"; "True"]%string) eqn:Ht.
    { split; [intros H; discriminate H |].
      apply existsb_exists in Ht as (x & Hx & Heq). apply String.eqb_eq in Heq. subst x.
      intros H. cbn in Hx, H.
      repeat (destruct Hx as [Hx | Hx];
              [rewrite <- Hx in H;
               repeat (destruct H as [H | H]; [discriminate H |]); destruct H |]).
      destruct Hx. }
    destruct (existsb (String.eqb v) ["0"; "f"; "F"; "false"; "FALSE"; "False"]%string) eqn:Hf.
    + split; [intros _ | reflexivity].
      apply existsb_exists in Hf as (x & Hx & Heq). apply String.eqb_eq in Heq. now subst x.
    + split; [intros H; discriminate H |].
      intros Hin. assert (existsb (String.eqb v)
                            ["0"; "f"; "F"; "false"; "FALSE"; "False"]%string = true) as E.
      { apply existsb_exists. exists v. split; [assumption | apply String.eqb_refl]. }
      rewrite E in Hf. discriminate Hf.
Qed.

End Configuration.

(** ** The metadata service: filtering, storing, probing *)

Section MetadataService.

Import gostrings http types metadata reference.

Context `{RT : Runtime} `{EN : Encoder}.

Lemma filter_sublist_of {A : Type} (f : A -> bool) (l : list A) :
  sublist (List.filter f l) l.
Proof.
  induction l as [|a l IH]; simpl; [constructor |].
  destruct (f a); [now apply sublist_skip | now apply sublist_cons].
Qed.

Lemma filter_idem {A : Type} (f : A -> bool) (l : list A) :
  List.filter f (List.filter f l) = List.filter f l.
Proof.
  induction l as [|a l IH]; simpl; [reflexivity |].
  destruct (f a) eqn:Hf; simpl; [rewrite Hf, IH |]; auto.
Qed.

(** X8.  [FilterMetadataObjects] keeps, in their order, exactly the objects
    whose key does not end in [.metadata]: the result is a subsequence of
    the listing, no key of the form [getMetadataKey k] survives, filtering
    twice changes nothing more, and a listing without such keys comes back
    unchanged. *)
Theorem FilterMetadataObjects_hides_sidecars (contents : list Content) :
  (forall obj, In obj (FilterMetadataObjects contents) <->
               In obj contents /\ forall k, Key obj <> getMetadataKey k) /\
  sublist (FilterMetadataObjects contents) contents /\
  FilterMetadataObjects (FilterMetadataObjects contents) = FilterMetadataObjects contents /\
  ((forall obj k, In obj contents -> Key obj <> getMetadataKey k) ->
   FilterMetadataObjects contents = contents).
Proof.
  assert (forall obj, notSidecar obj = true <-> forall k, Key obj <> getMetadataKey k) as Hns.
  { intros obj. unfold notSidecar, getMetadataKey. rewrite negb_true_iff. split.
    - intros Hsuf k Heq.
      assert (HasSuffix (Key obj) ".metadata" = true) as Ht
        by (apply HasSuffix_iff; now exists k).
      congruence.
    - intros Hall. destruct (HasSuffix (Key obj) ".metadata") eqn:Hsuf; [| reflexivity].
      apply HasSuffix_iff in Hsuf as [p Hp]. now destruct (Hall p). }
  rewrite !FilterMetadataObjects_filter.
  split; [| split; [apply filter_sublist_of | split; [apply filter_idem |]]].
  - intros obj. rewrite filter_In, Hns. reflexivity.
  - intros Hall. induction contents as [|obj l IH]; [reflexivity |]. simpl.
    assert (notSidecar obj = true) as -> by (apply Hns; intros k; apply Hall; now left).
    f_equal. apply IH. intros o k Hin. apply Hall. now right.
Qed.

(** X9.  [Store] writes the serialized record with one PUT to
    [/<bucket>/<key>.metadata], passing the caller's headers on, and reports
    success exactly when the backend answers with a status below 400; when
    the record cannot be serialized it reports the error without calling
    the backend. *)
Theorem Store_outcome {W : Type} (o : World W) (w : W) (bucket key : string)
    (m : ObjectMetadata) (headers : Header) :
  match json_Marshal m with
  | Err e =>
      exec o (Store bucket key m headers) w =
        (Some (Errorf ("failed to marshal metadata: " +:+ Error e)), w, [])
  | Ok metadataBytes =>
      let put := S3_ForwardRequest "PUT" ("/" +:+ bucket +:+ "/" +:+ key +:+ ".metadata")
                                   (Some (BytesReader metadataBytes)) headers None in
      exists outcome,
        exec o (Store bucket key m headers) w = (outcome, (o _ put w).2, [anyCall put]) /\
        (outcome = None <->
         exists resp, (o _ put w).1 = Ok resp /\ StatusCode resp < 400)
  end.
Proof.
  unfold Store, getMetadataKey. destruct (json_Marshal m) as [bytes | e]; [| reflexivity].
  set (put := S3_ForwardRequest _ _ _ _ _). cbn [bind call exec]. fold put.
  destruct (o _ put w) as [[resp | e] w1]; cbn [fst snd].
  - destruct (400 <=? StatusCode resp) eqn:H400; cbn [exec]; eexists; (split; [reflexivity |]).
    + apply Z.leb_le in H400. split; [intros H; discriminate H |].
      intros (resp' & Heq & Hlt). injection Heq as <-. lia.
    + apply Z.leb_gt in H400. split; [| reflexivity].
      intros _. now exists resp.
  - eexists; split; [reflexivity |]. split; [intros H; discriminate H |].
    intros (resp' & Heq & _). discriminate Heq.
Qed.

(** X10.  [Store] followed by [Get] for the same bucket and key returns the
    record stored, provided the backend accepts the PUT, answers the GET of
    the same name with the bytes it was given and the decoder inverts the
    encoder on this record: both name the sidecar object
    [/<bucket>/<key>.metadata]. *)
Theorem Store_then_Get {W : Type} (o : World W) (w w1 w2 : W) (bucket key : string)
    (m : ObjectMetadata) (headers : Header) (metadataBytes : string)
    (stored answer : Response) :
  json_Marshal m = Ok metadataBytes ->
  json_Unmarshal metadataBytes = Ok m ->
  o _ (S3_ForwardRequest "PUT" ("/" +:+ bucket +:+ "/" +:+ key +:+ ".metadata")
                         (Some (BytesReader metadataBytes)) headers None) w
    = (Ok stored, w1) ->
  StatusCode stored < 400 ->
  o _ (S3_ForwardRequest "GET" ("/" +:+ bucket +:+ "/" +:+ key +:+ ".metadata")
                         None headers None) w1
    = (Ok answer, w2) ->
  StatusCode answer < 400 ->
  ReadAll (RespBody answer) = (metadataBytes, None) ->
  (exec o (do _e <- Store bucket key m headers; Get bucket key headers) w).1
  = (Ok m, w2).
Proof.
  intros Hmar Hunmar Hput Hst Hget Hst' Hread.
  rewrite exec_bind.
  unfold Store, getMetadataKey. rewrite Hmar. cbn [bind call exec]. rewrite Hput.
  destruct (400 <=? StatusCode stored) eqn:H400; [apply Z.leb_le in H400; lia |].
  cbn [exec].
  rewrite (Get_exec o w1 w2 bucket key headers answer Hget). cbn [fst].
  f_equal. apply getResponse_record. split; [assumption |].
  now exists metadataBytes.
Qed.

(** X11.  [Exists] probes the object itself, not its sidecar record, with
    one HEAD through the S3 client, and answers true exactly when the
    backend answers 200 or 204; a failed request counts as absent. *)
Theorem Exists_probes_object {W : Type} (o : World W) (w : W) (bucket key : string)
    (headers : Header) :
  let head := S3_HeadObject bucket key headers in
  exists found,
    exec o (Exists bucket key headers) w = (found, (o _ head w).2, [anyCall head]) /\
    (found = true <->
     exists resp, (o _ head w).1 = Ok resp /\ (StatusCode resp = 200 \/ StatusCode resp = 204)).
Proof.
  intros head. unfold Exists. cbn [bind call exec]. fold head.
  destruct (o _ head w) as [[resp | e] w1]; cbn [exec fst snd]; eexists; (split; [reflexivity |]).
  - rewrite orb_true_iff, !Z.eqb_eq. split.
    + intros H. now exists resp.
    + intros (resp' & Heq & H). now injection Heq as <-.
  - split; [intros H; discriminate H |]. intros (resp' & Heq & _). discriminate Heq.
Qed.

End MetadataService.

(** ** The client of the secret service *)

Section VaultClient.

Import vaultclient reference.

Context `{LIB : Library}.

Lemma run_andThen {V A B : Type} (m : Machine V) (p : Act A) (f : A -> Act B) (v : V) :
  run m (andThen p f) v =
  match run m p v with
  | (Some a, v1, t1) => let '(b, v2, t2) := run m (f a) v1 in (b, v2, t1 ++ t2)
  | (None, v1, t1) => (None, v1, t1)
  end.
Proof.
  revert v; induction p as [a | X op k IH | msg]; intros v; cbn [andThen run].
  - now destruct (run m (f a) v) as [[b v2] t2].
  - destruct (m X op v) as [x v']. rewrite IH.
    destruct (run m (k x) v') as [[[a |] v1] t1]; [| reflexivity].
    now destruct (run m (f a) v1) as [[b v2] t2].
  - reflexivity.
Qed.

(** What [setToken] does, case by case. *)
Lemma setToken_run {V : Type} (m : Machine V) (v v1 v2 : V) (c : Client)
    (api : ApiClient) (vaultToken path : string) (file : result string) (envToken : string) :
  client c = Some api ->
  m _ (ReadFile path) v = (file, v1) ->
  m _ (Getenv "VAULT_TOKEN") v1 = (envToken, v2) ->
  run m (setToken c vaultToken path) v =
    if negb (String.eqb (offered file) "") then
      (Some (presenting c api (offered file) true, None), v1, [anyOp (ReadFile path)])
    else if negb (String.eqb vaultToken "") then
      (Some (presenting c api vaultToken false, None), v1, [anyOp (ReadFile path)])
    else if negb (String.eqb envToken "") then
      (Some (presenting c api envToken false, None), v2,
       [anyOp (ReadFile path); anyOp (Getenv "VAULT_TOKEN")])
    else
      (Some (c, Some (Errorf ("no vault token found in file " +:+ path +:+
                              ", provided token, or VAULT_TOKEN environment variable"))),
       v2, [anyOp (ReadFile path); anyOp (Getenv "VAULT_TOKEN")]).
Proof.
  intros Hc Hread Henv.
  unfold setToken, presenting, SetToken.
  cbn [andThen ask run]. rewrite Hread.
  assert (match file with
          | Ok tokenBytes =>
              if negb (String.eqb (TrimSpace tokenBytes) "")
              then Some (TrimSpace tokenBytes) else None
          | Err _ => None
          end = if negb (String.eqb (offered file) "") then Some (offered file) else None)
    as -> by (destruct file; reflexivity).
  destruct (String.eqb (offered file) "") eqn:Hfile;
    destruct (String.eqb vaultToken "") eqn:Hexp;
    destruct (String.eqb envToken "") eqn:Henvt;
    cbn [negb andThen ask run]; rewrite ?Henv, ?Henvt, ?Hexp, ?Hfile, ?Hc;
    cbn [negb andThen ask run]; rewrite ?Hexp, ?Hfile, ?Henvt; reflexivity.
Qed.

(** X24.  [setToken] takes the first token on offer among the token file
    (read and trimmed), the token passed in and [VAULT_TOKEN], in that
    order: it succeeds exactly when one of them is not empty, the client
    then presents that token to the same address and records whether it
    came from the file; the environment is read only when the first two
    offer nothing; and on failure the client is left as it was. *)
Theorem setToken_priority {V : Type} (m : Machine V) (v v1 v2 : V) (c : Client)
    (api : ApiClient) (vaultToken path : string) (file : result string) (envToken : string) :
  client c = Some api ->
  m _ (ReadFile path) v = (file, v1) ->
  m _ (Getenv "VAULT_TOKEN") v1 = (envToken, v2) ->
  let chosen := firstNonEmpty [offered file; vaultToken; envToken] in
  exists c' err tr,
    run m (setToken c vaultToken path) v
      = (Some (c', err), if String.eqb (firstNonEmpty [offered file; vaultToken]) ""
                         then v2 else v1, tr) /\
    (err = None <-> chosen <> EmptyString) /\
    (chosen <> EmptyString ->
     c' = presenting c api chosen (negb (String.eqb (offered file) ""))) /\
    (chosen = EmptyString -> c' = c) /\
    tr = if String.eqb (firstNonEmpty [offered file; vaultToken]) ""
         then [anyOp (ReadFile path); anyOp (Getenv "VAULT_TOKEN")]
         else [anyOp (ReadFile path)].
Proof.
  intros Hc Hread Henv chosen. subst chosen.
  rewrite (setToken_run m v v1 v2 c api vaultToken path file envToken Hc Hread Henv).
  unfold firstNonEmpty. cbn [List.find].
  destruct (String.eqb (offered file) "") eqn:Hfile;
    destruct (String.eqb vaultToken "") eqn:Hexp;
    destruct (String.eqb envToken "") eqn:Henvt;
    cbn [negb default from_option id String.eqb]; rewrite ?Hexp, ?Hfile, ?Henvt;
    try apply String.eqb_neq in Hfile; try apply String.eqb_neq in Hexp;
    try apply String.eqb_neq in Henvt;
    (eexists _, _, _; split; [reflexivity |]);
    (split; [split; intros H; first [discriminate H | now destruct H | assumption
                                    | reflexivity] |]);
    (split; [first [reflexivity | intros H; now destruct H] |]);
    (split; [first [reflexivity | intros H; contradiction] | reflexivity]).
Qed.

(** *** The token watcher *)

Lemma watchTicks_run {V : Type} (m : Machine V) (n : nat) (v : V) (c : Client)
    (api : ApiClient) (lastToken : string) :
  client c = Some api ->
  lastToken = EmptyString \/ lastToken = Token api ->
  exists lastToken',
    run m (watchTicks n c lastToken) v =
      (Some (presenting c api (latestToken (Token api) (fileReads m (tokenPath c) n v).1)
                        (usingTokenFile c), lastToken'),
       (fileReads m (tokenPath c) n v).2,
       replicate n (anyOp (ReadFile (tokenPath c)))).
Proof.
  revert v c api lastToken; induction n as [|n IH]; intros v c api lastToken Hc Hlast.
  - exists lastToken. cbn. unfold presenting, latestToken. cbn.
    destruct c as [cl tp utf]; cbn in *. subst cl. now destruct api.
  - cbn [watchTicks andThen ask run fileReads].
    destruct (m _ (ReadFile (tokenPath c)) v) as [file v1] eqn:Hread.
    assert (forall c1 api1 last1,
              client c1 = Some api1 -> tokenPath c1 = tokenPath c ->
              usingTokenFile c1 = usingTokenFile c -> ApiAddress api1 = ApiAddress api ->
              Token api1 = latestToken (Token api) [file] ->
              last1 = EmptyString \/ last1 = Token api1 ->
              exists lastToken',
                (let '(a, v'', tr) := run m (watchTicks n c1 last1) v1 in
                 (a, v'', anyOp (ReadFile (tokenPath c)) :: tr)) =
                (Some (presenting c api
                         (latestToken (Token api)
                            (let '(rs, v2) := fileReads m (tokenPath c) n v1 in
                             (file :: rs, v2)).1)
                         (usingTokenFile c), lastToken'),
                 (let '(rs, v2) := fileReads m (tokenPath c) n v1 in (file :: rs, v2)).2,
                 replicate (S n) (anyOp (ReadFile (tokenPath c))))) as Hstep.
    { intros c1 api1 last1 Hc1 Hpath Hutf Haddr Htok Hl1.
      destruct (IH v1 c1 api1 last1 Hc1 Hl1) as [last' Hrun].
      rewrite Hrun, Hpath. exists last'.
      destruct (fileReads m (tokenPath c) n v1) as [rs v2]. cbn [fst snd replicate].
      unfold presenting. rewrite Hpath, Hutf, Haddr, Htok. reflexivity. }
    unfold latestToken in Hstep. cbn [foldl] in Hstep.
    destruct file as [tokenBytes | e]; cbn [offered String.eqb] in Hstep.
    + destruct (String.eqb (TrimSpace tokenBytes) "") eqn:Hempty; cbn [negb andb].
      * now apply (Hstep c api lastToken).
      * destruct (String.eqb (TrimSpace tokenBytes) lastToken) eqn:Hsame; cbn [negb].
        -- apply String.eqb_eq in Hsame. apply String.eqb_neq in Hempty.
           apply (Hstep c api lastToken); try reflexivity; try assumption.
           destruct Hlast as [-> | ->]; [now destruct Hempty | now symmetry].
        -- unfold SetToken. rewrite Hc. cbn [andThen].
           apply (Hstep _ (mkApiClient (ApiAddress api) (TrimSpace tokenBytes)));
             try reflexivity. now right.
    + now apply (Hstep c api lastToken).
Qed.

(** X25.  However many ticks have passed, [watchTokenFile] has read the
    token file once per tick and nothing else, and the client presents the
    last non-empty trimmed content it read, or the token it started with
    when no read offered one: an unreadable, empty or blank file never
    clears the token.  Without a token path it returns at once. *)
Theorem watchTokenFile_follows_file {V : Type} (m : Machine V) (n : nat) (v : V)
    (c : Client) (api : ApiClient) :
  client c = Some api ->
  (tokenPath c <> EmptyString ->
   run m (watchTokenFile n c) v =
     (Some (presenting c api (latestToken (Token api) (fileReads m (tokenPath c) n v).1)
                       (usingTokenFile c)),
      (fileReads m (tokenPath c) n v).2,
      replicate n (anyOp (ReadFile (tokenPath c))))) /\
  (tokenPath c = EmptyString -> run m (watchTokenFile n c) v = (Some c, v, [])) /\
  (Token api <> EmptyString ->
   latestToken (Token api) (fileReads m (tokenPath c) n v).1 <> EmptyString).
Proof.
  intros Hc. split; [| split].
  - intros Hpath. unfold watchTokenFile. rewrite (eqb_empty_false _ Hpath).
    rewrite run_andThen.
    destruct (watchTicks_run m n v c api EmptyString Hc (or_introl eq_refl)) as [last' ->].
    cbn [run fst]. now rewrite app_nil_r.
  - intros Hpath. unfold watchTokenFile. rewrite Hpath. reflexivity.
  - generalize (fileReads m (tokenPath c) n v).1. intros reads.
    unfold latestToken. generalize (Token api).
    induction reads as [|file reads IH]; intros token Htoken; cbn [foldl]; [assumption |].
    apply IH. destruct (String.eqb (offered file) "") eqn:H; [assumption |].
    now apply String.eqb_neq in H.
Qed.

(** *** Encrypting and decrypting *)

(** X26.  [Encrypt] and [Decrypt] always return, with either a result and
    no error or an error and the empty result.  Without an API client they
    fail without asking anything; otherwise each makes exactly one write,
    to [transit/encrypt/<key>] with the base64 text of the data under
    [plaintext], or to [transit/decrypt/<key>] with the ciphertext under
    [ciphertext]. *)
Theorem Encrypt_Decrypt_outcome {V : Type} (m : Machine V) (v : V) (c : Client)
    (text transitKey : string) :
  let encryptWrite api :=
    Logical_Write api ("transit/encrypt/" +:+ transitKey)
                  {[ "plaintext"%string := VString (base64_EncodeToString text) ]} in
  let decryptWrite api :=
    Logical_Write api ("transit/decrypt/" +:+ transitKey)
                  {[ "ciphertext"%string := VString text ]} in
  (exists out err v' tr,
     run m (Encrypt c text transitKey) v = (Some (out, err), v', tr) /\
     (err = None \/ out = EmptyString) /\
     match client c with
     | None => err <> None /\ v' = v /\ tr = []
     | Some api =>
         v' = (m _ (encryptWrite api) v).2 /\ tr = [anyOp (encryptWrite api)] /\
         (err = None <->
          exists secret d, (m _ (encryptWrite api) v).1 = Ok (Some secret) /\
                           Data secret = Some d /\
                           d !! "ciphertext"%string = Some (VString out))
     end) /\
  (exists out err v' tr,
     run m (Decrypt c text transitKey) v = (Some (out, err), v', tr) /\
     (err = None \/ out = EmptyString) /\
     match client c with
     | None => err <> None /\ v' = v /\ tr = []
     | Some api =>
         v' = (m _ (decryptWrite api) v).2 /\ tr = [anyOp (decryptWrite api)] /\
         (err = None <->
          exists secret d plaintext,
            (m _ (decryptWrite api) v).1 = Ok (Some secret) /\
            Data secret = Some d /\
            d !! "plaintext"%string = Some (VString plaintext) /\
            base64_DecodeString plaintext = Ok out)
     end).
Proof.
  intros encryptWrite decryptWrite. split.
  - unfold Encrypt. destruct (client c) as [api |].
    + cbn [andThen ask run]. fold (encryptWrite api).
      destruct (m _ (encryptWrite api) v) as [[[[[d |]] |] | e] v1]; cbn [run fst snd Data].
      * destruct (d !! "ciphertext"%string) as [[ct |] |] eqn:Hct; cbn [run];
          eexists _, _, _, _; (split; [reflexivity |]).
        -- split; [now left |]. split; [reflexivity |]. split; [reflexivity |].
           split; [intros _ | reflexivity]. now exists (mkSecret (Some d)), d.
        -- split; [now right |]. split; [reflexivity |]. split; [reflexivity |].
           split; [intros H; discriminate H |].
           intros (s & d' & Hs & Hd & Hl). injection Hs as <-. cbn in Hd.
           injection Hd as <-. rewrite Hct in Hl. discriminate Hl.
        -- split; [now right |]. split; [reflexivity |]. split; [reflexivity |].
           split; [intros H; discriminate H |].
           intros (s & d' & Hs & Hd & Hl). injection Hs as <-. cbn in Hd.
           injection Hd as <-. rewrite Hct in Hl. discriminate Hl.
      * eexists _, _, _, _. split; [reflexivity |].
        split; [now right |]. split; [reflexivity |]. split; [reflexivity |].
        split; [intros H; discriminate H |].
        intros (s & d' & Hs & Hd & _). injection Hs as <-. discriminate Hd.
      * eexists _, _, _, _. split; [reflexivity |].
        split; [now right |]. split; [reflexivity |]. split; [reflexivity |].
        split; [intros H; discriminate H |].
        intros (s & d' & Hs & _). discriminate Hs.
      * eexists _, _, _, _. split; [reflexivity |].
        split; [now right |]. split; [reflexivity |]. split; [reflexivity |].
        split; [intros H; discriminate H |].
        intros (s & d' & Hs & _). discriminate Hs.
    + eexists _, _, _, _. split; [reflexivity |].
      split; [now right |]. split; [intros H; discriminate H | now split].
  - unfold Decrypt. destruct (client c) as [api |].
    + cbn [andThen ask run]. fold (decryptWrite api).
      destruct (m _ (decryptWrite api) v) as [[[[[d |]] |] | e] v1]; cbn [run fst snd Data].
      * destruct (d !! "plaintext"%string) as [[pt |] |] eqn:Hpt; cbn [run].
        -- destruct (base64_DecodeString pt) as [bytes | e] eqn:Hdec; cbn [run];
             eexists _, _, _, _; (split; [reflexivity |]).
           ++ split; [now left |]. split; [reflexivity |]. split; [reflexivity |].
              split; [intros _ | reflexivity]. now exists (mkSecret (Some d)), d, pt.
           ++ split; [now right |]. split; [reflexivity |]. split; [reflexivity |].
              split; [intros H; discriminate H |].
              intros (s & d' & pt' & Hs & Hd & Hl & Hb). injection Hs as <-. cbn in Hd.
              injection Hd as <-. rewrite Hpt in Hl. injection Hl as <-.
              rewrite Hdec in Hb. discriminate Hb.
        -- eexists _, _, _, _. split; [reflexivity |].
           split; [now right |]. split; [reflexivity |]. split; [reflexivity |].
           split; [intros H; discriminate H |].
           intros (s & d' & pt' & Hs & Hd & Hl & _). injection Hs as <-. cbn in Hd.
           injection Hd as <-. rewrite Hpt in Hl. discriminate Hl.
        -- eexists _, _, _, _. split; [reflexivity |].
           split; [now right |]. split; [reflexivity |]. split; [reflexivity |].
           split; [intros H; discriminate H |].
           intros (s & d' & pt' & Hs & Hd & Hl & _). injection Hs as <-. cbn in Hd.
           injection Hd as <-. rewrite Hpt in Hl. discriminate Hl.
      * eexists _, _, _, _. split; [reflexivity |].
        split; [now right |]. split; [reflexivity |]. split; [reflexivity |].
        split; [intros H; discriminate H |].
        intros (s & d' & pt' & Hs & Hd & _). injection Hs as <-. discriminate Hd.
      * eexists _, _, _, _. split; [reflexivity |].
        split; [now right |]. split; [reflexivity |]. split; [reflexivity |].
        split; [intros H; discriminate H |].
        intros (s & d' & pt' & Hs & _). discriminate Hs.
      * eexists _, _, _, _. split; [reflexivity |].
        split; [now right |]. split; [reflexivity |]. split; [reflexivity |].
        split; [intros H; discriminate H |].
        intros (s & d' & pt' & Hs & _). discriminate Hs.
    + eexists _, _, _, _. split; [reflexivity |].
      split; [now right |]. split; [intros H; discriminate H | now split].
Qed.

(** X27.  [Decrypt] undoes [Encrypt]: with an API client, when the write
    to [transit/encrypt/<key>] returns a ciphertext, the write of that
    ciphertext to [transit/decrypt/<key>] returns the base64 text it was
    given and base64 decoding inverts the encoding of the data, decrypting
    the result of encrypting returns the data and no error. *)
Theorem Decrypt_Encrypt_round_trip {V : Type} (m : Machine V) (v v1 v2 : V) (c : Client)
    (api : ApiClient) (data transitKey ciphertext : string)
    (sealed opened : gmap string value) :
  client c = Some api ->
  base64_DecodeString (base64_EncodeToString data) = Ok data ->
  m _ (Logical_Write api ("transit/encrypt/" +:+ transitKey)
                     {[ "plaintext"%string := VString (base64_EncodeToString data) ]}) v
    = (Ok (Some (mkSecret (Some sealed))), v1) ->
  sealed !! "ciphertext"%string = Some (VString ciphertext) ->
  m _ (Logical_Write api ("transit/decrypt/" +:+ transitKey)
                     {[ "ciphertext"%string := VString ciphertext ]}) v1
    = (Ok (Some (mkSecret (Some opened))), v2) ->
  opened !! "plaintext"%string = Some (VString (base64_EncodeToString data)) ->
  (run m (act e <- Encrypt c data transitKey; Decrypt c (fst e) transitKey) v).1
  = (Some (data, None), v2).
Proof.
  intros Hc Hb64 Henc Hct Hdec Hpt.
  rewrite run_andThen. unfold Encrypt, Decrypt. rewrite Hc.
  cbn [andThen ask run]. rewrite Henc. cbn [Data]. rewrite Hct. cbn [run fst].
  rewrite Hdec. cbn [Data]. rewrite Hpt, Hb64. reflexivity.
Qed.

(** *** Creating the client *)

(** X28.  [NewClient] never panics.  When it returns a client, that client
    has an API client presenting a non-empty token, keeps the token path it
    was given, and the token watcher was started exactly when the token
    came from the file; and the API client is asked for the given address,
    or for the default one when the address is empty. *)
Theorem NewClient_token_invariant {V : Type} (m : Machine V) (v : V)
    (vaultAddr vaultToken path : string) :
  exists r v' tr,
    run m (NewClient vaultAddr vaultToken path) v = (Some r, v', tr) /\
    head tr = Some (anyOp (Api_NewClient (if String.eqb vaultAddr "" then None
                                          else Some vaultAddr))) /\
    forall c, r = Ok c ->
      tokenPath c = path /\
      (exists api, client c = Some api /\ Token api <> EmptyString) /\
      existsb startsWatcher tr = usingTokenFile c.
Proof.
  unfold NewClient. cbn [andThen ask run].
  assert ((if negb (String.eqb vaultAddr "") then Some vaultAddr else None)
          = (if String.eqb vaultAddr "" then None else Some vaultAddr)) as ->
    by now destruct (String.eqb vaultAddr "").
  set (new := Api_NewClient _).
  destruct (m _ new v) as [[api | e] v0].
  2:{ cbn [run]. eexists _, _, _. split; [reflexivity |]. split; [reflexivity |].
      intros c H. discriminate H. }
  rewrite run_andThen.
  destruct (m _ (ReadFile path) v0) as [file v1] eqn:Hread.
  destruct (m _ (Getenv "VAULT_TOKEN") v1) as [envToken v2] eqn:Henv.
  rewrite (setToken_run m v0 v1 v2 (mkClient (Some api) path false) api vaultToken path
             file envToken eq_refl Hread Henv).
  destruct (String.eqb (offered file) "") eqn:Hfile; cbn [negb];
    [destruct (String.eqb vaultToken "") eqn:Hexp; cbn [negb];
       [destruct (String.eqb envToken "") eqn:Henvt; cbn [negb] |] |];
    unfold presenting; cbn [fst snd usingTokenFile andThen ask run app];
    try (destruct (m _ Go_watchTokenFile _) as [u v3]; cbn [run app]);
    eexists _, _, _; (split; [reflexivity |]); (split; [reflexivity |]);
    intros c H; try discriminate H; injection H as <-;
    cbn [tokenPath client usingTokenFile];
    (split; [reflexivity |]);
    (split; [eexists; split; [reflexivity |]; cbn [Token]; now apply String.eqb_neq
            | reflexivity]).
Qed.

(** *** The health endpoints *)

Lemma Contains_app (p s t : string) : gostrings.Contains (p +:+ s +:+ t) s = true.
Proof.
  induction p as [|c p IH].
  - change (EmptyString +:+ s +:+ t) with (s +:+ t).
    destruct s as [|d s];
      [change (EmptyString +:+ t) with t; destruct t; reflexivity |].
    cbn [String.append gostrings.Contains].
    change (String d (s +:+ t)) with (String d s +:+ t).
    now rewrite HasPrefix_app.
  - change (String c p +:+ s +:+ t) with (String c (p +:+ s +:+ t)).
    cbn [gostrings.Contains]. rewrite IH. apply orb_true_r.
Qed.

(** X29.  [Ready] answers 503 exactly when the health check of the secret
    service reports an error, and keeps the status it was given otherwise;
    without an API client it answers 503 without asking the service.
    [Health] asks nothing, keeps the status and reports, in the [vault]
    field of its body, the address of the API client when there is one and
    the empty string without one, next to the configured version. *)
Theorem Ready_reports_vault_health {V : Type} (m : Machine V) (v : V)
    (h : health.HealthHandler) (r : handlers.FiberResponse) :
  (exists fr v' tr,
     run m (health.Ready h r) v = (Some fr, v', tr) /\
     match client (health.vault_ h) with
     | None => handlers.Status fr = 503 /\ v' = v /\ tr = []
     | Some api =>
         tr = [anyOp (Sys_Health api)] /\ v' = (m _ (Sys_Health api) v).2 /\
         handlers.Status fr = match (m _ (Sys_Health api) v).1 with
                              | Some _ => 503
                              | None => handlers.Status r
                              end
     end) /\
  handlers.Status (health.Health h r) = handlers.Status r /\
  handlers.Headers (health.Health h r) !! "Content-Type"%string
    = Some "application/json"%string /\
  (client (health.vault_ h) = None ->
   exists body, handlers.Payload (health.Health h r) = handlers.Bytes body /\
     gostrings.Contains body
       (health.quote +:+ "vault" +:+ health.quote +:+ ":" +:+ health.quote +:+ health.quote)
     = true) /\
  (forall api, client (health.vault_ h) = Some api ->
   exists body, handlers.Payload (health.Health h r) = handlers.Bytes body /\
     gostrings.Contains body
       (health.quote +:+ "vault" +:+ health.quote +:+ ":" +:+ health.quote +:+
        ApiAddress api +:+ health.quote)
     = true) /\
  (exists body, handlers.Payload (health.Health h r) = handlers.Bytes body /\
     gostrings.Contains body
       (health.quote +:+ "version" +:+ health.quote +:+ ":" +:+ health.quote +:+
        config.Version (health.config_ h) +:+ health.quote)
     = true).
Proof.
  split; [| split; [reflexivity | split; [apply lookup_insert_eq | split; [| split]]]].
  - unfold health.Ready, HealthCheck.
    destruct (client (health.vault_ h)) as [api |].
    + cbn [andThen ask run].
      destruct (m _ (Sys_Health api) v) as [[e |] v1]; cbn [run fst snd];
        eexists _, _, _; (split; [reflexivity |]); repeat split.
    + cbn [andThen run]. eexists _, _, _. split; [reflexivity |]. repeat split.
  - intros Hnone. unfold health.Health, Address. rewrite Hnone.
    eexists. split; [reflexivity |]. reflexivity.
  - intros api Hsome. unfold health.Health, Address. rewrite Hsome.
    eexists. split; [reflexivity |].
    set (S := health.quote +:+ "vault" +:+ health.quote +:+ ":" +:+ health.quote +:+
              ApiAddress api +:+ health.quote).
    set (t := "," +:+ health.quote +:+ "version" +:+ health.quote +:+ ":" +:+
              health.quote +:+ config.Version (health.config_ h) +:+ health.quote +:+ "}").
    set (p := "{" +:+ health.quote +:+ "status" +:+ health.quote +:+ ":" +:+
              health.quote +:+ "healthy" +:+ health.quote +:+ ",").
    match goal with |- gostrings.Contains ?body _ = true =>
      replace body with (p +:+ S +:+ t)
        by (subst p S t; unfold health.quote; cbn [String.append];
            now rewrite !string_app_assoc)
    end.
    apply Contains_app.
  - unfold health.Health.
    eexists. split; [reflexivity |].
    set (S := health.quote +:+ "version" +:+ health.quote +:+ ":" +:+ health.quote +:+
              config.Version (health.config_ h) +:+ health.quote).
    set (p := "{" +:+ health.quote +:+ "status" +:+ health.quote +:+ ":" +:+
              health.quote +:+ "healthy" +:+ health.quote +:+ "," +:+ health.quote +:+
              "vault" +:+ health.quote +:+ ":" +:+ health.quote +:+
              Address (health.vault_ h) +:+ health.quote +:+ ",").
    match goal with |- gostrings.Contains ?body _ = true =>
      replace body with (p +:+ S +:+ "}")
        by (subst p S; unfold health.quote; cbn [String.append];
            now rewrite !string_app_assoc)
    end.
    apply Contains_app.
Qed.

End VaultClient.

(** ** The forwarding core: outcome, provenance, defaults *)

Section ForwardingCore.

Import gostrings http s3 reference.

Context `{RT : Runtime}.



(** The host the loop of [copyHeaders] captures is the first value of an
    inbound header named host in some letter case. *)
Lemma copyLoop_host_origin (l : list (string * list string)) (st : copyState) :
  originalHost (foldl copyStep st l) = originalHost st \/
  exists k v vs, (k, v :: vs) ∈ l /\ EqualFold k "host" = true /\
                 originalHost (foldl copyStep st l) = v.
Proof.
  revert st; induction l as [|kv l IH]; intros st; simpl; [now left |].
  destruct (IH (copyStep st kv)) as [Heq | (k & v & vs & Hin & Hfold & Heq)].
  - rewrite Heq. destruct kv as [k' [|v' vs']]; [now left |].
    unfold copyStep; simpl.
    destruct (EqualFold k' "host") eqn:Hfold.
    + right. exists k', v', vs'. split; [now left |]. split; [assumption |].
      now destruct (isHopByHopHeader k').
    + left. now destruct (isHopByHopHeader k').
  - right. exists k, v, vs. split; [now right |]. now split.
Qed.

(** X13.  [ForwardRequest] invents no header: every header of the request
    handed to the HTTP client has exactly one value, a name that is not
    hop-by-hop, and is the first value of the inbound header of the same
    name, or is [Host] carrying the first value of an inbound header named
    host in some letter case, or is [Content-Length] carrying the inbound
    content length. *)
Theorem ForwardRequest_header_provenance (c : Client) (method path : string)
    (body : option Reader) (headers : Header) (queryString : option string)
    (req : Request) (k : string) (vs : list string) :
  buildRequest c method path body headers queryString = Ok req ->
  Header_ req !! k = Some vs ->
  isHopByHopHeader k = false /\
  exists v, vs = [v] /\
    ((exists rest, headers !! k = Some (v :: rest)) \/
     (k = "Host"%string /\
      exists k' rest, headers !! k' = Some (v :: rest) /\ EqualFold k' "host" = true) \/
     (k = "Content-Length"%string /\ v = Get headers "Content-Length")).
Proof.
  intros Hbuild Hk.
  apply buildRequest_inv in Hbuild as (req0 & _ & Hempty & _ & ->).
  rewrite dropForwardedProto_lookup in Hk. case_decide as Hd; [discriminate Hk |].
  assert (forall k, outHeader (foldl copyStep (mkCopyState "" 0 (Header_ req0))
                                     (rangeOrder headers)) !! k = Some vs ->
          isHopByHopHeader k = false /\
          exists v, vs = [v] /\ exists rest, headers !! k = Some (v :: rest)) as Hloop.
  { intros k0 Hk0. apply copyLoop_origin in Hk0 as [Hk0 | (Hhop & v & vs' & Hin & ->)].
    - simpl in Hk0. rewrite Hempty, lookup_empty in Hk0. discriminate Hk0.
    - split; [assumption |]. exists v. split; [reflexivity |].
      exists vs'. now apply rangeOrder_elem. }
  destruct (decide (k = "Content-Length"%string)) as [-> | Hcl].
  - split; [reflexivity |].
    unfold preserveContentLength in Hk.
    destruct (String.eqb (Get headers "Content-Length") "") eqn:Hget.
    + rewrite copyHeaders_Header_other in Hk by (intros Heq; discriminate Heq).
      apply Hloop in Hk as (_ & v & -> & rest & Hin). exists v. split; [reflexivity |].
      left. now exists rest.
    + assert (vs = [Get headers "Content-Length"]) as ->.
      { destruct (ParseInt _); simpl in Hk; unfold Set_ in Hk;
          rewrite canonical_ContentLength, lookup_insert_eq in Hk; now injection Hk as <-. }
      eexists. split; [reflexivity |]. right; right. now split.
  - rewrite preserveContentLength_other in Hk by assumption.
    destruct (decide (k = "Host"%string)) as [-> | Hh].
    + split; [reflexivity |].
      unfold copyHeaders in Hk.
      destruct (String.eqb _ "") eqn:Hoh; simpl in Hk.
      * apply Hloop in Hk as (_ & v & -> & rest & Hin). exists v. split; [reflexivity |].
        left. now exists rest.
      * rewrite lookup_insert_eq in Hk. injection Hk as <-.
        eexists. split; [reflexivity |]. right; left. split; [reflexivity |].
        destruct (copyLoop_host_origin (rangeOrder headers) (mkCopyState "" 0 (Header_ req0)))
          as [Heq | (k' & v & rest & Hin & Hfold & Heq)].
        -- simpl in Heq. rewrite Heq in Hoh. discriminate Hoh.
        -- rewrite Heq. exists k', rest. split; [now apply rangeOrder_elem | assumption].
    + rewrite copyHeaders_Header_other in Hk by assumption.
      apply Hloop in Hk as (Hhop & v & -> & rest & Hin). split; [assumption |].
      exists v. split; [reflexivity |]. left. now exists rest.
Qed.

Lemma copyHeaders_fields (req : Request) (headers : Header) :
  Method (copyHeaders req headers) = Method req /\
  Body (copyHeaders req headers) = Body req /\
  ContentLength (copyHeaders req headers) = ContentLength req.
Proof. unfold copyHeaders. now destruct (String.eqb _ ""). Qed.

Lemma preserveContentLength_fields (headers : Header) (req : Request) :
  Method (preserveContentLength headers req) = Method req /\
  Body (preserveContentLength headers req) = Body req.
Proof.
  unfold preserveContentLength. destruct (String.eqb _ ""); [now split |].
  now destruct (ParseInt _).
Qed.

Lemma copyHeaders_keeps_host_without_value (req : Request) (headers : Header) :
  (forall k v vs, headers !! k = Some (v :: vs) -> EqualFold k "host" = true ->
                  v = EmptyString) ->
  Host (copyHeaders req headers) = Host req.
Proof.
  intros Hnone. unfold copyHeaders.
  assert (originalHost (foldl copyStep (mkCopyState "" 0 (Header_ req)) (rangeOrder headers))
          = EmptyString) as ->.
  { apply copyLoop_host; [| now left].
    intros k v vs Hin Hfold. apply rangeOrder_elem in Hin. now apply (Hnone k v vs). }
  reflexivity.
Qed.

(** X14.  The request handed to the HTTP client has the caller's method and
    body.  When no inbound header named host carries a non-empty first
    value it keeps the host of the endpoint's URL, and when the inbound
    headers give no content length (or one that is not a decimal integer)
    its length is the one [NewRequest] derived: the size of an in-memory
    body, 0 otherwise. *)
Theorem ForwardRequest_defaults (c : Client) (method path : string)
    (body : option Reader) (headers : Header) (queryString : option string)
    (req : Request) :
  buildRequest c method path body headers queryString = Ok req ->
  Method req = method /\ Body req = body /\
  ((forall k v vs, headers !! k = Some (v :: vs) -> EqualFold k "host" = true ->
                   v = EmptyString) ->
   newRequestHost method (URL req) = Ok (Host req)) /\
  (ParseInt (Get headers "Content-Length") = None ->
   ContentLength req = match body with
                       | Some (BytesReader b) => Z.of_nat (String.length b)
                       | _ => 0
                       end).
Proof.
  intros Hbuild.
  apply buildRequest_inv in Hbuild as (req0 & Hnew & _ & Hurl & ->).
  unfold NewRequest in Hnew.
  destruct (newRequestHost method (fullURL c path queryString)) as [h | e] eqn:Hhost;
    [| discriminate Hnew].
  injection Hnew as <-.
  destruct (copyHeaders_fields
              (mkRequest method (fullURL c path queryString) h ∅
                 match body with Some (BytesReader b) => Z.of_nat (String.length b) | _ => 0 end
                 body) headers) as (Hm & Hb & Hlen).
  destruct (preserveContentLength_fields headers
              (copyHeaders (mkRequest method (fullURL c path queryString) h ∅
                 match body with Some (BytesReader b) => Z.of_nat (String.length b) | _ => 0 end
                 body) headers)) as (Hm' & Hb').
  cbn [dropForwardedProto Method Body URL Host ContentLength].
  rewrite Hm', Hb', Hm, Hb. cbn [Method Body].
  split; [reflexivity |]. split; [reflexivity |]. split.
  - intros Hnone.
    rewrite preserveContentLength_URL, copyHeaders_URL, preserveContentLength_Host.
    cbn [URL]. rewrite Hhost. f_equal.
    now rewrite copyHeaders_keeps_host_without_value.
  - intros Hparse. unfold preserveContentLength.
    destruct (String.eqb _ ""); [exact Hlen |].
    rewrite Hparse. exact Hlen.
Qed.

(** *** The hop-by-hop test *)

Lemma foldEqASCII_same_lower (c d : ascii) :
  foldEqASCII c d = true -> lowerByte c = lowerByte d.
Proof.
  unfold foldEqASCII. intros H. apply orb_prop in H as [H | H].
  - apply Ascii.eqb_eq in H. now subst.
  - apply byteVal_inj. rewrite !byteVal_lowerByte.
    unfold isUpper in *.
    destruct (byteVal d <? byteVal c) eqn:Hlt;
      apply andb_prop in H as [Hup Heq]; apply andb_prop in Hup as [H1 H2];
      apply Z.leb_le in H1, H2; apply Z.eqb_eq in Heq.
    + rewrite (proj2 (Z.leb_le _ _) H1), (proj2 (Z.leb_le _ _) H2). cbn [andb].
      destruct ((65 <=? byteVal c) && (byteVal c <=? 90)) eqn:Hc; [| lia].
      apply andb_prop in Hc as [Hc1 Hc2]. apply Z.leb_le in Hc1, Hc2. lia.
    + rewrite (proj2 (Z.leb_le _ _) H1), (proj2 (Z.leb_le _ _) H2). cbn [andb].
      destruct ((65 <=? byteVal d) && (byteVal d <=? 90)) eqn:Hd; [| lia].
      apply andb_prop in Hd as [Hd1 Hd2]. apply Z.leb_le in Hd1, Hd2. lia.
Qed.

Lemma EqualFold_ascii_same_name (s t : string) :
  isASCII s = true -> EqualFold s t = true -> sameNameAnyCase s t.
Proof.
  unfold sameNameAnyCase.
  revert t; induction s as [|c s IH]; intros [|d t] Hascii Hfold;
    try discriminate Hfold; [reflexivity |].
  cbn [isASCII] in Hascii. apply andb_prop in Hascii as [Hc Hs].
  rewrite EqualFold_cons_ascii in Hfold by now apply Z.ltb_lt.
  apply andb_prop in Hfold as [Hcd Hst].
  cbn [ToLowerASCII]. f_equal; [now apply foldEqASCII_same_lower | now apply IH].
Qed.

(** X15.  For a name of ASCII bytes, [isHopByHopHeader] holds exactly when
    the name differs from one of the seventeen listed names at most in the
    case of its letters.  Outside ASCII the test accepts more: [Keep-Alive]
    written with the Kelvin sign for its first letter is hop-by-hop
    too. *)
Theorem isHopByHopHeader_exact (k : string) :
  (isASCII k = true ->
   (isHopByHopHeader k = true <-> exists d, d ∈ hopByHopHeaders /\ sameNameAnyCase k d)) /\
  isHopByHopHeader samples.kelvinKeepAlive = true /\
  isASCII samples.kelvinKeepAlive = false.
Proof.
  split; [| split; reflexivity].
  intros Hascii. split.
  - unfold isHopByHopHeader. intros H. apply existsb_exists in H as (d & Hin & Hfold).
    exists d. split; [now apply list_elem_of_In |].
    now apply EqualFold_ascii_same_name.
  - intros (d & Hd & Hsame). now apply (isHopByHopHeader_any_case k d).
Qed.

(** *** The first copy of the client *)

(** X16.  The first copy of [copyHeaders] writes every header under the
    canonical form of its inbound name and filters by exact name only:
    whatever it leaves on a new request is the first value of an inbound
    header whose name, as written, is not one of its seven hop-by-hop names;
    and such an inbound header appears on the request under its canonical
    name, provided no other inbound name has the same canonical form. *)
Theorem first_copyHeaders_canonical_names (req : Request) (headers : Header) :
  Header_ req = ∅ ->
  (forall k vs,
     Header_ (s3_first.copyHeaders req headers) !! k = Some vs ->
     exists k' v rest,
       headers !! k' = Some (v :: rest) /\ s3_first.isHopByHopHeader k' = false /\
       k = CanonicalMIMEHeaderKey k' /\ vs = [v]) /\
  (forall k v rest,
     headers !! k = Some (v :: rest) -> s3_first.isHopByHopHeader k = false ->
     (forall k' vs', headers !! k' = Some vs' ->
                     CanonicalMIMEHeaderKey k' = CanonicalMIMEHeaderKey k -> k' = k) ->
     Header_ (s3_first.copyHeaders req headers) !! CanonicalMIMEHeaderKey k = Some [v]).
Proof.
  intros Hempty. split.
  - intros k vs Hk.
    assert (forall k, outHeader (foldl s3_first.copyStep (mkCopyState "" 0 (Header_ req))
                                       (rangeOrder headers)) !! k = Some vs ->
            exists k' v rest,
              headers !! k' = Some (v :: rest) /\ s3_first.isHopByHopHeader k' = false /\
              k = CanonicalMIMEHeaderKey k' /\ vs = [v]) as Hloop.
    { intros k0 Hk0.
      apply first_copyLoop_origin in Hk0 as [Hk0 | (k' & v & rest & Hin & Hhop & -> & ->)].
      - simpl in Hk0. rewrite Hempty, lookup_empty in Hk0. discriminate Hk0.
      - exists k', v, rest. split; [now apply rangeOrder_elem |]. now repeat split. }
    unfold s3_first.copyHeaders in Hk.
    destruct (String.eqb _ "") eqn:Hoh; simpl in Hk; [now apply Hloop |].
    unfold Set_ in Hk.
    destruct (decide (CanonicalMIMEHeaderKey "Host" = k)) as [<- | Hne].
    + rewrite lookup_insert_eq in Hk. injection Hk as <-.
      destruct (first_copyLoop_host_origin (rangeOrder headers)
                  (mkCopyState "" 0 (Header_ req))) as [Heq | (v & rest & Hin & Heq)].
      * simpl in Heq. rewrite Heq in Hoh. discriminate Hoh.
      * rewrite Heq. exists "Host"%string, v, rest.
        split; [now apply rangeOrder_elem |]. now repeat split.
    + rewrite lookup_insert_ne in Hk by assumption. now apply Hloop.
  - intros k v rest Hk Hhop Huniq.
    now apply (first_copyHeaders_assigned req headers k v rest).
Qed.

(** *** The second copy of the client *)

(** X17.  The second copy of the client takes the original scheme from
    [Cf-Visitor] when that header is present, and only otherwise from
    [X-Forwarded-Proto], compared as written with [https].  It asks the
    backend over https exactly when that scheme is https and the endpoint
    starts with [http://]; an endpoint that is already https, or an original
    scheme of http, leaves the URL at the configured endpoint. *)
Theorem second_scheme_decision (c : Client) (path : string) (headers : Header) :
  (s3_second.originalScheme headers = "https"%string \/
   s3_second.originalScheme headers = "http"%string) /\
  (s3_second.originalScheme headers = "https"%string <->
   (Get headers "Cf-Visitor" <> EmptyString /\
    Contains (Get headers "Cf-Visitor") s3_second.httpsMarker = true) \/
   (Get headers "Cf-Visitor" = EmptyString /\
    Get headers "X-Forwarded-Proto" = "https"%string)) /\
  (forall host, endpoint c = "http://" +:+ host ->
     s3_second.originalScheme headers = "https"%string ->
     s3_second.fullURL c path headers None = "https://" +:+ host +:+ path) /\
  (forall host, endpoint c = "https://" +:+ host ->
     s3_second.fullURL c path headers None = endpoint c +:+ path) /\
  (s3_second.originalScheme headers = "http"%string ->
   s3_second.fullURL c path headers None = endpoint c +:+ path).
Proof.
  split; [| split; [| split; [| split]]].
  - unfold s3_second.originalScheme.
    destruct (negb _); [destruct (Contains _ _) | destruct (String.eqb _ "https")]; auto.
  - unfold s3_second.originalScheme.
    destruct (String.eqb (Get headers "Cf-Visitor") "") eqn:Hcf; cbn [negb].
    + apply String.eqb_eq in Hcf. rewrite Hcf.
      destruct (String.eqb (Get headers "X-Forwarded-Proto") "https") eqn:Hx.
      * apply String.eqb_eq in Hx. split; [intros _; right; now split | reflexivity].
      * apply String.eqb_neq in Hx. split; [intros H; discriminate H |].
        intros [[Hne _] | [_ Heq]]; [now destruct Hne | contradiction].
    + apply String.eqb_neq in Hcf.
      destruct (Contains _ _) eqn:Hc.
      * split; [intros _; left; now split | reflexivity].
      * split; [intros H; discriminate H |].
        intros [[_ Heq] | [Heq _]]; [discriminate Heq | contradiction].
  - intros host Hend Hs. now apply second_url_upgraded.
  - intros host Hend. unfold s3_second.fullURL. rewrite Hend.
    assert (HasPrefix ("https://" +:+ host) "http://" = false) as -> by reflexivity.
    now rewrite andb_false_r.
  - intros Hs. unfold s3_second.fullURL. rewrite Hs. reflexivity.
Qed.

End ForwardingCore.

(** ** The handler as the server runs it *)

Section Wired.

Import gostrings http types s3 metadata handlers reference server.

Context `{RT : Runtime} `{EN : Encoder}.




(** X18.  In the server as wired, a [PutObject] whose KMS key ARN is not of
    the form [arn:aws:kms:R:A:key/U] is answered 400 [InvalidRequest]
    without any request to the backend or to the secret service. *)
Theorem wired_PutObject_rejects_malformed_arn {W : Type} (o : World W) (w : W)
    (cl : Client) (c : Ctx) (arn : string) :
  Params_bucket c <> EmptyString ->
  Params_star c <> EmptyString ->
  getKMSKeyARN c = Ok arn ->
  (~ exists R A U, wellFormed R A U /\ arn = kmsARN R A U) ->
  exists fr msg,
    exec o (wired cl (PutObject c)) w = ((fr, None), w, []) /\
    Status fr = 400 /\
    Payload fr = XMLError (mkErrorResponse "InvalidRequest" msg).
Proof.
  intros Hb Hk Harn Hbad. unfold wired, PutObject.
  rewrite !eqb_empty_false by assumption. cbn [orb]. rewrite Harn.
  cbn [bind call withKeyGateway].
  destruct (ARNToVaultKey_cases arn) as [[msg Herr] | (R & A & U & Hwf & Heq & _)].
  - rewrite Herr. cbn [snd xmlError withKeyGateway withMetadataService withS3Client exec].
    eexists _, _. split; [reflexivity |]. split; reflexivity.
  - exfalso. apply Hbad. now exists R, A, U.
Qed.



End Wired.

(** ** Transit key names *)

Section TransitKeyNames.

Import gostrings reference.

Lemma app_separator_inj (c : ascii) (a a' b b' : string) :
  free_of c a = true -> free_of c a' = true ->
  a +:+ String c b = a' +:+ String c b' -> a = a' /\ b = b'.
Proof.
  revert a'; induction a as [|x a IH]; intros [|x' a'] Ha Ha' Heq; cbn in *.
  - injection Heq as ->. now split.
  - injection Heq as <- _. apply andb_prop in Ha' as [Hx _].
    rewrite Ascii.eqb_refl in Hx. discriminate Hx.
  - injection Heq as -> _. apply andb_prop in Ha as [Hx _].
    rewrite Ascii.eqb_refl in Hx. discriminate Hx.
  - injection Heq as -> Heq.
    apply andb_prop in Ha as [_ Ha]. apply andb_prop in Ha' as [_ Ha'].
    destruct (IH a' Ha Ha' Heq) as [-> ->]. now split.
Qed.

(** X21.  A transit key name returned by [ARNToVaultKey] is not empty and
    holds no colon.  Two well-formed ARNs whose regions and accounts hold no
    underscore are given different names unless they are the same ARN; with
    an underscore in a region or an account, two different ARNs can be given
    the same name. *)
Theorem ARNToVaultKey_key_names :
  (forall arn name,
     vault.ARNToVaultKey arn = (name, None) ->
     name <> EmptyString /\ free_of ":" name = true) /\
  (forall R A U R' A' U',
     wellFormed R A U -> wellFormed R' A' U' ->
     free_of "_" R = true -> free_of "_" A = true ->
     free_of "_" R' = true -> free_of "_" A' = true ->
     vault.ARNToVaultKey (kmsARN R A U) = vault.ARNToVaultKey (kmsARN R' A' U') ->
     kmsARN R A U = kmsARN R' A' U') /\
  (exists arn arn' name,
     arn <> arn' /\
     vault.ARNToVaultKey arn = (name, None) /\ vault.ARNToVaultKey arn' = (name, None)).
Proof.
  split; [| split].
  - intros arn name Hname.
    destruct (ARNToVaultKey_cases arn) as [[msg Herr] | (R & A & U & Hwf & _ & Hok)].
    + rewrite Herr in Hname. discriminate Hname.
    + rewrite Hok in Hname. injection Hname as <-.
      destruct Hwf as (HR & _ & _ & HfR & HfA & HfU & _).
      unfold transitKeyName. split.
      * destruct R; [now destruct HR | intros H; discriminate H].
      * rewrite !free_of_app, HfR, HfA, HfU. reflexivity.
  - intros R A U R' A' U' Hwf Hwf' HR HA HR' HA' Heq.
    rewrite (ARNToVaultKey_valid R A U Hwf), (ARNToVaultKey_valid R' A' U' Hwf') in Heq.
    injection Heq as Heq. unfold transitKeyName in Heq.
    change ("_" +:+ A +:+ "_" +:+ U) with (String "_" (A +:+ String "_" U)) in Heq.
    change ("_" +:+ A' +:+ "_" +:+ U') with (String "_" (A' +:+ String "_" U')) in Heq.
    apply app_separator_inj in Heq as [-> Heq]; try assumption.
    apply app_separator_inj in Heq as [-> ->]; try assumption.
    reflexivity.
  - exists (kmsARN "a_b" "c" "k"), (kmsARN "a" "b_c" "k"), "a_b_c_k"%string.
    split; [intros H; discriminate H |]. split; reflexivity.
Qed.

End TransitKeyNames.

(** ** The theorems at concrete inputs *)

Section Instances.

Import gostrings http types reference.

(** *** C1 *)

(** With the host named twice, [Host: a.example] and [host: b.example], and
    the range visiting [Host] first, the value captured last is the one of
    [host]: the request ends with [Host: b.example], not with the inbound
    value of that name. *)
Lemma copyHeaders_host_clash :
  demo.clashHeaders !! "Host"%string = Some ["a.example"%string] /\
  s3.isHopByHopHeader "Host" = false /\
  @rangeOrder demo.reversedRuntime demo.clashHeaders =
    [("Host", ["a.example"]); ("host", ["b.example"])]%string /\
  Header_ (@s3.copyHeaders demo.reversedRuntime demo.request demo.clashHeaders)
    !! "Host"%string = Some ["b.example"%string] /\
  Header_ (@s3.copyHeaders demo.reversedRuntime demo.request demo.clashHeaders)
    !! "Host"%string <> Some ["a.example"%string].
Proof.
  repeat split; try (vm_compute; reflexivity).
  vm_compute. intros H; discriminate H.
Qed.

Lemma copyHeaders_preserves_name_witness :
  demo.signedHeaders !! "X-Amz-Date"%string = Some ["20250101T000000Z"%string] /\
  Header_ (@s3.copyHeaders demo.runtime demo.request demo.signedHeaders)
    !! "X-Amz-Date"%string = Some ["20250101T000000Z"%string].
Proof.
  split; [vm_compute; reflexivity |].
  apply (@copyHeaders_preserves_name demo.runtime demo.request demo.signedHeaders
           "X-Amz-Date" "20250101T000000Z" []).
  - vm_compute; reflexivity.
  - vm_compute; reflexivity.
  - intros H; discriminate H.
Defined.

(** Every key of a concrete header map is one of the keys listed. *)
Ltac header_cases H :=
  apply elem_of_map_to_list in H; vm_compute in H;
  repeat (apply elem_of_cons in H as [H | H]; [injection H as -> -> -> |]);
  [.. | now apply elem_of_nil in H].

(** *** C2 *)

Lemma ARNToVaultKey_reference_witness :
  vault.ARNToVaultKey demo.arn =
    ("us-east-1_123456789012_12345678-1234-1234-1234-123456789012"%string, None) /\
  (exists msg, vault.ARNToVaultKey "arn:aws:s3:us-east-1:123456789012:bucket/mybucket"
               = (EmptyString, Some (Errorf msg))).
Proof.
  split.
  - apply (proj1 (ARNToVaultKey_reference demo.arn)
             "us-east-1" "123456789012" "12345678-1234-1234-1234-123456789012").
    + repeat split; try (intros H; discriminate H); reflexivity.
    + reflexivity.
  - apply (proj2 (ARNToVaultKey_reference "arn:aws:s3:us-east-1:123456789012:bucket/mybucket")).
    intros (R & A & U & _ & Heq).
    unfold kmsARN in Heq. simpl in Heq. discriminate Heq.
Defined.

(** *** C3 *)

(** The same two host headers on the way to the backend
    [http://minio.internal:9000]: the inbound set holds a header named host
    with the non-empty value [a.example], yet the request leaves with host
    [b.example].  In the opposite order of visit the request leaves with
    host [a.example], which is not the value of the inbound header [host]:
    whatever the order, one of the two inbound values is not the outbound
    host. *)
Lemma ForwardRequest_host_clash :
  demo.clashHeaders !! "Host"%string = Some ["a.example"%string] /\
  demo.clashHeaders !! "host"%string = Some ["b.example"%string] /\
  EqualFold "Host" "host" = true /\
  EqualFold "host" "host" = true /\
  (exists req,
     @s3.buildRequest demo.reversedRuntime demo.client "GET" "/bucket1" None
                      demo.clashHeaders None = Ok req /\
     Host req = "b.example"%string /\
     Header_ req !! "Host"%string = Some ["b.example"%string] /\
     Host req <> "a.example"%string) /\
  (exists req,
     @s3.buildRequest demo.runtime demo.client "GET" "/bucket1" None
                      demo.clashHeaders None = Ok req /\
     Host req = "a.example"%string /\
     Host req <> "b.example"%string).
Proof.
  split; [vm_compute; reflexivity |]. split; [vm_compute; reflexivity |].
  split; [reflexivity |]. split; [reflexivity |]. split.
  - eexists. split; [vm_compute; reflexivity |].
    split; [reflexivity |]. split; [vm_compute; reflexivity |].
    intros H; discriminate H.
  - eexists. split; [vm_compute; reflexivity |].
    split; [reflexivity |]. intros H; discriminate H.
Qed.

Lemma ForwardRequest_host_override_witness :
  exists req,
    @s3.buildRequest demo.runtime demo.client "GET" "/bucket1" None
                     demo.signedHeaders None = Ok req /\
    Host req = "s3.example.com"%string /\
    Header_ req !! "Host"%string = Some ["s3.example.com"%string].
Proof.
  eexists. split; [vm_compute; reflexivity |].
  apply (@ForwardRequest_host_override demo.runtime demo.client "GET" "/bucket1" None
           demo.signedHeaders None _ "Host" "s3.example.com" []).
  - vm_compute; reflexivity.
  - vm_compute; reflexivity.
  - reflexivity.
  - intros H; discriminate H.
  - intros k' h' vs' Hk Hfold.
    header_cases Hk; first [reflexivity | vm_compute in Hfold; discriminate Hfold].
Defined.

(** *** C4 *)

(** [X-Forwarded-Server] falls under the pattern [X-Forwarded-*] of the
    specification but is none of the listed names: it is forwarded. *)
Lemma ForwardRequest_forwards_unlisted_edge_header :
  HasPrefix (ToLowerASCII "X-Forwarded-Server") "x-forwarded-" = true /\
  demo.signedHeaders !! "X-Forwarded-Server"%string = Some ["edge1"%string] /\
  exists req,
    @s3.buildRequest demo.runtime demo.client "GET" "/bucket1" None
                     demo.signedHeaders None = Ok req /\
    Header_ req !! "X-Forwarded-Server"%string = Some ["edge1"%string].
Proof.
  split; [reflexivity |]. split; [vm_compute; reflexivity |].
  eexists. split; vm_compute; reflexivity.
Qed.

Lemma ForwardRequest_drops_deny_list_witness :
  demo.signedHeaders !! "x-real-ip"%string = Some ["203.0.113.7"%string] /\
  exists req,
    @s3.buildRequest demo.runtime demo.client "GET" "/bucket1" None
                     demo.signedHeaders None = Ok req /\
    Header_ req !! "x-real-ip"%string = None /\
    Header_ req !! "X-Forwarded-Proto"%string = None.
Proof.
  split; [vm_compute; reflexivity |].
  eexists. split; [vm_compute; reflexivity |].
  destruct (@ForwardRequest_drops_deny_list demo.runtime demo.client "GET" "/bucket1" None
              demo.signedHeaders None _ ltac:(vm_compute; reflexivity))
    as (Hlisted & Hproto & _).
  split; [| exact Hproto].
  apply (Hlisted "x-real-ip"%string "X-Real-Ip"%string).
  - unfold s3.hopByHopHeaders. repeat (first [apply list_elem_of_here | apply list_elem_of_further]).
  - reflexivity.
Defined.

(** The scheme hints are deleted under their canonical names only: written
    in lower case, [x-forwarded-proto] is copied under that name and stays,
    while [x-forwarded-for], which is on the list, is dropped. *)
Lemma ForwardRequest_keeps_lower_case_forwarded_proto :
  exists req,
    @s3.buildRequest demo.runtime demo.client "GET" "/bucket1" None
                     demo.lowerCaseHeaders None = Ok req /\
    Header_ req !! "x-forwarded-proto"%string = Some ["https"%string] /\
    Header_ req !! "x-forwarded-for"%string = None.
Proof. eexists. repeat split; vm_compute; reflexivity. Qed.

(** *** C5 *)



(** *** C6 *)

(** An inbound [X-Forwarded-Proto: https] and a plain-HTTP endpoint: the
    URL stays on [http]. *)
Lemma ForwardRequest_no_scheme_upgrade :
  Get demo.signedHeaders "X-Forwarded-Proto" = "https"%string /\
  HasPrefix (s3.endpoint demo.client) "http://" = true /\
  exists req,
    @s3.buildRequest demo.runtime demo.client "GET" "/bucket1" None
                     demo.signedHeaders None = Ok req /\
    URL req = "http://minio.internal:9000/bucket1"%string /\
    URL req <> "https://minio.internal:9000/bucket1"%string.
Proof.
  split; [vm_compute; reflexivity |]. split; [reflexivity |].
  eexists. split; [vm_compute; reflexivity |].
  split; [reflexivity |]. intros H; discriminate H.
Qed.

Lemma ForwardRequest_url_is_endpoint_witness :
  exists req,
    @s3.buildRequest demo.runtime demo.client "GET" "/bucket1" None
                     demo.signedHeaders (Some "list-type=2"%string) = Ok req /\
    URL req = "http://minio.internal:9000/bucket1?list-type=2"%string.
Proof.
  eexists. split; [vm_compute; reflexivity |].
  apply (proj1 (@ForwardRequest_url_is_endpoint demo.runtime demo.client "GET" "/bucket1" None
                  demo.signedHeaders (Some "list-type=2"%string) _
                  ltac:(vm_compute; reflexivity))).
Defined.

(** In the second copy of the client a visitor header without the https
    marker hides a forwarded protocol of https: no upgrade there either. *)
Lemma second_scheme_hint_masked :
  Get demo.mixedHintHeaders "X-Forwarded-Proto" = "https"%string /\
  s3_second.originalScheme demo.mixedHintHeaders = "http"%string /\
  s3_second.fullURL demo.client "/bucket1" demo.mixedHintHeaders None
    = "http://minio.internal:9000/bucket1"%string.
Proof. repeat split; vm_compute; reflexivity. Qed.

(** *** C7 *)

(** A backend answer with status 300 and a well-formed body yields a
    record, although the status is not 2xx. *)
Lemma Get_record_from_300 :
  (exec (demo.world (demo.response 300 "{}"))
        (@metadata.Get demo.runtime "bucket1" "file.txt" ∅) tt).1.1 = Ok demo.zeroMetadata /\
  ~ (200 <= 300 < 300).
Proof. split; [vm_compute; reflexivity | lia]. Qed.

Lemma Get_status_mapping_witness :
  exists b k,
    (exec (demo.world (demo.response 404 EmptyString))
          (@metadata.Get demo.runtime "bucket1" "file.txt" ∅) tt).1.1
    = Err (metadata.errNotFound b k).
Proof.
  apply (proj1 (@Get_status_mapping demo.runtime unit
                  (demo.world (demo.response 404 EmptyString)) tt tt
                  "bucket1" "file.txt" ∅ (demo.response 404 EmptyString) eq_refl)).
  reflexivity.
Defined.

(** *** C8 *)

Lemma ListObjects_enrichment_witness :
  exists fr out w2 tr,
    exec (demo.world (demo.response 200 "<ListBucketResult/>"))
         (@handlers.ListObjects demo.runtime demo.listCtx) tt = ((fr, None), w2, tr) /\
    length tr = 3%nat /\
    handlers.Payload fr =
      handlers.XMLList (mkListBucketResult "bucket1" EmptyString 1000 false out) /\
    map Key out = ["file.txt"; "other.bin"]%string /\
    out !! 0%nat = Some (mkContent "file.txt" "2006-01-02T15:04:05.000Z"
                                   "etag-of-plaintext" 10 "STANDARD") /\
    out !! 1%nat = Some (mkContent "other.bin" "2006-01-02T15:04:05.000Z"
                                   "etag-of-other" 5 "STANDARD").
Proof.
  pose proof (@ListObjects_enrichment demo.runtime unit
                (demo.world (demo.response 200 "<ListBucketResult/>")) tt tt demo.listCtx
                (demo.response 200 "<ListBucketResult/>") "<ListBucketResult/>" demo.listing
                eq_refl ltac:(simpl; lia) eq_refl eq_refl) as H.
  cbv zeta in H.
  destruct H as (fr & out & w2 & Hexec & _ & Hpay & Hkeys & _ & Hentry).
  exists fr, out, w2. eexists.
  split; [exact Hexec |]. split; [reflexivity |].
  split; [exact Hpay |]. split; [exact Hkeys |].
  split.
  - destruct (Hentry 0%nat _ eq_refl) as (r & Hr & Hout).
    vm_compute in Hr. injection Hr as <-. exact Hout.
  - destruct (Hentry 1%nat _ eq_refl) as (r & Hr & Hout).
    vm_compute in Hr. injection Hr as <-. exact Hout.
Defined.

(** *** C9 *)

(** [Connection] arrives with two values and is hop-by-hop: not even its
    first value is placed on the request. *)
Lemma copyHeaders_drops_repeated_hop_by_hop :
  demo.signedHeaders !! "Connection"%string = Some ["keep-alive"; "close"]%string /\
  Header_ (@s3.copyHeaders demo.runtime demo.request demo.signedHeaders)
    !! "Connection"%string = None.
Proof. split; vm_compute; reflexivity. Qed.

(** In the first copy, [x-a] with two values next to [X-A]: both are
    written to the canonical key [X-A], and with [x-a] visited first its
    first value is lost as well. *)
Lemma first_copyHeaders_spelling_clash :
  samples.spellingClash !! "x-a"%string = Some ["1"; "2"]%string /\
  s3_first.isHopByHopHeader "x-a" = false /\
  @rangeOrder demo.runtime samples.spellingClash =
    [("x-a", ["1"; "2"]); ("X-A", ["3"])]%string /\
  map_to_list (Header_ (@s3_first.copyHeaders demo.runtime demo.request
                          samples.spellingClash))
    = [("X-A", ["3"])]%string.
Proof. repeat split; vm_compute; reflexivity. Qed.

Lemma copyHeaders_first_value_only_witness :
  Header_ (@s3.copyHeaders demo.runtime demo.request samples.repeatedHeaders)
    !! "Accept"%string = Some ["application/xml"%string] /\
  Header_ (@s3.copyHeaders demo.runtime demo.request samples.repeatedHeaders)
    !! "Connection"%string = None /\
  Header_ (@s3_first.copyHeaders demo.runtime demo.request samples.repeatedHeaders)
    !! "X-Amz-Meta-Tag"%string = Some ["a"%string] /\
  Header_ (@s3_first.copyHeaders demo.runtime demo.request samples.repeatedHeaders)
    !! "Connection"%string = None.
Proof.
  destruct (@copyHeaders_first_value_only demo.runtime demo.request samples.repeatedHeaders
              eq_refl) as (Hfirst & Hdrop & _ & Hfirst1 & Hdrop1 & _).
  assert (forall k k' vs', samples.repeatedHeaders !! k' = Some vs' ->
            In k ["Accept"; "Connection"; "x-amz-meta-tag"]%string ->
            CanonicalMIMEHeaderKey k' = CanonicalMIMEHeaderKey k -> k' = k) as Huniq.
  { intros k k' vs' Hk' Hin Hcanon. unfold samples.repeatedHeaders in Hk'.
    apply lookup_insert_Some in Hk' as [[<- _] | [_ Hk']];
      [| apply lookup_insert_Some in Hk' as [[<- _] | [_ Hk']];
         [| apply lookup_insert_Some in Hk' as [[<- _] | [_ Hk']];
            [| rewrite lookup_empty in Hk'; discriminate Hk']]];
      cbn in Hin; destruct Hin as [<- | [<- | [<- | []]]];
      first [reflexivity | discriminate Hcanon]. }
  split; [| split; [| split]].
  - apply (Hfirst "Accept"%string "application/xml"%string "text/plain"%string []).
    + vm_compute; reflexivity.
    + vm_compute; reflexivity.
    + intros H; discriminate H.
  - apply (Hdrop "Connection"%string ["keep-alive"; "close"]%string).
    + vm_compute; reflexivity.
    + vm_compute; reflexivity.
  - apply (Hfirst1 "x-amz-meta-tag"%string "a"%string "b"%string []).
    + vm_compute; reflexivity.
    + vm_compute; reflexivity.
    + intros k' vs' Hk'. apply (Huniq _ k' vs' Hk'). cbn; auto.
  - apply (Hdrop1 "Connection"%string ["keep-alive"; "close"]%string).
    + vm_compute; reflexivity.
    + vm_compute; reflexivity.
    + intros k' vs' Hk'. apply (Huniq _ k' vs' Hk'). cbn; auto.
Defined.

(** *** C10 *)

Lemma PutObject_advertises_kms_witness :
  exists fr w2 tr,
    exec (demo.world (demo.response 200 EmptyString))
         (@handlers.PutObject demo.runtime demo.putCtx) tt = ((fr, None), w2, tr) /\
    handlers.Status fr = 200 /\
    handlers.Headers fr !! "x-amz-server-side-encryption"%string = Some "aws:kms"%string /\
    handlers.Headers fr !! "x-amz-server-side-encryption-aws-kms-key-id"%string
      = Some demo.arn /\
    forallb (fun call => negb (isEncrypt call)) tr = true.
Proof.
  destruct (@PutObject_advertises_kms demo.runtime unit
              (demo.world (demo.response 200 EmptyString)) tt tt tt demo.putCtx demo.arn
              "us-east-1_123456789012_12345678-1234-1234-1234-123456789012"
              (demo.response 200 EmptyString))
    as (fr & Hexec & Hst & Hsse & Hkey & Hnever).
  - intros H; discriminate H.
  - intros H; discriminate H.
  - reflexivity.
  - reflexivity.
  - reflexivity.
  - simpl; lia.
  - rewrite Hexec in Hnever. eexists fr, _, _.
    split; [exact Hexec |]. split; [exact Hst |]. split; [exact Hsse |].
    split; [exact Hkey | exact Hnever].
Defined.

End Instances.

(** ** Further theorems at concrete inputs *)

Section MoreInstances.

Import gostrings http types reference.

(** *** The handlers *)

Lemma response_header_copy_witness :
  handlers.Headers (@handlers.setAllValues demo.runtime
                      (handlers.mkFiberResponse 200 ∅ handlers.NoBody)
                      (RespHeader samples.taggedResponse)) !! "Etag"%string
    = Some "last"%string /\
  handlers.Headers (@handlers.setFirstValues demo.runtime
                      (handlers.mkFiberResponse 200 ∅ handlers.NoBody)
                      (RespHeader samples.taggedResponse)) !! "Etag"%string
    = Some "first"%string.
Proof.
  destruct (@response_header_copy demo.runtime
              (handlers.mkFiberResponse 200 ∅ handlers.NoBody)
              (RespHeader samples.taggedResponse)) as (Hall & Hfirst & _).
  split.
  - apply (Hall "Etag"%string ["first"; "last"]%string "last"%string); reflexivity.
  - apply (Hfirst "Etag"%string "first"%string ["last"%string]); reflexivity.
Defined.

Lemma PutObject_rejects_before_backend_witness :
  exec (demo.world (demo.response 200 EmptyString))
       (@handlers.PutObject demo.runtime samples.badArnCtx) tt
  = (handlers.xmlError (handlers.Response_ samples.badArnCtx) 400 "InvalidRequest"
       "invalid KMS ARN format: arn:aws:s3:::bucket1",
     tt, [anyCall (Vault_ARNToVaultKey "arn:aws:s3:::bucket1")]).
Proof.
  destruct (@PutObject_rejects_before_backend demo.runtime unit
              (demo.world (demo.response 200 EmptyString)) tt samples.badArnCtx)
    as (_ & _ & Hvault).
  apply (Hvault ltac:(intros H; discriminate H) ltac:(intros H; discriminate H)
           "arn:aws:s3:::bucket1"%string EmptyString
           (Errorf "invalid KMS ARN format: arn:aws:s3:::bucket1") tt);
    reflexivity.
Defined.

Lemma PutObject_backend_failure_witness :
  exists fr tr,
    exec (demo.world (demo.response 403 "AccessDenied"))
         (@handlers.PutObject demo.runtime demo.putCtx) tt = ((fr, None), tt, tr) /\
    handlers.Status fr = 403 /\ handlers.Payload fr = handlers.NoBody /\
    handlers.Headers fr !! "x-amz-server-side-encryption"%string = None.
Proof.
  destruct (@PutObject_backend_failure demo.runtime unit
              (demo.world (demo.response 403 "AccessDenied")) tt tt tt demo.putCtx demo.arn
              "us-east-1_123456789012_12345678-1234-1234-1234-123456789012"
              (Ok (demo.response 403 "AccessDenied")))
    as (fr & tr & Hexec & _ & Hfail).
  - intros H; discriminate H.
  - intros H; discriminate H.
  - reflexivity.
  - reflexivity.
  - reflexivity.
  - destruct (Hfail ltac:(simpl; lia)) as (Hst & Hpay & Hhdr).
    exists fr, tr. split; [exact Hexec |]. split; [exact Hst |]. split; [exact Hpay |].
    rewrite Hhdr. reflexivity.
Defined.

(** *** The metadata service *)

Lemma FilterMetadataObjects_hides_sidecars_witness :
  metadata.FilterMetadataObjects
    [ mkContent "a" "" "" 1 "STANDARD"; mkContent "b" "" "" 3 "STANDARD" ]
  = [ mkContent "a" "" "" 1 "STANDARD"; mkContent "b" "" "" 3 "STANDARD" ].
Proof.
  apply (proj2 (proj2 (proj2 (FilterMetadataObjects_hides_sidecars
           [ mkContent "a" "" "" 1 "STANDARD"; mkContent "b" "" "" 3 "STANDARD" ])))).
  intros obj k [<- | [<- | []]]; unfold metadata.getMetadataKey; cbn [Key]; intros H.
  - destruct k as [|c [|c' k]]; discriminate H.
  - destruct k as [|c [|c' k]]; discriminate H.
Defined.

Lemma Store_then_Get_witness :
  (exec samples.world
        (do _e <- @metadata.Store samples.encoder "bucket1" "file.txt" demo.fileMetadata ∅;
         @metadata.Get samples.runtime "bucket1" "file.txt" ∅) ∅).1
  = (Ok demo.fileMetadata, {[ "/bucket1/file.txt.metadata"%string := samples.fileJSON ]}).
Proof.
  apply (@Store_then_Get samples.runtime samples.encoder (gmap string string) samples.world
           ∅ {[ "/bucket1/file.txt.metadata"%string := samples.fileJSON ]}
           {[ "/bucket1/file.txt.metadata"%string := samples.fileJSON ]}
           "bucket1" "file.txt" demo.fileMetadata ∅ samples.fileJSON
           (demo.response 200 EmptyString) (demo.response 200 samples.fileJSON)).
  - vm_compute; reflexivity.
  - vm_compute; reflexivity.
  - vm_compute; reflexivity.
  - simpl; lia.
  - vm_compute; reflexivity.
  - simpl; lia.
  - reflexivity.
Defined.

(** *** The forwarding core *)

Lemma ForwardRequest_header_provenance_witness :
  exists req,
    @s3.buildRequest demo.runtime demo.client "GET" "/bucket1" None demo.signedHeaders None
      = Ok req /\
    Header_ req !! "X-Amz-Date"%string = Some ["20250101T000000Z"%string] /\
    s3.isHopByHopHeader "X-Amz-Date" = false.
Proof.
  destruct (@s3.buildRequest demo.runtime demo.client "GET" "/bucket1" None
              demo.signedHeaders None) as [req | e] eqn:Hbuild;
    [| vm_compute in Hbuild; discriminate Hbuild].
  assert (Header_ req !! "X-Amz-Date"%string = Some ["20250101T000000Z"%string]) as Hk.
  { vm_compute in Hbuild. injection Hbuild as <-. vm_compute; reflexivity. }
  exists req. split; [reflexivity |]. split; [exact Hk |].
  exact (proj1 (@ForwardRequest_header_provenance demo.runtime demo.client "GET" "/bucket1"
                  None demo.signedHeaders None req "X-Amz-Date"
                  ["20250101T000000Z"%string] Hbuild Hk)).
Defined.

Lemma ForwardRequest_defaults_witness :
  exists req,
    @s3.buildRequest demo.runtime demo.client "PUT" "/bucket1/file.txt"
      (Some (BytesReader "0123456789")) samples.hostlessHeaders None = Ok req /\
    Method req = "PUT"%string /\ Host req = "minio.internal:9000"%string /\
    ContentLength req = 10.
Proof.
  destruct (@s3.buildRequest demo.runtime demo.client "PUT" "/bucket1/file.txt"
              (Some (BytesReader "0123456789")) samples.hostlessHeaders None)
    as [req | e] eqn:Hbuild; [| vm_compute in Hbuild; discriminate Hbuild].
  destruct (@ForwardRequest_defaults demo.runtime demo.client "PUT" "/bucket1/file.txt"
              (Some (BytesReader "0123456789")) samples.hostlessHeaders None req Hbuild)
    as (Hm & _ & Hhost & Hlen).
  exists req. split; [reflexivity |]. split; [exact Hm |]. split.
  - assert (Ok (Host req) = Ok "minio.internal:9000"%string :> result string) as Heq.
    { rewrite <- Hhost; [reflexivity |].
      intros k v vs Hk Hfold.
      unfold samples.hostlessHeaders in Hk.
      apply lookup_insert_Some in Hk as [[<- _] | [_ Hk]];
        [discriminate Hfold | rewrite lookup_empty in Hk; discriminate Hk]. }
    now injection Heq.
  - rewrite Hlen; reflexivity.
Defined.

Lemma isHopByHopHeader_exact_witness :
  s3.isHopByHopHeader "x-forwarded-for" = true /\
  (s3.isHopByHopHeader "X-Forwarded-Server" = true -> False).
Proof.
  destruct (isHopByHopHeader_exact "x-forwarded-for") as (Hiff & _).
  split.
  - apply (Hiff eq_refl). exists "X-Forwarded-For"%string.
    split; [| reflexivity]. unfold s3.hopByHopHeaders.
    repeat first [apply list_elem_of_here | apply list_elem_of_further].
  - intros H. vm_compute in H. discriminate H.
Defined.

Lemma first_copyHeaders_canonical_names_witness :
  Header_ (@s3_first.copyHeaders demo.runtime demo.request demo.lowerCaseHeaders)
    !! "X-Forwarded-For"%string = Some ["203.0.113.7"%string] /\
  s3.isHopByHopHeader "x-forwarded-for" = true.
Proof.
  split; [| reflexivity].
  apply (proj2 (@first_copyHeaders_canonical_names demo.runtime demo.request
                  demo.lowerCaseHeaders eq_refl)
           "x-forwarded-for"%string "203.0.113.7"%string []).
  - vm_compute; reflexivity.
  - reflexivity.
  - intros k' vs' Hk' Hcanon.
    unfold demo.lowerCaseHeaders in Hk'.
    apply lookup_insert_Some in Hk' as [[<- _] | [_ Hk']]; [discriminate Hcanon |].
    apply lookup_insert_Some in Hk' as [[<- _] | [_ Hk']]; [discriminate Hcanon |].
    apply lookup_insert_Some in Hk' as [[<- _] | [_ Hk']]; [reflexivity |].
    rewrite lookup_empty in Hk'. discriminate Hk'.
Defined.

Lemma second_scheme_decision_witness :
  s3_second.fullURL demo.client "/bucket1" demo.lowerCaseHeaders None
  = "http://minio.internal:9000/bucket1"%string.
Proof.
  apply (proj2 (proj2 (proj2 (proj2
           (second_scheme_decision demo.client "/bucket1" demo.lowerCaseHeaders))))).
  reflexivity.
Defined.

(** *** The server as wired *)

Lemma wired_PutObject_rejects_malformed_arn_witness :
  exists fr msg,
    exec samples.unreachable
         (@server.wired demo.runtime samples.encoder demo.client _
            (@handlers.PutObject demo.runtime samples.badArnCtx)) tt
      = ((fr, None), tt, []) /\
    handlers.Status fr = 400 /\
    handlers.Payload fr = handlers.XMLError (mkErrorResponse "InvalidRequest" msg).
Proof.
  apply (@wired_PutObject_rejects_malformed_arn demo.runtime samples.encoder unit
           samples.unreachable tt demo.client samples.badArnCtx "arn:aws:s3:::bucket1").
  - intros H; discriminate H.
  - intros H; discriminate H.
  - reflexivity.
  - intros (R & A & U & _ & Heq). unfold kmsARN in Heq. simpl in Heq. discriminate Heq.
Defined.



(** *** Transit key names *)

Lemma ARNToVaultKey_key_names_witness :
  free_of ":" "us-east-1_123456789012_12345678-1234-1234-1234-123456789012" = true.
Proof.
  apply (proj1 ARNToVaultKey_key_names demo.arn). reflexivity.
Defined.

(** *** The client of the secret service *)

Lemma setToken_priority_witness :
  exists c' tr,
    (@vaultclient.run _ _ vaultsamples.machine
       (@vaultclient.setToken vaultsamples.library vaultsamples.configured
          "s.explicit" "/vault/secrets/token")
       (vaultsamples.mkHost [Ok (" s.file" +:+ String "010" EmptyString)] "s.env"))
    = (Some (c', None), vaultsamples.mkHost [] "s.env", tr) /\
    vaultclient.client c'
      = Some (vaultclient.mkApiClient "https://vault.internal:8200" "s.file") /\
    vaultclient.usingTokenFile c' = true /\ length tr = 1%nat.
Proof.
  destruct (@setToken_priority vaultsamples.library vaultsamples.Host vaultsamples.machine
              (vaultsamples.mkHost [Ok (" s.file" +:+ String "010" EmptyString)] "s.env")
              (vaultsamples.mkHost [] "s.env") (vaultsamples.mkHost [] "s.env")
              vaultsamples.configured vaultsamples.apiClient "s.explicit"
              "/vault/secrets/token" (Ok (" s.file" +:+ String "010" EmptyString)) "s.env"
              eq_refl eq_refl eq_refl)
    as (c' & err & tr & Hrun & Herr & Hok & _ & Htr).
  assert (err = None) as -> by (apply Herr; vm_compute; intros H; discriminate H).
  exists c', tr. split; [exact Hrun |].
  rewrite (Hok ltac:(vm_compute; intros H; discriminate H)), Htr.
  repeat split; vm_compute; reflexivity.
Defined.

Lemma watchTokenFile_follows_file_witness :
  let reads := [ Ok "s.one"; Err vaultsamples.noSuchFile; Ok "  "; Ok " s.two "; Ok "" ]%string in
  exists c' v' tr,
    @vaultclient.run _ _ vaultsamples.machine
      (@vaultclient.watchTokenFile vaultsamples.library 5 vaultsamples.configured)
      (vaultsamples.mkHost reads "s.env") = (Some c', v', tr) /\
    vaultclient.client c'
      = Some (vaultclient.mkApiClient "https://vault.internal:8200" "s.two") /\
    length tr = 5%nat.
Proof.
  intros reads.
  destruct (@watchTokenFile_follows_file vaultsamples.library vaultsamples.Host
              vaultsamples.machine 5 (vaultsamples.mkHost reads "s.env")
              vaultsamples.configured vaultsamples.apiClient eq_refl) as (Hrun & _ & _).
  eexists _, _, _. split; [apply Hrun; intros H; discriminate H |].
  split; vm_compute; reflexivity.
Defined.

Lemma Decrypt_Encrypt_round_trip_witness :
  (@vaultclient.run _ _ vaultsamples.machine
     (vaultclient.andThen
        (@vaultclient.Encrypt vaultsamples.library vaultsamples.configured
           "hello world!?" "us-east-1_123456789012_key1")
        (fun e => @vaultclient.Decrypt vaultsamples.library vaultsamples.configured
                    (fst e) "us-east-1_123456789012_key1"))
     (vaultsamples.mkHost [] "")).1
  = (Some ("hello world!?"%string, None), vaultsamples.mkHost [] "").
Proof.
  apply (@Decrypt_Encrypt_round_trip vaultsamples.library vaultsamples.Host
           vaultsamples.machine (vaultsamples.mkHost [] "") (vaultsamples.mkHost [] "")
           (vaultsamples.mkHost [] "") vaultsamples.configured vaultsamples.apiClient
           "hello world!?" "us-east-1_123456789012_key1" "vault:v1:aGVsbG8gd29ybGQhPw=="
           {[ "ciphertext"%string := vaultclient.VString "vault:v1:aGVsbG8gd29ybGQhPw==" ]}
           {[ "plaintext"%string := vaultclient.VString "aGVsbG8gd29ybGQhPw==" ]}).
  - reflexivity.
  - vm_compute; reflexivity.
  - vm_compute; reflexivity.
  - vm_compute; reflexivity.
  - vm_compute; reflexivity.
  - vm_compute; reflexivity.
Defined.

End MoreInstances.
